(** * Overclocked: the JSON-backed economy store and its chat commands

    A shallow embedding of [era/gdata.py] (document store and expiry
    normalizer), of the [equip] and [alliance] branches of
    [bascenev1/_hooks.py: server_command], and of the leaderboard and league
    bookkeeping of [bascenev1/_dualteamsession.py] (repeated verbatim in
    [_freeforallsession.py]).

    Conventions.
    - A Python [str] is the list of its code points ([pystr]); [py "..."]
      writes an ASCII literal.
    - A Python [dict] is an association list in insertion order; [x[k] = v]
      is [dict_set].
    - Python's [None] and JSON's [null] are the one value [JNull].
    - Exceptions are explicit: a computation yields [Ret v] or [Raise e].
    - Clock readings and parsed deadlines are rationals; the builtin
      [float(...)] is a parameter [py_float] ([None] where Python raises
      [ValueError]); the non-finite floats are outside the model. *)

From Stdlib Require Import String Ascii DecimalString.
From Stdlib Require Import List ZArith NArith QArith Bool Lia Arith.
From Stdlib Require Import Permutation Sorted.
Import ListNotations.

Set Implicit Arguments.
Local Open Scope list_scope.

(* ================================================================= *)
(** ** Python strings *)

Definition pystr := list N.

Definition py (s : string) : pystr :=
  map N_of_ascii (list_ascii_of_string s).

Fixpoint pystr_eqb (a b : pystr) : bool :=
  match a, b with
  | [], [] => true
  | x :: a', y :: b' => N.eqb x y && pystr_eqb a' b'
  | _, _ => false
  end.

(** U+241F, the separator between an item and its deadline. *)
Definition SEP : N := 9247%N.

(** [s.split(c)] for a one-code-point separator [c]. *)
Fixpoint split (c : N) (s : pystr) : list pystr :=
  match s with
  | [] => [[]]
  | a :: s' =>
      if N.eqb a c then [] :: split c s'
      else match split c s' with
           | [] => [[a]]
           | w :: ws => (a :: w) :: ws
           end
  end.

(** [x in l] for a list of strings. *)
Definition str_in (x : pystr) (l : list pystr) : bool :=
  existsb (pystr_eqb x) l.

(* ================================================================= *)
(** ** Exceptions *)

Inductive exn :=
  ValueError | KeyError | IndexError | TypeError | AttributeError.

Inductive exc (A : Type) :=
| Ret (a : A)
| Raise (e : exn).
Arguments Ret {A} a.
Arguments Raise {A} e.

Definition bind {A B} (m : exc A) (k : A -> exc B) : exc B :=
  match m with
  | Ret a => k a
  | Raise e => Raise e
  end.

Notation "x <- m ;; k" := (bind m (fun x => k))
  (at level 61, m at next level, right associativity).

(* ================================================================= *)
(** ** JSON documents *)

Unset Elimination Schemes.
Inductive json :=
| JNull
| JBool (b : bool)
| JInt (z : Z)
| JFloat (q : Q)
| JStr (s : pystr)
| JList (l : list json)
| JDict (d : list (pystr * json)).
Set Elimination Schemes.

Definition is_null (v : json) : bool :=
  match v with JNull => true | _ => false end.

Section JsonInduction.
Variable P : json -> Prop.
Hypothesis Hnull : P JNull.
Hypothesis Hbool : forall b, P (JBool b).
Hypothesis Hint : forall z, P (JInt z).
Hypothesis Hfloat : forall q, P (JFloat q).
Hypothesis Hstr : forall s, P (JStr s).
Hypothesis Hlist : forall l, Forall P l -> P (JList l).
Hypothesis Hdict : forall d, Forall (fun kv => P (snd kv)) d -> P (JDict d).

Fixpoint json_ind (v : json) : P v :=
  match v with
  | JNull => Hnull
  | JBool b => Hbool b
  | JInt z => Hint z
  | JFloat q => Hfloat q
  | JStr s => Hstr s
  | JList l =>
      Hlist ((fix all (l : list json) : Forall P l :=
                match l with
                | [] => Forall_nil P
                | e :: l' => Forall_cons e (json_ind e) (all l')
                end) l)
  | JDict d =>
      Hdict ((fix all (d : list (pystr * json))
                : Forall (fun kv => P (snd kv)) d :=
                match d with
                | [] => Forall_nil _
                | kv :: d' => Forall_cons kv (json_ind (snd kv)) (all d')
                end) d)
  end.
End JsonInduction.

(** *** Dicts as insertion-ordered association lists *)

Section Dict.
Variable V : Type.

Fixpoint dict_get (d : list (pystr * V)) (k : pystr) : option V :=
  match d with
  | [] => None
  | (k', v) :: d' => if pystr_eqb k k' then Some v else dict_get d' k
  end.

(** [d[k] = v]: overwrite in place, or append a new key at the end. *)
Fixpoint dict_set (d : list (pystr * V)) (k : pystr) (v : V)
  : list (pystr * V) :=
  match d with
  | [] => [(k, v)]
  | (k', v') :: d' =>
      if pystr_eqb k k' then (k', v) :: d' else (k', v') :: dict_set d' k v
  end.

Definition keys (d : list (pystr * V)) : list pystr := map fst d.

Definition dict_has (d : list (pystr * V)) (k : pystr) : bool :=
  str_in k (keys d).
End Dict.

(* ================================================================= *)
(** ** era/gdata.py: the expiry normalizer *)

Definition Qgtb (a b : Q) : bool := negb (Qle_bool a b).

Section Normalizer.
(** [float(s)] and the reading of [time.time()]. *)
Variable py_float : pystr -> option Q.
Variable now : Q.

Definition _update_str (s : pystr) : exc json :=
  let ss := split SEP s in
  if negb (Nat.eqb (length ss) 1) then
    match py_float (nth 1 ss []) with
    | None => Raise ValueError
    | Some deadline => Ret (if Qgtb now deadline then JNull else JStr s)
    end
  else Ret (JStr s).

Section Containers.
(** The per-value dispatch shared by the two loops. *)
Variable upd : json -> exc json.

Fixpoint _update_dict_loop (items : list (pystr * json))
         (x : list (pystr * json)) : exc (list (pystr * json)) :=
  match items with
  | [] => Ret x
  | (k, v) :: rest =>
      v' <- upd v ;;
      _update_dict_loop rest (if is_null v' then x else dict_set x k v')
  end.

Fixpoint _update_list_loop (li : list json) (x : list json)
  : exc (list json) :=
  match li with
  | [] => Ret x
  | e :: rest =>
      e' <- upd e ;;
      _update_list_loop rest (if is_null e' then x else x ++ [e'])
  end.
End Containers.

Fixpoint _update (a : json) : exc json :=
  match a with
  | JDict d => x <- _update_dict_loop _update d [] ;; Ret (JDict x)
  | JList l => x <- _update_list_loop _update l [] ;; Ret (JList x)
  | JStr s => _update_str s
  | _ => Ret a
  end.

Definition _update_dict (d : list (pystr * json)) :=
  _update_dict_loop _update d [].

Definition _update_list (li : list json) :=
  _update_list_loop _update li [].

(* =============================================================== *)
(** ** era/gdata.py: write and load *)

(** The data directory: resolved path to parsed document. *)
Definition files := pystr -> option json.

Definition write (fs : files) (gorl : pystr) (data : json) : files :=
  fun p => if pystr_eqb p gorl then Some data else fs p.

(** [stats[x]] for a string [x]. *)
Definition getitem (stats : json) (x : pystr) : exc json :=
  match stats with
  | JDict d =>
      match dict_get d x with
      | Some v => Ret v
      | None => Raise KeyError
      end
  | _ => Raise TypeError
  end.

Fixpoint drill (stats : json) (args : list pystr) : exc json :=
  match args with
  | [] => Ret stats
  | x :: rest =>
      match getitem stats x with
      | Ret v => drill v rest
      | Raise KeyError => Ret JNull
      | Raise e => Raise e
      end
  end.

Definition load (fs : files) (gorl : pystr) (args : list pystr)
           (update : bool) : exc json * files :=
  match fs gorl with
  | None => (Ret JNull, fs)
  | Some stats =>
      if update then
        match _update stats with
        | Raise e => (Raise e, fs)
        | Ret stats' => (drill stats' args, write fs gorl stats')
        end
      else (drill stats args, fs)
  end.
End Normalizer.

(* ================================================================= *)
(** ** Python list and string helpers used by the dispatcher *)

(** [l.remove(x)]: drop the first element equal to [x]; [ValueError] when
    there is none. *)
Fixpoint list_remove (x : pystr) (l : list pystr) : exc (list pystr) :=
  match l with
  | [] => Raise ValueError
  | y :: l' =>
      if pystr_eqb y x then Ret l'
      else (r <- list_remove x l' ;; Ret (y :: r))
  end.

Definition nonempty (s : pystr) : bool :=
  match s with [] => false | _ => true end.

Definition AT : N := 64%N.
Definition SPACE : N := 32%N.
Definition SLASH : N := 47%N.

(** [str(z)] for an integer. *)
Definition str_of_int (z : Z) : pystr :=
  py (DecimalString.NilZero.string_of_int (Z.to_int z)).

(** The part of an item entry before the separator: [o.split(SEP)[0]]. *)
Definition item_base (o : pystr) : pystr := nth 0 (split SEP o) [].

(** [i.split(SEP)[0].split('@')[1]]: the category of an equipped entry;
    [IndexError] when the identity string has no ['@']. *)
Definition item_category (i : pystr) : exc pystr :=
  match nth_error (split AT (item_base i)) 1 with
  | Some c => Ret c
  | None => Raise IndexError
  end.

(** [item + '@' + scat]. *)
Definition identity (item scat : pystr) : pystr := item ++ AT :: scat.

(* ================================================================= *)
(** ** era/utils.py: inform *)

Inductive severity := success | warning | error | normal.

Record note := Note { tid : pystr; ttype : severity; subst : list pystr }.

(** A player without a language first gets the [selectLang] error, then the
    message itself.  The localized text is looked up by the host; a note
    records the message id, the severity and the substitution arguments. *)
Definition inform (tid : pystr) (ttype : severity) (lang : option pystr)
           (v : list pystr) : list note :=
  match lang with
  | None => [Note (py "selectLang") error []]
  | Some _ => []
  end ++ [Note tid ttype v].

(* ================================================================= *)
(** ** bascenev1/_hooks.py: documents of the dispatcher *)

(** A player document after [sdpd] filled in the defaults; [pother] holds
    the keys the modelled branches never touch. *)
Record plrdata := Plr {
  spoints : Z;
  items : list pystr;
  equipped : list pystr;
  lang : option pystr;
  allianceidref : option pystr;
  pother : list (pystr * json)
}.

Record alliance := Alliance {
  aname : pystr;
  members : list (pystr * pystr);
  invref : option pystr;
  public : bool
}.

(** What one chat line did. *)
Inductive outcome :=
| NotCommand
    (* [return False]: not a slash command *)
| Returned (notes : list note)
    (* an early [return True]: no document is written *)
| Saved (notes : list note) (plr : plrdata)
        (written_alliance : option (pystr * alliance))
        (written_names : option (list pystr))
    (* the epilogue ran: the player document is written, the alliance
       document too when there is one, the name list by the alliance branch *)
| Caught (e : exn) (notes : list note)
    (* [except (IndexError, ValueError, KeyError)]: nothing is written *)
| Uncaught (e : exn)
| Spinning
    (* the id loop did not find a free id within the given number of draws *)
| Unmodelled.

(** Truthiness of an optional string: neither [None] nor empty. *)
Definition truthy (r : option pystr) : bool :=
  match r with
  | Some (_ :: _) => true
  | _ => false
  end.

(** *** equip *)

(** [for i in plrdata['equipped']] with the body's [append] and [remove]:
    the iterator holds an index into the list being mutated.  [fuel] bounds
    the number of iterations; the length of the list at entry is enough. *)
Fixpoint unequip_others (fuel idx : nat) (te scat : pystr) (lg : option pystr)
         (its eqd : list pystr) (notes : list note)
  : list note * exc (list pystr * list pystr) :=
  match fuel with
  | O => (notes, Ret (its, eqd))
  | S fuel' =>
      match nth_error eqd idx with
      | None => (notes, Ret (its, eqd))
      | Some i =>
          if negb (pystr_eqb te i) then
            match item_category i with
            | Raise e => (notes, Raise e)
            | Ret c =>
                if pystr_eqb scat c then
                  match list_remove i eqd with
                  | Raise e => (notes, Raise e)
                  | Ret eqd' =>
                      unequip_others fuel' (S idx) te scat lg (its ++ [i]) eqd'
                        (notes ++ inform (py "unequipped") success lg [i])
                  end
                else unequip_others fuel' (S idx) te scat lg its eqd notes
            end
          else unequip_others fuel' (S idx) te scat lg its eqd notes
      end
  end.

Definition equip_branch (msg_splits : list pystr) (p : plrdata)
           (ad : option (pystr * alliance)) : outcome :=
  if Nat.eqb (length msg_splits) 1 then
    Returned (inform (py "equipUsage") normal (lang p) [])
  else
    match nth_error msg_splits 1, nth_error msg_splits 2 with
    | Some scat, Some item =>
        let te := find (fun o => pystr_eqb (item_base o) (identity item scat))
                       (items p ++ equipped p) in
        match te with
        | Some te =>
            if negb (nonempty te)
               || str_in scat [py "other"; py "emote"; py "powerup"] then
              Returned (inform (py "unknownItemStatusE") warning (lang p)
                               [identity item scat])
            else
              match unequip_others (length (equipped p)) 0 te scat (lang p)
                                   (items p) (equipped p) [] with
              | (notes, Raise e) =>
                  Caught e (notes ++ inform (py "genericError") error (lang p)
                                            [py "equip"])
              | (notes, Ret (its, eqd)) =>
                  if str_in te its then
                    match list_remove te its with
                    | Raise e =>
                        Caught e (notes ++ inform (py "genericError") error
                                                  (lang p) [py "equip"])
                    | Ret its' =>
                        Saved (notes ++ inform (py "equipped") success
                                               (lang p) [te])
                              (Plr (spoints p) its' (eqd ++ [te]) (lang p)
                                   (allianceidref p) (pother p))
                              ad None
                    end
                  else
                    match list_remove te eqd with
                    | Raise e =>
                        Caught e (notes ++ inform (py "genericError") error
                                                  (lang p) [py "equip"])
                    | Ret eqd' =>
                        Saved (notes ++ inform (py "unequipped") success
                                               (lang p) [te])
                              (Plr (spoints p) (its ++ [te]) eqd' (lang p)
                                   (allianceidref p) (pother p))
                              ad None
                    end
              end
        | None =>
            Returned (inform (py "unknownItemStatusE") warning (lang p)
                             [identity item scat])
        end
    | _, _ =>
        Caught IndexError (inform (py "genericError") error (lang p)
                                  [py "equip"])
    end.

(** *** alliance create / alliance leave *)

Section Dispatcher.
(** [str.isalnum] and [str.lower] (Unicode tables of the interpreter). *)
Variable isalnum : pystr -> bool.
Variable lower : pystr -> pystr.
(** [randint n]: the n-th value [random.randint(0, 9)] yields during the
    command. *)
Variable randint : nat -> N.
(** The [galliances/] directory: alliance id to loaded document. *)
Variable alliances : pystr -> option alliance.

(** The n-th five-digit id the command draws. *)
Definition drawn_id (n : nat) : pystr :=
  str_of_int (Z.of_N (randint (5 * n)))
  ++ str_of_int (Z.of_N (randint (5 * n + 1)))
  ++ str_of_int (Z.of_N (randint (5 * n + 2)))
  ++ str_of_int (Z.of_N (randint (5 * n + 3)))
  ++ str_of_int (Z.of_N (randint (5 * n + 4))).

(** [while gdata.load(gdata.getpath('galliances/' + allianceid))]: redraw
    until no document answers.  [None] when [fuel] draws were all taken. *)
Fixpoint free_id (fuel n : nat) : option pystr :=
  match fuel with
  | O => None
  | S fuel' =>
      match alliances (drawn_id n) with
      | Some _ => free_id fuel' (S n)
      | None => Some (drawn_id n)
      end
  end.

Definition dict_pop {V} (d : list (pystr * V)) (k : pystr)
  : list (pystr * V) :=
  filter (fun kv => negb (pystr_eqb (fst kv) k)) d.

Definition ownercount (m : list (pystr * pystr)) : nat :=
  length (filter (fun kv => pystr_eqb (snd kv) (py "owner")) m).

Definition alliance_create (msg_splits : list pystr) (spid : pystr)
           (p : plrdata) (ad : option (pystr * alliance))
           (nlist : list pystr) (fuel : nat) : outcome :=
  match ad with
  | Some _ => Returned (inform (py "alreadyInAlliance") error (lang p) [])
  | None =>
      if (spoints p <? 1000)%Z then
        Returned (inform (py "insufficientFunds") error (lang p)
                         [str_of_int (1000 - spoints p)]
                  ++ inform (py "howToEarn") normal (lang p) [])
      else
        match nth_error msg_splits 2 with
        | None =>
            Caught IndexError (inform (py "genericError") error (lang p)
                                      [py "alliance"])
        | Some name =>
            if negb (isalnum name) || (3 <? length msg_splits) then
              Returned (inform (py "isNotAlnum") warning (lang p) [])
            else if 20 <=? length name then
              Returned (inform (py "tooLong") warning (lang p) [py "20"])
            else if str_in (lower name) nlist then
              Returned (inform (py "nameTaken") warning (lang p) [])
            else
              match free_id fuel 0 with
              | None => Spinning
              | Some allianceid =>
                  Saved (inform (py "allianceCreateSuccess") success
                                (lang p) [])
                        (Plr (spoints p - 1000) (items p) (equipped p)
                             (lang p) (Some allianceid) (pother p))
                        (Some (allianceid,
                               Alliance name [(spid, py "owner")]
                                        None false))
                        (Some (nlist ++ [lower name]))
              end
        end
  end.

Definition alliance_leave (spid : pystr) (p : plrdata)
           (ad : option (pystr * alliance)) (nlist : list pystr)
  : outcome :=
  match ad with
  | None => Returned (inform (py "notInAlliance") error (lang p) [])
  | Some (aid, a) =>
      match dict_get (members a) spid with
      | None =>
          Caught KeyError (inform (py "genericError") error (lang p)
                                  [py "alliance"])
      | Some rank =>
          if pystr_eqb rank (py "owner")
             && Nat.eqb (ownercount (members a)) 1 then
            Returned (inform (py "allianceOwnerCantLeave") error (lang p) [])
          else
            Saved (inform (py "allianceLeaveSuccessful") success (lang p) [])
                  (Plr (spoints p) (items p) (equipped p) (lang p) None
                       (pother p))
                  (Some (aid, Alliance (aname a) (dict_pop (members a) spid)
                                       (invref a) (public a)))
                  (Some nlist)
      end
  end.

Definition alliance_branch (msg_splits : list pystr) (spid : pystr)
           (p : plrdata) (ad : option (pystr * alliance))
           (nlist : list pystr) (fuel : nat) : outcome :=
  if Nat.eqb (length msg_splits) 1 then
    Returned (inform (py "allianceUsage") normal (lang p) [])
  else
    match nth_error msg_splits 1 with
    | None =>
        Caught IndexError (inform (py "genericError") error (lang p)
                                  [py "alliance"])
    | Some scommand =>
        if pystr_eqb scommand (py "create") then
          alliance_create msg_splits spid p ad nlist fuel
        else if pystr_eqb scommand (py "leave") then
          alliance_leave spid p ad nlist
        else Unmodelled
    end.

(** *** The dispatcher, for the two categories above *)

(** [msg[1:].split(' ')] with every empty piece removed. *)
Definition split_command (msg : pystr) : list pystr :=
  filter nonempty (split SPACE (tl msg)).

Definition startswith_slash (msg : pystr) : bool :=
  match msg with
  | c :: _ => N.eqb c SLASH
  | [] => false
  end.

(** [p] is the sender's document as loaded and completed by [sdpd],
    [nlist] the loaded [galliancenames] list (or the empty list). *)
Definition server_command (msg spid : pystr) (p : plrdata)
           (nlist : list pystr) (fuel : nat) : outcome :=
  if negb (startswith_slash msg) then NotCommand
  else
    let msg_splits := split_command msg in
    let cat := match msg_splits with [] => py "help" | c :: _ => c end in
    let run ad :=
      if pystr_eqb cat (py "equip") then equip_branch msg_splits p ad
      else if pystr_eqb cat (py "alliance") then
        alliance_branch msg_splits spid p ad nlist fuel
      else Unmodelled in
    if truthy (allianceidref p) then
      match allianceidref p with
      | Some ref =>
          match alliances ref with
          | Some a => run (Some (ref, a))
          | None => Uncaught AttributeError
          end
      | None => run None
      end
    else run None.
End Dispatcher.

(* ================================================================= *)
(** ** bascenev1/_dualteamsession.py: leaderboard and leagues *)

(** [dict(sorted(d.items(), key=lambda x: x[1], reverse=True))]: a stable
    sort by value, largest first. *)
Section SortedByValue.
Variable V : Type.
Variable leb : V -> V -> bool.

Fixpoint insert_desc (x : pystr * V) (l : list (pystr * V))
  : list (pystr * V) :=
  match l with
  | [] => [x]
  | y :: l' =>
      if leb (snd y) (snd x) then x :: y :: l' else y :: insert_desc x l'
  end.

Definition sorted_desc (l : list (pystr * V)) : list (pystr * V) :=
  fold_right insert_desc [] l.

(** [d.setdefault(k, v)] *)
Definition setdefault (d : list (pystr * V)) (k : pystr) (v : V)
  : list (pystr * V) :=
  match dict_get d k with
  | Some _ => d
  | None => d ++ [(k, v)]
  end.
End SortedByValue.

Definition Qltb (a b : Q) : bool := negb (Qle_bool b a).

Definition END : pystr := py "end".

(** [tl = list(topsdata.keys()); tl.remove('end'); tl[:3]] *)
Definition top_three (topsdata : list (pystr * Q)) : list pystr :=
  firstn 3 (match list_remove END (keys topsdata) with
            | Ret tl => tl
            | Raise _ => keys topsdata
            end).

(** The bonus of the y-th entry of the closing window. *)
Definition top_bonus (y : nat) : Z :=
  match y with
  | 0%nat => 10000%Z
  | 1%nat => 5000%Z
  | 2%nat => 2500%Z
  | _ => 0%Z
  end.

Fixpoint top_awards (y : nat) (tl : list pystr) : list (pystr * Z) :=
  match tl with
  | [] => []
  | toppid :: tl' => (toppid, top_bonus y) :: top_awards (S y) tl'
  end.

(** Lines 75-99: the new leaderboard document for the award of [spoints]
    to [pid] at clock reading [now], and the bonuses credited to player
    documents when the window closed. *)
Definition tops_update (now : Q) (spoints : Z) (pid : pystr)
           (loaded : list (pystr * Q))
  : list (pystr * Q) * list (pystr * Z) :=
  let topsdata := setdefault loaded END 0 in
  let closed :=
    match dict_get topsdata END with
    | Some e => Qltb e now
    | None => false
    end in
  let awards := if closed then top_awards 0 (top_three topsdata) else [] in
  let topsdata := if closed then [(END, now + 2592000)] else topsdata in
  let topsdata := setdefault topsdata pid 0 in
  let topsdata :=
    match dict_get topsdata pid with
    | Some v => dict_set topsdata pid (v + inject_Z spoints)
    | None => topsdata
    end in
  (sorted_desc Qle_bool topsdata, awards).

(** *** Leagues *)

Definition league := list (pystr * Z).

Record leaguesdata := Leagues { lend : Q; leagues : list league }.

(** The tier a player at 1-based position [lpi] of [tlp] in tier [l] is
    written to.  The quotient [lpi / tlp] is compared with one half. *)
Definition new_tier (l lpi tlp : nat) : nat :=
  let ratio := (inject_Z (Z.of_nat lpi) / inject_Z (Z.of_nat tlp))%Q in
  if negb (Nat.eqb l 0) && Qltb ratio (1 # 2) then l - 1
  else if negb (Nat.eqb l 5) && Qltb (1 # 2) ratio then l + 1
  else l.

(** [n[j][lplr] = 0]; [IndexError] when there is no tier [j]. *)
Fixpoint enter_tier (n : list league) (j : nat) (lplr : pystr)
  : exc (list league) :=
  match n, j with
  | [], _ => Raise IndexError
  | t :: n', O => Ret (dict_set t lplr 0%Z :: n')
  | t :: n', S j' => r <- enter_tier n' j' lplr ;; Ret (t :: r)
  end.

(** [for lpi, lplr in enumerate(lplrs, 1)] *)
Fixpoint place_players (l tlp lpi : nat) (lplrs : list pystr)
         (n : list league) : exc (list league) :=
  match lplrs with
  | [] => Ret n
  | lplr :: rest =>
      n' <- enter_tier n (new_tier l lpi tlp) lplr ;;
      place_players l tlp (S lpi) rest n'
  end.

(** [for l, league in enumerate(leaguesdata['leagues'])] *)
Fixpoint place_leagues (l : nat) (old : list league) (n : list league)
  : exc (list league) :=
  match old with
  | [] => Ret n
  | lg :: rest =>
      n' <- place_players l (length (keys lg)) 1 (keys lg) n ;;
      place_leagues (S l) rest n'
  end.

(** [n[5] = {}] on the six-tier list. *)
Fixpoint clear_tier (n : list league) (j : nat) : exc (list league) :=
  match n, j with
  | [], _ => Raise IndexError
  | _ :: n', O => Ret ([] :: n')
  | t :: n', S j' => r <- clear_tier n' j' ;; Ret (t :: r)
  end.

(** Lines 105-120: the document written when the weekly window closed. *)
Definition leagues_rollover (now : Q) (ld : leaguesdata) : exc leaguesdata :=
  n <- place_leagues 0 (leagues ld) (repeat [] 6) ;;
  n' <- clear_tier n 5 ;;
  Ret (Leagues (now + 604800) n').

(** Lines 121-125: the first tier listing [pid], tier 5 otherwise. *)
Fixpoint find_league (lei : nat) (ls : list league) (pid : pystr) : nat :=
  match ls with
  | [] => 5
  | lg :: rest =>
      if str_in pid (keys lg) then lei else find_league (S lei) rest pid
  end.

(** Lines 126-131 on tier [le]. *)
Fixpoint award_tier (ls : list league) (le : nat) (pid : pystr) (spoints : Z)
  : exc (list league) :=
  match ls, le with
  | [], _ => Raise IndexError
  | t :: ls', O =>
      let t1 := setdefault t pid 0%Z in
      let t2 := match dict_get t1 pid with
                | Some v => dict_set t1 pid (v + spoints)%Z
                | None => t1
                end in
      Ret (sorted_desc Z.leb t2 :: ls')
  | t :: ls', S le' => r <- award_tier ls' le' pid spoints ;; Ret (t :: r)
  end.

(** Lines 100-132: the document after the award of [spoints] to [pid]. *)
Definition leagues_update (now : Q) (spoints : Z) (pid : pystr)
           (ld : leaguesdata) : exc leaguesdata :=
  ld1 <- (if Qltb (lend ld) now then leagues_rollover now ld else Ret ld) ;;
  ls <- award_tier (leagues ld1) (find_league 0 (leagues ld1) pid) pid spoints ;;
  Ret (Leagues (lend ld1) ls).

(* ================================================================= *)
(** ** era/utils.py: rankint *)

(** The argument and the result of [rankint]: a number or a rank name. *)
Inductive rank_arg := RankInt (z : Z) | RankStr (s : pystr).

(** The [match] tries the four numbers, then the four names; the default
    case builds its message with [rank + ' is not a valid rank'], which
    raises [TypeError] for a number before [ValueError] can be raised. *)
Definition rankint (rank : rank_arg) : exc rank_arg :=
  match rank with
  | RankInt z =>
      if (z =? 3)%Z then Ret (RankStr (py "owner"))
      else if (z =? 2)%Z then Ret (RankStr (py "co-owner"))
      else if (z =? 1)%Z then Ret (RankStr (py "recruiter"))
      else if (z =? 0)%Z then Ret (RankStr (py "member"))
      else Raise TypeError
  | RankStr s =>
      if pystr_eqb s (py "owner") then Ret (RankInt 3)
      else if pystr_eqb s (py "co-owner") then Ret (RankInt 2)
      else if pystr_eqb s (py "recruiter") then Ret (RankInt 1)
      else if pystr_eqb s (py "member") then Ret (RankInt 0)
      else Raise ValueError
  end.

(** [rankint(name)] used as a number, [rankint(number)] stored as a name. *)
Definition rank_number (s : pystr) : exc Z :=
  r <- rankint (RankStr s) ;;
  match r with RankInt z => Ret z | RankStr _ => Raise TypeError end.

Definition rank_name (z : Z) : exc pystr :=
  r <- rankint (RankInt z) ;;
  match r with RankStr s => Ret s | RankInt _ => Raise TypeError end.

(* ================================================================= *)
(** ** bascenev1/_hooks.py: alliance promote / demote *)

(** What the [except (IndexError, ValueError, KeyError)] clause of the
    dispatcher makes of an exception. *)
Definition handled (lg : option pystr) (cat : pystr) (e : exn)
           (notes : list note) : outcome :=
  match e with
  | IndexError | ValueError | KeyError =>
      Caught e (notes ++ inform (py "genericError") error lg [cat])
  | _ => Uncaught e
  end.

(** [m[k]] on a dict, [k] possibly [None]. *)
Definition member_rank (m : list (pystr * pystr)) (k : option pystr)
  : exc pystr :=
  match k with
  | Some k' =>
      match dict_get m k' with
      | Some r => Ret r
      | None => Raise KeyError
      end
  | None => Raise KeyError
  end.

Section Ranks.
(** [int(s)] ([None] where Python raises [ValueError]). *)
Variable py_int : pystr -> option Z.

(** The target of kick, promote and demote: the member at the position
    [int(msg_splits[2])], or the id [msg_splits[2]] itself when it is not a
    number.  The argument is only looked at inside the loop over the
    members. *)
Definition target_of (msg_splits : list pystr) (m : list (pystr * pystr))
  : exc (option pystr) :=
  match m with
  | [] => Ret None
  | _ :: _ =>
      match nth_error msg_splits 2 with
      | None => Raise IndexError
      | Some arg =>
          match py_int arg with
          | None => Ret (Some arg)
          | Some z =>
              Ret (if (0 <=? z)%Z then nth_error (keys m) (Z.to_nat z)
                   else None)
          end
      end
  end.

Definition alliance_promote (msg_splits : list pystr) (spid : pystr)
           (p : plrdata) (ad : option (pystr * alliance))
           (nlist : list pystr) : outcome :=
  match ad with
  | None => Returned (inform (py "notInAlliance") error (lang p) [])
  | Some (aid, a) =>
      match dict_get (members a) spid with
      | None => handled (lang p) (py "alliance") KeyError []
      | Some mine =>
          if pystr_eqb mine (py "member") then
            Returned (inform (py "insufficientAllianceRank") error (lang p) [])
          else
            match
              (pid <- target_of msg_splits (members a) ;;
               rme <- rank_number mine ;;
               theirs <- member_rank (members a) pid ;;
               rt <- rank_number theirs ;;
               if (rme <=? rt)%Z then
                 Ret (Returned (inform (py "cantPromoteHigherThanSelf")
                                       warning (lang p) []))
               else
                 new <- rank_name (rt + 1) ;;
                 Ret (Saved (inform (py "alliancePromoteSuccess") success
                                    (lang p) [])
                            p
                            (Some (aid,
                                   Alliance (aname a)
                                     (match pid with
                                      | Some k => dict_set (members a) k new
                                      | None => members a
                                      end)
                                     (invref a) (public a)))
                            (Some nlist)))
            with
            | Ret o => o
            | Raise e => handled (lang p) (py "alliance") e []
            end
      end
  end.

Definition alliance_demote (msg_splits : list pystr) (spid : pystr)
           (p : plrdata) (ad : option (pystr * alliance))
           (nlist : list pystr) : outcome :=
  match ad with
  | None => Returned (inform (py "notInAlliance") error (lang p) [])
  | Some (aid, a) =>
      match dict_get (members a) spid with
      | None => handled (lang p) (py "alliance") KeyError []
      | Some mine =>
          if pystr_eqb mine (py "member") then
            Returned (inform (py "insufficientAllianceRank") error (lang p) [])
          else
            match
              (pid <- target_of msg_splits (members a) ;;
               rme <- rank_number mine ;;
               theirs <- member_rank (members a) pid ;;
               rt <- rank_number theirs ;;
               if (rme <=? rt)%Z
                  && negb (match pid with
                           | Some k => pystr_eqb spid k
                           | None => false
                           end) then
                 Ret (Returned (inform (py "cantDemoteHigherThanSelf")
                                       warning (lang p) []))
               else if pystr_eqb theirs (py "owner")
                       && Nat.eqb (ownercount (members a)) 1 then
                 Ret (Returned (inform (py "allianceOwnerCantBeDemoted")
                                       warning (lang p) []))
               else if pystr_eqb theirs (py "member") then
                 Ret (Returned (inform (py "alreadyLowestRank")
                                       warning (lang p) []))
               else
                 new <- rank_name (rt - 1) ;;
                 Ret (Saved (inform (py "allianceDemoteSuccess") success
                                    (lang p) [])
                            p
                            (Some (aid,
                                   Alliance (aname a)
                                     (match pid with
                                      | Some k => dict_set (members a) k new
                                      | None => members a
                                      end)
                                     (invref a) (public a)))
                            (Some nlist)))
            with
            | Ret o => o
            | Raise e => handled (lang p) (py "alliance") e []
            end
      end
  end.
End Ranks.

(* ================================================================= *)
(** ** bascenev1/_hooks.py: shop *)

(** Truthiness of a loaded value. *)
Definition json_truthy (v : json) : bool :=
  match v with
  | JNull => false
  | JBool b => b
  | JInt z => negb (z =? 0)%Z
  | JFloat q => negb (Qeq_bool q 0)
  | JStr s => nonempty s
  | JList l => match l with [] => false | _ => true end
  | JDict d => match d with [] => false | _ => true end
  end.

Definition NEWLINE : N := 10%N.
Definition GSHOP : pystr := py "gshop".

(** The hint sent after a purchase. *)
Definition purchase_hint (lg : option pystr) (item scat : pystr)
  : list note :=
  if pystr_eqb (identity item scat) (py "tag@other") then
    inform (py "tagUsage") normal lg []
  else if pystr_eqb (identity item scat) (py "wheel@other") then
    inform (py "wheelUsage") normal lg []
  else if pystr_eqb scat (py "emote") then
    inform (py "howToUse") normal lg [py "/emote " ++ item]
  else if pystr_eqb scat (py "powerup") then
    inform (py "howToUse") normal lg [py "/powerup " ++ item]
  else
    inform (py "howToUse") normal lg
           [py "/equip " ++ scat ++ SPACE :: item].

(** [nlist[item]['price']]: the price when it is a whole number. *)
Definition member_price (d : list (pystr * json)) (item : pystr)
  : exc (option Z) :=
  match dict_get d item with
  | None => Raise KeyError
  | Some entry =>
      price <- getitem entry (py "price") ;;
      match price with
      | JInt z => Ret (Some z)
      | _ => Ret None
      end
  end.

Section Shop.
Variable py_float : pystr -> option Q.
Variable now : Q.
(** The data directory the catalog is read from. *)
Variable fs : files.

(** The shop category.  A catalog that is not a dict of dicts with whole
    prices, and the raw price list of [/shop <category>], are outside the
    model. *)
Definition shop_branch (msg_splits : list pystr) (p : plrdata)
           (ad : option (pystr * alliance)) : outcome :=
  let sp := spoints p in
  if Nat.eqb (length msg_splits) 1 then
    match fst (load py_float now fs GSHOP [] false) with
    | Ret (JDict clist) =>
        Returned
          (inform (py "shopMain") normal (lang p)
                  [concat (map (fun i => i ++ [NEWLINE]) (keys clist))]
           ++ (if (0 <? sp)%Z
               then inform (py "amountOfSPoints") success (lang p)
                           [str_of_int sp]
               else inform (py "0SPoints") warning (lang p) []))
    | Ret JNull => Uncaught TypeError
    | Ret _ => Unmodelled
    | Raise e => handled (lang p) (py "shop") e []
    end
  else
    match nth_error msg_splits 1 with
    | None => handled (lang p) (py "shop") IndexError []
    | Some scat =>
        match fst (load py_float now fs GSHOP [scat] false) with
        | Raise e => handled (lang p) (py "shop") e []
        | Ret nlist =>
            if negb (json_truthy nlist) then
              Returned (inform (py "invalidShopCategory") error (lang p) [])
            else if Nat.eqb (length msg_splits) 2 then Unmodelled
            else if Nat.eqb (length msg_splits) 3 then
              match nlist, nth_error msg_splits 2 with
              | JDict d, Some item =>
                  if negb (dict_has d item) then
                    Returned (inform (py "invalidShopItem") error (lang p)
                                     [scat])
                  else if negb (str_in (identity item scat)
                                  (map item_base (items p ++ equipped p)))
                  then
                    match member_price d item with
                    | Raise e => handled (lang p) (py "shop") e []
                    | Ret None => Unmodelled
                    | Ret (Some price) =>
                        if (sp <? price)%Z then
                          Saved (inform (py "insufficientFunds") error
                                        (lang p) [str_of_int (price - sp)]
                                 ++ inform (py "howToEarn") normal (lang p) [])
                                p ad None
                        else
                          Saved (inform (py "successfulPurchase") success
                                        (lang p) [identity item scat]
                                 ++ purchase_hint (lang p) item scat)
                                (Plr (sp - price)
                                     (items p ++ [identity item scat])
                                     (equipped p) (lang p)
                                     (allianceidref p) (pother p))
                                ad None
                    end
                  else
                    Saved (inform (py "alreadyOwned") warning (lang p)
                                  [identity item scat])
                          p ad None
              | _, _ => Unmodelled
              end
            else Saved [] p ad None
        end
    end.
End Shop.

(* ================================================================= *)
(** ** bascenev1/_hooks.py: sdpd *)

(** The thirteen [setdefault] calls of [sdpd], in order. *)
Definition sdpd_defaults : list (pystr * json) :=
  [(py "upcodes", JList []); (py "spoints", JInt 0); (py "items", JList []);
   (py "equipped", JList []); (py "tag", JNull); (py "lang", JNull);
   (py "chaos", JInt 0); (py "luck", JInt 0); (py "charge", JInt 1);
   (py "allianceidref", JNull); (py "alliancetag", JNull);
   (py "toptag", JNull); (py "leaguetag", JNull)].

Definition sdpd (plrdata : list (pystr * json)) : list (pystr * json) :=
  fold_left (fun d kv => setdefault d (fst kv) (snd kv)) sdpd_defaults plrdata.

(* ================================================================= *)
(** ** bascenev1/_hooks.py: code promo *)

Definition GINFO : pystr := py "ginfo".

(** [x == pcode] for an element of a loaded list and a string. *)
Definition json_is_str (pcode : pystr) (x : json) : bool :=
  match x with
  | JStr s => pystr_eqb s pcode
  | _ => false
  end.

(** The values [for r in pval] visits: the elements of a list, the
    characters of a string, the keys of a dict; the other values are not
    iterable. *)
Definition iterate (pval : json) : option (list json) :=
  match pval with
  | JList l => Some l
  | JStr s => Some (map (fun c => JStr [c]) s)
  | JDict d => Some (map JStr (keys d))
  | _ => None
  end.

Section Codes.
Variable py_float : pystr -> option Q.
(** [str(x)] for a float. *)
Variable str_of_float : Q -> pystr.
Variable now : Q.
Variable fs : files.

(** The points reward of the loop body; [isinstance(r, int)] holds for
    [True] and [False] too. *)
Definition points_reward (z : Z) (shown : pystr) (p : plrdata)
           (notes : list note) : list note * exc plrdata :=
  (notes ++ inform (py "successfulCodeRegister") success (lang p)
                   [shown ++ py " SPoints"],
   Ret (Plr (spoints p + z) (items p) (equipped p) (lang p)
            (allianceidref p) (pother p))).

(** One turn of [for r in pval], with the notes sent so far. *)
Definition reward (r : json) (p : plrdata) (notes : list note)
  : list note * exc plrdata :=
  match r with
  | JInt z => points_reward z (str_of_int z) p notes
  | JBool true => points_reward 1 (py "True") p notes
  | JBool false => points_reward 0 (py "False") p notes
  | JStr s =>
      let rs := split SEP s in
      let base := nth 0 rs [] in
      if str_in base (map item_base (items p ++ equipped p)) then
        (notes ++ inform (py "alreadyOwned") warning (lang p) [base], Ret p)
      else
        match (if Nat.eqb (length rs) 2 then
                 match py_float (nth 1 rs []) with
                 | Some f => Ret (base ++ SEP :: str_of_float (now + f))
                 | None => Raise ValueError
                 end
               else Ret base) with
        | Raise e => (notes, Raise e)
        | Ret nr =>
            (notes ++ inform (py "successfulCodeRegister") success (lang p)
                             [nr],
             Ret (Plr (spoints p) (items p ++ [nr]) (equipped p) (lang p)
                      (allianceidref p) (pother p)))
        end
  | _ => (notes, Raise AttributeError)
  end.

Fixpoint rewards (pval : list json) (p : plrdata) (notes : list note)
  : list note * exc plrdata :=
  match pval with
  | [] => (notes, Ret p)
  | r :: rest =>
      match reward r p notes with
      | (notes', Ret p') => rewards rest p' notes'
      | (notes', Raise e) => (notes', Raise e)
      end
  end.

(** The code category.  [/code purchase] and a stored [upcodes] that is not
    a list are outside the model. *)
Definition code_branch (msg_splits : list pystr) (p : plrdata)
           (ad : option (pystr * alliance)) : outcome :=
  if Nat.eqb (length msg_splits) 1 then
    Returned (inform (py "codeUsage") normal (lang p) [])
  else
    match nth_error msg_splits 1 with
    | None => handled (lang p) (py "code") IndexError []
    | Some scommand =>
        if pystr_eqb scommand (py "promo") then
          match nth_error msg_splits 2 with
          | None => handled (lang p) (py "code") IndexError []
          | Some pcode =>
              match fst (load py_float now fs GINFO [py "pcodes"; pcode]
                              false) with
              | Raise e => handled (lang p) (py "code") e []
              | Ret pval =>
                  if json_truthy pval then
                    match dict_get (pother p) (py "upcodes") with
                    | None => handled (lang p) (py "code") KeyError []
                    | Some (JList ups) =>
                        if negb (existsb (json_is_str pcode) ups) then
                          let p1 :=
                            Plr (spoints p) (items p) (equipped p) (lang p)
                                (allianceidref p)
                                (dict_set (pother p) (py "upcodes")
                                          (JList (ups ++ [JStr pcode]))) in
                          match iterate pval with
                          | None => Uncaught TypeError
                          | Some rs =>
                              match rewards rs p1 [] with
                              | (notes, Ret p') => Saved notes p' ad None
                              | (notes, Raise e) =>
                                  handled (lang p) (py "code") e notes
                              end
                          end
                        else
                          Saved (inform (py "usedCode") error (lang p) [])
                                p ad None
                    | Some _ => Unmodelled
                    end
                  else
                    Saved (inform (py "usedCode") error (lang p) [])
                          p ad None
              end
          end
        else if pystr_eqb scommand (py "purchase") then Unmodelled
        else Saved [] p ad None
    end.
End Codes.

(* ================================================================= *)
(** ** bascenev1/_hooks.py: wheel upgrades *)

(** The body shared by [luck], [chaos] and [charge]: a level below three is
    raised by one for five points.  A stored level that is not a whole
    number is outside the model. *)
Definition wheel_upgrade (key raised maxed : pystr) (p : plrdata)
           (ad : option (pystr * alliance)) : outcome :=
  match dict_get (pother p) key with
  | None => handled (lang p) (py "wheel") KeyError []
  | Some (JInt lvl) =>
      if (lvl <? 3)%Z then
        if (5 <=? spoints p)%Z then
          Saved (inform raised success (lang p)
                        [str_of_int (3 - (lvl + 1))])
                (Plr (spoints p - 5) (items p) (equipped p) (lang p)
                     (allianceidref p)
                     (dict_set (pother p) key (JInt (lvl + 1))))
                ad None
        else
          Saved (inform (py "insufficientFunds") error (lang p)
                        [str_of_int (5 - spoints p)]
                 ++ inform (py "howToEarn") normal (lang p) [])
                p ad None
      else Saved (inform maxed error (lang p) []) p ad None
  | Some _ => Unmodelled
  end.

(** The wheel category; [allow_chaotic_commands] is the server's setting.
    The spin itself acts on the running game and is outside the model. *)
Definition wheel_branch (allow_chaotic_commands : bool)
           (msg_splits : list pystr) (p : plrdata)
           (ad : option (pystr * alliance)) : outcome :=
  if Nat.eqb (length msg_splits) 1 then
    Returned (inform (py "wheelUsage") normal (lang p) [])
  else if negb allow_chaotic_commands then
    Returned (inform (py "chaosDisabled") normal (lang p) [])
  else if negb (str_in (py "wheel@other") (map item_base (items p))) then
    Returned (inform (py "wheelNotOwned") normal (lang p) []
              ++ inform (py "purchaseGuide") normal (lang p)
                        [py "other"; py "wheel"])
  else
    match nth_error msg_splits 1 with
    | None => handled (lang p) (py "wheel") IndexError []
    | Some action =>
        if pystr_eqb action (py "luck") then
          wheel_upgrade (py "luck") (py "wheelLuckIncrease")
                        (py "maxWheelLuck") p ad
        else if pystr_eqb action (py "chaos") then
          wheel_upgrade (py "chaos") (py "wheelChaosIncrease")
                        (py "maxWheelChaos") p ad
        else if pystr_eqb action (py "charge") then
          wheel_upgrade (py "charge") (py "wheelCharged")
                        (py "maxWheelCharge") p ad
        else if pystr_eqb action (py "spin") then Unmodelled
        else Saved [] p ad None
    end.

(* ================================================================= *)
(** ** bascenev1/_freeforallsession.py: get_ffa_point_awards *)

(** The awards by rank; [spl or self.sessionplayers] takes the session's
    players when [spl] is [None] or empty. *)
Definition get_ffa_point_awards {A} (sessionplayers : list A)
           (spl : option (list A)) : list (nat * Z) :=
  let spld := match spl with
              | Some (x :: l) => x :: l
              | _ => sessionplayers
              end in
  match length spld with
  | 1%nat => []
  | 2%nat => [(0%nat, 6%Z)]
  | 3%nat => [(0%nat, 6%Z); (1%nat, 3%Z)]
  | 4%nat => [(0%nat, 8%Z); (1%nat, 4%Z); (2%nat, 2%Z)]
  | 5%nat => [(0%nat, 8%Z); (1%nat, 4%Z); (2%nat, 2%Z)]
  | 6%nat => [(0%nat, 8%Z); (1%nat, 4%Z); (2%nat, 2%Z)]
  | _ => [(0%nat, 8%Z); (1%nat, 4%Z); (2%nat, 2%Z); (3%nat, 1%Z)]
  end.

(** Line 105: [spoint_award[i] * 2 if i in spoint_award else 0]. *)
Definition ffa_spoints {A} (sessionplayers cidl : list A) (i : nat) : Z :=
  match find (fun kv => Nat.eqb (fst kv) i)
             (get_ffa_point_awards sessionplayers (Some cidl)) with
  | Some kv => (snd kv * 2)%Z
  | None => 0%Z
  end.

(* ================================================================= *)
(** ** bascenev1/_hooks.py: the player document between two commands *)

Definition json_of_opt (o : option pystr) : json :=
  match o with
  | Some s => JStr s
  | None => JNull
  end.

(** The document [gdata.write(plrdatapath, plrdata)] stores for a player
    record (line 1388). *)
Definition plr_doc (p : plrdata) : list (pystr * json) :=
  [(py "spoints", JInt (spoints p));
   (py "items", JList (map JStr (items p)));
   (py "equipped", JList (map JStr (equipped p)));
   (py "lang", json_of_opt (lang p));
   (py "allianceidref", json_of_opt (allianceidref p))]
  ++ pother p.

Fixpoint strings_of (l : list json) : option (list pystr) :=
  match l with
  | [] => Some []
  | JStr s :: l' =>
      match strings_of l' with
      | Some r => Some (s :: r)
      | None => None
      end
  | _ => None
  end.

Definition opt_of_json (v : json) : option (option pystr) :=
  match v with
  | JNull => Some None
  | JStr s => Some (Some s)
  | _ => None
  end.

Definition PLR_FIELDS : list pystr :=
  [py "spoints"; py "items"; py "equipped"; py "lang"; py "allianceidref"].

(** The player record of a loaded document; a document whose points are
    not a whole number, whose items are not strings or whose language or
    alliance reference is neither a string nor [None] is outside the
    model. *)
Definition doc_plr (d : list (pystr * json)) : option plrdata :=
  match dict_get d (py "spoints"), dict_get d (py "items"),
        dict_get d (py "equipped"), dict_get d (py "lang"),
        dict_get d (py "allianceidref") with
  | Some (JInt z), Some (JList its), Some (JList eqd), Some lg, Some ar =>
      match strings_of its, strings_of eqd, opt_of_json lg,
            opt_of_json ar with
      | Some its', Some eqd', Some lg', Some ar' =>
          Some (Plr z its' eqd' lg' ar'
                    (filter (fun kv => negb (str_in (fst kv) PLR_FIELDS)) d))
      | _, _, _, _ => None
      end
  | _, _, _, _, _ => None
  end.

(** Lines 233-235: [plrdata = gdata.load(plrdatapath) or {}] and
    [sdpd(plrdata)], with the file system the normalizing load leaves. *)
Definition player_prologue (py_float : pystr -> option Q) (now : Q)
           (fs : files) (plrdatapath : pystr)
  : exc (option plrdata) * files :=
  match load py_float now fs plrdatapath [] true with
  | (Raise e, fs') => (Raise e, fs')
  | (Ret v, fs') =>
      if json_truthy v then
        match v with
        | JDict d => (Ret (doc_plr (sdpd d)), fs')
        | _ => (Raise AttributeError, fs')
        end
      else (Ret (doc_plr (sdpd [])), fs')
  end.

(** A sample [float]: unsigned decimal integers only.  The theorems hold
    for every [py_float]; this one instantiates them on concrete inputs. *)
Fixpoint digits_value (acc : Z) (s : pystr) : option Z :=
  match s with
  | [] => Some acc
  | c :: s' =>
      if (48 <=? c)%N && (c <=? 57)%N
      then digits_value (10 * acc + Z.of_N (c - 48)) s'
      else None
  end.

Definition decimal_float (s : pystr) : option Q :=
  match s with
  | [] => None
  | _ => option_map inject_Z (digits_value 0 s)
  end.

(** ASCII instances of [str.isalnum] and [str.lower], for the same use. *)
Definition ascii_isalnum (s : pystr) : bool :=
  nonempty s
  && forallb (fun c => ((48 <=? c) && (c <=? 57)
                        || (65 <=? c) && (c <=? 90)
                        || (97 <=? c) && (c <=? 122))%N) s.

Definition ascii_lower (s : pystr) : pystr :=
  map (fun c => if ((65 <=? c) && (c <=? 90))%N then (c + 32)%N else c) s.

(** Sample surroundings for concrete runs of the dispatcher. *)
Definition no_alliances : pystr -> option alliance := fun _ => None.

Definition one_alliance (ref : pystr) (a : alliance)
  : pystr -> option alliance :=
  fun r => if pystr_eqb r ref then Some a else None.

Definition zeros : nat -> N := fun _ => 0%N.

(* ================================================================= *)
(** ** Vocabulary of the statements *)

(** Values the dispatch of [_update] hands back as they are. *)
Definition atomic (v : json) : bool :=
  match v with
  | JStr _ | JList _ | JDict _ => false
  | _ => true
  end.

(** [holds_str s a]: the string [s] is a value of [a]: [a] itself, a list
    element or a dict value, at any depth. *)
Inductive holds_str (s : pystr) : json -> Prop :=
| holds_here : holds_str s (JStr s)
| holds_elem l e : In e l -> holds_str s e -> holds_str s (JList l)
| holds_value d k v : In (k, v) d -> holds_str s v -> holds_str s (JDict d).

(** [missing_key a args]: drilling [args] into [a] walks through dicts and
    reaches one that lacks the requested key. *)
Inductive missing_key : json -> list pystr -> Prop :=
| missing_here d x rest :
    dict_get d x = None -> missing_key (JDict d) (x :: rest)
| missing_below d x v rest :
    dict_get d x = Some v -> missing_key v rest ->
    missing_key (JDict d) (x :: rest).

(** [key_absent a args]: the reading of a missing key that asks nothing of
    the values on the way: after walking through dicts, the next key is
    requested of a value that holds no entry for it, a dict without the key
    or a value that is no dict at all. *)
Inductive key_absent : json -> list pystr -> Prop :=
| absent_here a x rest :
    match a with JDict d => dict_get d x = None | _ => True end ->
    key_absent a (x :: rest)
| absent_below d x v rest :
    dict_get d x = Some v -> key_absent v rest ->
    key_absent (JDict d) (x :: rest).

(** A value the normalizer hands back as it is, and keeps in a container. *)
Definition settled (py_float : pystr -> option Q) (now : Q) (v : json) : Prop :=
  _update py_float now v = Ret v /\ is_null v = false.

(** [of_category scat i]: the test of the equip loop, [scat] is the
    category of the equipped entry [i]. *)
Definition of_category (scat i : pystr) : bool :=
  match item_category i with
  | Ret c => pystr_eqb scat c
  | Raise _ => false
  end.

(** An entry of the form [name@category...]. *)
Definition has_category (i : pystr) : Prop :=
  exists c, item_category i = Ret c.

(** [ends_with suf s]: the string [s] ends in [suf]. *)
Fixpoint ends_with (suf s : pystr) : bool :=
  pystr_eqb s suf
  || match s with
     | [] => false
     | _ :: s' => ends_with suf s'
     end.

(** [in_category scat i]: the identity string of the entry [i] ends in
    ['@' + scat]; these are the entries an [/equip scat ...] command can
    name. *)
Definition in_category (scat i : pystr) : bool :=
  ends_with (AT :: scat) (item_base i).

(** The identity string of [i] is [name@category], with a single ['@']. *)
Definition one_at (i : pystr) : Prop :=
  exists name c, item_base i = name ++ AT :: c /\ ~ In AT name /\ ~ In AT c.

(** The entry the equip command picks for [item] and [scat]. *)
Definition entry_for (item scat : pystr) (p : plrdata) : option pystr :=
  find (fun o => pystr_eqb (item_base o) (identity item scat))
       (items p ++ equipped p).

(** The equipped entries the loop is to move back: another entry of the
    category. *)
Definition displaced (te scat i : pystr) : bool :=
  negb (pystr_eqb te i) && of_category scat i.

(** The leaderboard proper: the values of the entries other than [end],
    in document order. *)
Definition board (topsdata : list (pystr * Q)) : list Q :=
  map snd (filter (fun kv => negb (pystr_eqb (fst kv) END)) topsdata).

(** Each value is at most the one before it. *)
Fixpoint descending (l : list Q) : Prop :=
  match l with
  | x :: (y :: _) as l' => y <= x /\ descending l'
  | _ => True
  end.

(** Each value is below the one before it. *)
Fixpoint strictly_descending (l : list Q) : Prop :=
  match l with
  | x :: (y :: _) as l' => y < x /\ strictly_descending l'
  | _ => True
  end.

(** The player ids of tier [j], in rank order. *)
Definition tier (ls : list league) (j : nat) : list pystr :=
  keys (nth j ls []).

(** C4 as the claim words it, with tier 0 the highest and rank 1 the first
    key of a tier: the bottom half of every tier but tier 0 is found one
    tier down, the top half of every tier but tier 5 one tier up, tier 5 is
    empty and no id is in two tiers. *)
Definition claimed_rollover (old new : list league) : Prop :=
  length new = 6%nat /\
  (forall l k q, l <> 0%nat -> nth_error (tier old l) k = Some q ->
                 (length (tier old l) < 2 * S k)%nat ->
                 In q (tier new (l + 1))) /\
  (forall l k q, l <> 5%nat -> nth_error (tier old l) k = Some q ->
                 (2 * S k <= length (tier old l))%nat ->
                 In q (tier new (l - 1))) /\
  tier new 5 = [] /\
  (forall j j' q, In q (tier new j) -> In q (tier new j') -> j = j').

(** [a] ranks at least as high as [b]. *)
Definition above (a b : pystr * Q) : Prop := snd b <= snd a.

(** A string the normalizer keeps: it has no separator, or its deadline
    parses and has not passed. *)
Definition live (py_float : pystr -> option Q) (now : Q) (s : pystr) : Prop :=
  length (split SEP s) = 1%nat \/
  exists deadline,
    py_float (nth 1 (split SEP s) []) = Some deadline /\ now <= deadline.

(** A document with nothing left to purge: every string value is live, no
    list element or dict value is [None], and dict keys are distinct. *)
Unset Elimination Schemes.
Inductive clean (py_float : pystr -> option Q) (now : Q) : json -> Prop :=
| clean_atomic v : atomic v = true -> clean py_float now v
| clean_str s : live py_float now s -> clean py_float now (JStr s)
| clean_list l :
    Forall (clean py_float now) l ->
    Forall (fun e => is_null e = false) l ->
    clean py_float now (JList l)
| clean_dict d :
    NoDup (keys d) ->
    Forall (clean py_float now) (map snd d) ->
    Forall (fun e => is_null e = false) (map snd d) ->
    clean py_float now (JDict d).
Set Elimination Schemes.

(** [blocked a args]: drilling [args] into [a] walks through dicts and
    reaches a value that is not a dict while keys remain. *)
Inductive blocked : json -> list pystr -> Prop :=
| blocked_here v x rest :
    (forall d, v <> JDict d) -> blocked v (x :: rest)
| blocked_below d x v rest :
    dict_get d x = Some v -> blocked v rest ->
    blocked (JDict d) (x :: rest).

(** Dict keys are distinct at every depth, as in any parsed document. *)
Unset Elimination Schemes.
Inductive distinct_keys : json -> Prop :=
| distinct_atomic v : atomic v = true -> distinct_keys v
| distinct_str s : distinct_keys (JStr s)
| distinct_list l : Forall distinct_keys l -> distinct_keys (JList l)
| distinct_dict d :
    NoDup (keys d) -> Forall distinct_keys (map snd d) ->
    distinct_keys (JDict d).
Set Elimination Schemes.

(** The four rank names, lowest first. *)
Definition RANKS : list pystr :=
  [py "member"; py "recruiter"; py "co-owner"; py "owner"].

(** 1 for an owner, 0 for any other rank. *)
Definition is_owner (r : pystr) : nat :=
  if pystr_eqb r (py "owner") then 1%nat else 0%nat.

(** A sample [int]: unsigned decimal integers only. *)
Definition decimal_int (s : pystr) : option Z :=
  match s with
  | [] => None
  | _ => digits_value 0 s
  end.

(** A sample catalog: one hat at 50 points. *)
Definition sample_shop : files :=
  write (fun _ => None) GSHOP
        (JDict [(py "hat", JDict [(py "cap", JDict [(py "price", JInt 50)])])]).

(** A well-formed ladder: six tiers, distinct ids within a tier, and no id
    in two tiers. *)
Definition ladder (ls : list league) : Prop :=
  length ls = 6%nat /\
  (forall l, NoDup (tier ls l)) /\
  (forall l l' q, In q (tier ls l) -> In q (tier ls l') -> l = l').

(** The points [q] has in tier [i], if listed there. *)
Definition points_in (ls : list league) (i : nat) (q : pystr) : option Z :=
  dict_get (nth i ls []) q.

(** A ladder with three listed players. *)
Definition sample_ladder : list league :=
  [[(py "a", 9%Z); (py "b", 4%Z)]; []; [(py "c", 7%Z)]; []; []; []].

(** A sample [str] of a float: whole values only. *)
Definition whole_float_str (q : Q) : pystr :=
  str_of_int (Qnum q / Z.pos (Qden q))%Z ++ py ".0".

(** A data directory whose only file lists one promo code. *)
Definition sample_ginfo : files :=
  write (fun _ => None) GINFO
    (JDict [(py "pcodes",
             JDict [(py "WELCOME", JList [JInt 50; JStr (py "cap@hat")])])]).

(** The stored wheel level under [key], zero when it is not a whole
    number. *)
Definition wheel_level (p : plrdata) (key : pystr) : Z :=
  match dict_get (pother p) key with
  | Some (JInt z) => z
  | _ => 0%Z
  end.

(** The three wheel levels together. *)
Definition wheel_levels (p : plrdata) : Z :=
  (wheel_level p (py "luck") + wheel_level p (py "chaos")
   + wheel_level p (py "charge"))%Z.

(** Words written one after the other, each followed by one space and as
    many more as its number says, the last one by none. *)
Fixpoint spaced (ws : list (pystr * nat)) : pystr :=
  match ws with
  | [] => []
  | (w, k) :: rest =>
      match rest with
      | [] => w
      | _ => w ++ SPACE :: repeat SPACE k ++ spaced rest
      end
  end.

(* ================================================================= *)
(** * Properties *)

Unset Implicit Arguments.

(** ** Strings and dicts *)

Lemma pystr_eqb_eq a b : pystr_eqb a b = true <-> a = b.
Proof.
  revert b; induction a as [|x a IH]; intros [|y b]; simpl;
    try (split; [discriminate | discriminate]); try tauto.
  rewrite andb_true_iff, N.eqb_eq, IH.
  split; [intros [-> ->]; reflexivity | intros H; inversion H; auto].
Qed.

Lemma pystr_eqb_refl a : pystr_eqb a a = true.
Proof. apply pystr_eqb_eq; reflexivity. Qed.

Lemma pystr_eqb_neq a b : pystr_eqb a b = false <-> a <> b.
Proof.
  rewrite <- pystr_eqb_eq. destruct (pystr_eqb a b); split; congruence.
Qed.

Lemma pystr_eqb_sym a b : pystr_eqb a b = pystr_eqb b a.
Proof.
  destruct (pystr_eqb a b) eqn:E.
  - apply pystr_eqb_eq in E; subst; symmetry; apply pystr_eqb_refl.
  - symmetry; apply pystr_eqb_neq; apply pystr_eqb_neq in E; congruence.
Qed.

Lemma str_in_In x l : str_in x l = true <-> In x l.
Proof.
  unfold str_in; rewrite existsb_exists; split.
  - intros (y & Hy & E); apply pystr_eqb_eq in E; subst; exact Hy.
  - intros H; exists x; split; [exact H | apply pystr_eqb_refl].
Qed.

Lemma str_in_not_In x l : str_in x l = false <-> ~ In x l.
Proof.
  rewrite <- str_in_In; destruct (str_in x l); split; congruence.
Qed.

Lemma split_nonempty c s : split c s <> [].
Proof.
  destruct s as [|a s]; simpl; [discriminate|].
  destruct (N.eqb a c); [discriminate|].
  destruct (split c s); discriminate.
Qed.

Lemma split_no_sep c s : ~ In c s -> split c s = [s].
Proof.
  induction s as [|a s IH]; simpl; intros H; [reflexivity|].
  destruct (N.eqb_spec a c) as [->|Hne]; [exfalso; apply H; now left|].
  rewrite IH; [reflexivity | intros Hin; apply H; now right].
Qed.

Lemma split_at_first c x d :
  ~ In c x -> split c (x ++ c :: d) = x :: split c d.
Proof.
  induction x as [|a x IH]; simpl; intros H.
  - rewrite N.eqb_refl; reflexivity.
  - destruct (N.eqb_spec a c) as [->|Hne]; [exfalso; apply H; now left|].
    rewrite IH; [reflexivity | intros Hin; apply H; now right].
Qed.

Lemma dict_get_set V (d : list (pystr * V)) k v k' :
  dict_get (dict_set d k v) k' =
  if pystr_eqb k' k then Some v else dict_get d k'.
Proof.
  induction d as [|[k0 v0] d IH]; simpl.
  - destruct (pystr_eqb k' k); reflexivity.
  - destruct (pystr_eqb k k0) eqn:E; simpl.
    + apply pystr_eqb_eq in E; subst k0.
      destruct (pystr_eqb k' k); reflexivity.
    + rewrite IH. destruct (pystr_eqb k' k0) eqn:E0; [|reflexivity].
      apply pystr_eqb_eq in E0; subst k0.
      rewrite pystr_eqb_sym, E; reflexivity.
Qed.

Lemma dict_get_None V (d : list (pystr * V)) k :
  dict_get d k = None <-> ~ In k (keys d).
Proof.
  induction d as [|[k0 v0] d IH]; simpl; [tauto|].
  destruct (pystr_eqb k k0) eqn:E.
  - apply pystr_eqb_eq in E; subst; split; [discriminate | intros H; tauto].
  - apply pystr_eqb_neq in E. rewrite IH; intuition congruence.
Qed.

Lemma dict_set_fresh V (d : list (pystr * V)) k v :
  ~ In k (keys d) -> dict_set d k v = d ++ [(k, v)].
Proof.
  induction d as [|[k0 v0] d IH]; simpl; intros H; [reflexivity|].
  destruct (pystr_eqb k k0) eqn:E.
  - apply pystr_eqb_eq in E; subst; tauto.
  - rewrite IH; [reflexivity | tauto].
Qed.

Lemma keys_dict_set V (d : list (pystr * V)) k v q :
  In q (keys (dict_set d k v)) <-> In q (keys d) \/ q = k.
Proof.
  induction d as [|[k0 v0] d IH]; simpl; [intuition congruence|].
  destruct (pystr_eqb k k0) eqn:E; simpl.
  - apply pystr_eqb_eq in E; subst; intuition congruence.
  - rewrite IH; tauto.
Qed.

Lemma keys_dict_set_NoDup V (d : list (pystr * V)) k v :
  NoDup (keys d) -> NoDup (keys (dict_set d k v)).
Proof.
  induction d as [|[k0 v0] d IH]; simpl; intros H.
  - constructor; [intros [] | constructor].
  - inversion H as [|? ? Hn Hd]; subst.
    destruct (pystr_eqb k k0) eqn:E; simpl.
    + constructor; assumption.
    + constructor; [|apply IH; assumption].
      intros Hin; apply keys_dict_set in Hin as [Hin| ->]; [tauto|].
      rewrite pystr_eqb_refl in E; discriminate.
Qed.

Lemma Qgtb_true a b : Qgtb a b = true <-> b < a.
Proof.
  unfold Qgtb; rewrite negb_true_iff.
  destruct (Qle_bool a b) eqn:E.
  - apply Qle_bool_iff in E; split; [discriminate|].
    intros H; exfalso; apply (Qlt_not_le _ _ H E).
  - split; [intros _|reflexivity].
    apply Qnot_le_lt; intros H; apply Qle_bool_iff in H; congruence.
Qed.

Lemma Qgtb_false a b : Qgtb a b = false <-> a <= b.
Proof.
  unfold Qgtb; rewrite negb_false_iff; apply Qle_bool_iff.
Qed.

(* ================================================================= *)
(** ** The expiry normalizer *)

Section NormalizerFacts.
Variable py_float : pystr -> option Q.
Variable now : Q.

Local Notation "'upd'" := (_update py_float now).
Local Notation "'upd_str'" := (_update_str py_float now).
Local Notation "'upd_list'" := (_update_list py_float now).
Local Notation "'upd_dict'" := (_update_dict py_float now).

Lemma update_str_plain s : ~ In SEP s -> upd_str s = Ret (JStr s).
Proof.
  intros H; unfold _update_str; rewrite (split_no_sep _ _ H); reflexivity.
Qed.

Lemma update_str_expiring x d deadline :
  ~ In SEP x -> ~ In SEP d -> py_float d = Some deadline ->
  upd_str (x ++ SEP :: d) =
  Ret (if Qgtb now deadline then JNull else JStr (x ++ SEP :: d)).
Proof.
  intros Hx Hd Hf; unfold _update_str.
  rewrite (split_at_first _ _ _ Hx), (split_no_sep _ _ Hd); simpl.
  rewrite Hf; reflexivity.
Qed.

(** The accumulator of the list loop is a prefix of its result. *)
Lemma list_loop_acc f l acc :
  _update_list_loop f l acc =
  (r <- _update_list_loop f l [] ;; Ret (acc ++ r)).
Proof.
  revert acc; induction l as [|e l IH]; intros acc; simpl.
  - rewrite app_nil_r; reflexivity.
  - destruct (f e) as [e'|x]; simpl; [|reflexivity].
    rewrite (IH (if is_null e' then acc else acc ++ [e'])),
      (IH (if is_null e' then [] else [e'])).
    destruct (_update_list_loop f l []) as [r|x]; simpl; [|reflexivity].
    destruct (is_null e'); simpl; [reflexivity|].
    rewrite <- app_assoc; reflexivity.
Qed.

Lemma list_loop_app f l1 l2 acc :
  _update_list_loop f (l1 ++ l2) acc =
  (r <- _update_list_loop f l1 acc ;; _update_list_loop f l2 r).
Proof.
  revert acc; induction l1 as [|e l1 IH]; intros acc; simpl; [reflexivity|].
  destruct (f e) as [e'|x]; simpl; [apply IH | reflexivity].
Qed.

Lemma update_list_insert l1 l2 r1 r2 e e' :
  upd_list l1 = Ret r1 -> upd_list l2 = Ret r2 -> upd e = Ret e' ->
  upd_list (l1 ++ e :: l2) =
  Ret (r1 ++ (if is_null e' then [] else [e']) ++ r2).
Proof.
  unfold _update_list; intros H1 H2 He.
  rewrite list_loop_app, H1; simpl; rewrite He; simpl.
  rewrite list_loop_acc, H2; simpl.
  destruct (is_null e'); simpl; [reflexivity|].
  rewrite <- app_assoc; reflexivity.
Qed.

(** With distinct keys, each key of the result comes from its own entry. *)
Lemma dict_loop_get f d acc r :
  NoDup (keys d) -> _update_dict_loop f d acc = Ret r ->
  forall k,
    (~ In k (keys d) -> dict_get r k = dict_get acc k) /\
    (forall v, In (k, v) d ->
       exists v', f v = Ret v' /\
         dict_get r k = if is_null v' then dict_get acc k else Some v').
Proof.
  revert acc; induction d as [|[k0 v0] d IH]; intros acc Hnd Hr k; simpl in *.
  - inversion Hr; subst; split; [reflexivity | intros v []].
  - inversion Hnd as [|? ? Hn Hd]; subst.
    destruct (f v0) as [v0'|x] eqn:E0; simpl in Hr; [|discriminate].
    destruct (IH _ Hd Hr k) as [IH1 IH2]; split.
    + intros Hk; rewrite IH1 by tauto.
      destruct (is_null v0'); [reflexivity|].
      rewrite dict_get_set.
      destruct (pystr_eqb k k0) eqn:E; [|reflexivity].
      apply pystr_eqb_eq in E; subst; tauto.
    + intros v [Heq|Hin].
      * inversion Heq; subst k0 v0; exists v0'; split; [exact E0|].
        rewrite IH1 by exact Hn.
        destruct (is_null v0'); [reflexivity|].
        rewrite dict_get_set, pystr_eqb_refl; reflexivity.
      * destruct (IH2 v Hin) as (v' & Hv' & Hg); exists v'; split; [exact Hv'|].
        rewrite Hg. destruct (is_null v'); [|reflexivity].
        destruct (is_null v0'); [reflexivity|].
        rewrite dict_get_set.
        destruct (pystr_eqb k k0) eqn:E; [|reflexivity].
        apply pystr_eqb_eq in E; subst k0.
        exfalso; apply Hn; change k with (fst (k, v)); apply in_map; exact Hin.
Qed.


(** *** Idempotence *)

Local Notation "'settled'" := (settled py_float now).

Lemma list_loop_settled r acc :
  Forall settled r -> _update_list_loop upd r acc = Ret (acc ++ r).
Proof.
  intros H; revert acc; induction H as [|e r [He Hn] _ IH]; intros acc; simpl.
  - rewrite app_nil_r; reflexivity.
  - rewrite He; simpl; rewrite Hn, IH, <- app_assoc; reflexivity.
Qed.

Lemma list_loop_result (Q : json -> Prop) l :
  Forall (fun e => forall e', upd e = Ret e' -> is_null e' = false -> Q e') l ->
  forall acc r,
    Forall Q acc -> _update_list_loop upd l acc = Ret r -> Forall Q r.
Proof.
  induction 1 as [|e l He _ IH]; intros acc r Hacc Hr; simpl in Hr.
  - inversion Hr; subst; exact Hacc.
  - destruct (upd e) as [e'|x] eqn:E; simpl in Hr; [|discriminate].
    eapply IH; [|exact Hr].
    destruct (is_null e') eqn:En; [exact Hacc|].
    apply Forall_app; split; [exact Hacc|].
    constructor; [apply He; [reflexivity | exact En] | constructor].
Qed.

Lemma dict_loop_settled r acc :
  Forall (fun kv => settled (snd kv)) r -> NoDup (keys acc ++ keys r) ->
  _update_dict_loop upd r acc = Ret (acc ++ r).
Proof.
  intros H; revert acc;
    induction H as [|[k v] r [Hv Hn] _ IH]; intros acc Hnd; simpl.
  - rewrite app_nil_r; reflexivity.
  - simpl in Hv, Hn; rewrite Hv; simpl; rewrite Hn.
    simpl in Hnd. pose proof (NoDup_remove_2 _ _ _ Hnd) as Hk.
    rewrite dict_set_fresh
      by (intros Hin; apply Hk; apply in_or_app; left; exact Hin).
    rewrite IH; [rewrite <- app_assoc; reflexivity|].
    unfold keys in *; rewrite map_app; simpl; rewrite <- app_assoc; exact Hnd.
Qed.

Lemma dict_loop_result (Q : json -> Prop) d :
  Forall (fun kv => forall v', upd (snd kv) = Ret v' ->
                               is_null v' = false -> Q v') d ->
  forall acc r,
    Forall (fun kv => Q (snd kv)) acc -> NoDup (keys acc) ->
    _update_dict_loop upd d acc = Ret r ->
    Forall (fun kv => Q (snd kv)) r /\ NoDup (keys r).
Proof.
  induction 1 as [|[k v] d Hv _ IH]; intros acc r Hacc Hnd Hr; simpl in Hr.
  - inversion Hr; subst; split; assumption.
  - simpl in Hv. destruct (upd v) as [v'|x] eqn:E; simpl in Hr; [|discriminate].
    eapply IH; [| |exact Hr].
    + destruct (is_null v') eqn:En; [exact Hacc|].
      clear - Hacc Hv En. induction acc as [|[k0 v0] acc IHa]; simpl.
      * constructor; [apply Hv; [reflexivity | exact En] | constructor].
      * inversion Hacc; subst.
        destruct (pystr_eqb k k0); constructor; simpl; auto.
    + destruct (is_null v'); [exact Hnd | apply keys_dict_set_NoDup; exact Hnd].
Qed.

Lemma update_settles a :
  forall a', upd a = Ret a' -> upd a' = Ret a'.
Proof.
  induction a as [| | | |s|l IH|d IH] using json_ind; intros a' Ha; simpl in Ha;
    try (inversion Ha; subst; reflexivity).
  - (* a string: kept as it is, or replaced by None *)
    unfold _update_str in Ha.
    destruct (negb (length (split SEP s) =? 1)%nat) eqn:El.
    + destruct (py_float (nth 1 (split SEP s) [])) as [dl|] eqn:Ef;
        [|discriminate].
      inversion Ha; subst a'.
      destruct (Qgtb now dl) eqn:Eg; [reflexivity|].
      simpl; unfold _update_str; rewrite El, Ef, Eg; reflexivity.
    + inversion Ha; subst a'; simpl; unfold _update_str; rewrite El; reflexivity.
  - (* a list *)
    destruct (_update_list_loop upd l []) as [r|x] eqn:El; simpl in Ha;
      [|discriminate].
    inversion Ha; subst a'; simpl.
    assert (Hs : Forall settled r).
    { eapply list_loop_result; [|constructor|exact El].
      eapply Forall_impl; [|exact IH].
      intros e He e' He' Hn; split; [apply He; exact He' | exact Hn]. }
    rewrite (list_loop_settled r [] Hs); reflexivity.
  - (* a dict *)
    destruct (_update_dict_loop upd d []) as [r|x] eqn:Ed; simpl in Ha;
      [|discriminate].
    inversion Ha; subst a'; simpl.
    assert (Hs : Forall (fun kv => settled (snd kv)) r /\ NoDup (keys r)).
    { eapply dict_loop_result; [|constructor|constructor|exact Ed].
      eapply Forall_impl; [|exact IH].
      intros kv He v' Hv' Hn; split; [apply He; exact Hv' | exact Hn]. }
    destruct Hs as [Hs Hnd].
    rewrite (dict_loop_settled r [] Hs Hnd); reflexivity.
Qed.

(** C2. Normalizing twice at one clock reading is normalizing once:
    [_update(_update(D)) = _update(D)] for every document [D].  Where the
    first pass raises, so does the composite, with the same exception. *)
Theorem update_idempotent (D : json) :
  (D' <- upd D ;; upd D') = upd D.
Proof.
  destruct (upd D) as [D'|x] eqn:E; simpl; [|reflexivity].
  apply (update_settles D); exact E.
Qed.

(** *** Malformed deadlines *)

Lemma update_raises_only_ValueError a :
  forall x, upd a = Raise x -> x = ValueError.
Proof.
  induction a as [| | | |s|l IH|d IH] using json_ind; intros x Ha; simpl in Ha;
    try discriminate.
  - unfold _update_str in Ha.
    destruct (negb (length (split SEP s) =? 1)%nat); [|discriminate].
    destruct (py_float (nth 1 (split SEP s) [])); [discriminate|].
    inversion Ha; reflexivity.
  - assert (H : forall acc, _update_list_loop upd l acc = Raise x ->
                            x = ValueError).
    { clear Ha. induction IH as [|e l He _ IHl]; intros acc Hl; simpl in Hl;
        [discriminate|].
      destruct (upd e) as [e'|y] eqn:E; simpl in Hl;
        [eapply IHl; exact Hl | inversion Hl; subst; apply He; reflexivity]. }
    destruct (_update_list_loop upd l []) eqn:El; simpl in Ha; [discriminate|].
    inversion Ha; subst; eapply H; exact El.
  - assert (H : forall acc, _update_dict_loop upd d acc = Raise x ->
                            x = ValueError).
    { clear Ha. induction IH as [|[k v] d Hv _ IHd]; intros acc Hd; simpl in Hd;
        [discriminate|].
      simpl in Hv. destruct (upd v) as [v'|y] eqn:E; simpl in Hd;
        [eapply IHd; exact Hd | inversion Hd; subst; apply Hv; reflexivity]. }
    destruct (_update_dict_loop upd d []) eqn:Ed; simpl in Ha; [discriminate|].
    inversion Ha; subst; eapply H; exact Ed.
Qed.

Lemma list_loop_raises l e acc :
  In e l -> upd e = Raise ValueError ->
  _update_list_loop upd l acc = Raise ValueError.
Proof.
  revert acc; induction l as [|e0 l IH]; intros acc Hin He; [destruct Hin|].
  destruct Hin as [Heq|Hin]; simpl.
  - subst e0; rewrite He; reflexivity.
  - destruct (upd e0) as [e0'|x] eqn:E0; simpl;
      [apply IH; assumption|].
    rewrite (update_raises_only_ValueError e0 x E0); reflexivity.
Qed.

Lemma dict_loop_raises d k v acc :
  In (k, v) d -> upd v = Raise ValueError ->
  _update_dict_loop upd d acc = Raise ValueError.
Proof.
  revert acc; induction d as [|[k0 v0] d IH]; intros acc Hin Hv;
    [destruct Hin|].
  destruct Hin as [Heq|Hin]; simpl.
  - inversion Heq; subst; rewrite Hv; reflexivity.
  - destruct (upd v0) as [v0'|x] eqn:E0; simpl;
      [apply IH; assumption|].
    rewrite (update_raises_only_ValueError v0 x E0); reflexivity.
Qed.

(** C9. A document holding, at any depth, a string with a separator whose
    piece after the first separator [float] rejects makes the normalizer
    raise [ValueError]; [load] with normalization on raises it too and
    leaves the file as it was. *)
Theorem malformed_deadline_raises (D : json) (s x y : pystr)
        (rest : list pystr) :
  holds_str s D ->
  split SEP s = x :: y :: rest ->
  py_float y = None ->
  upd D = Raise ValueError /\
  forall fs gorl args,
    fs gorl = Some D ->
    load py_float now fs gorl args true = (Raise ValueError, fs).
Proof.
  intros Hh Hs Hf.
  assert (HD : upd D = Raise ValueError).
  { induction Hh as [|l e Hin _ IH|d k v Hin _ IH]; simpl.
    - unfold _update_str; rewrite Hs; simpl; rewrite Hf; reflexivity.
    - rewrite (list_loop_raises l e [] Hin IH); reflexivity.
    - rewrite (dict_loop_raises d k v [] Hin IH); reflexivity. }
  split; [exact HD|].
  intros fs gorl args Hfs; unfold load; rewrite Hfs, HD; reflexivity.
Qed.

(** *** load *)

Lemma drill_missing a args : missing_key a args -> drill a args = Ret JNull.
Proof.
  induction 1 as [d x rest Hg|d x v rest Hg _ IH]; simpl; rewrite Hg;
    [reflexivity | exact IH].
Qed.

(** C8, amended.  [load] answers [None] when no file is at the path; and
    when the file is there and the drill-down, walking through dicts, meets
    a dict without the requested key, it answers [None] instead of raising
    (with normalization on, the normalized document is the one drilled into
    and written back). *)
Theorem load_absent_is_None (fs : files) (gorl : pystr)
        (args : list pystr) (update : bool) :
  (fs gorl = None -> load py_float now fs gorl args update = (Ret JNull, fs))
  /\
  (forall D D',
      fs gorl = Some D ->
      (if update then upd D else Ret D) = Ret D' ->
      missing_key D' args ->
      load py_float now fs gorl args update =
      (Ret JNull, if update then write fs gorl D' else fs)).
Proof.
  split.
  - intros H; unfold load; rewrite H; reflexivity.
  - intros D D' Hfs Hn Hm; unfold load; rewrite Hfs.
    destruct update.
    + rewrite Hn, (drill_missing _ _ Hm); reflexivity.
    + inversion Hn; subst; rewrite (drill_missing _ _ Hm); reflexivity.
Qed.
End NormalizerFacts.

(** Closing goals about concrete strings. *)
Ltac absent := let H := fresh in intros H; cbv in H; intuition discriminate.


Lemma malformed_deadline_witness :
  holds_str (py "vip@other" ++ SEP :: py "soon")
            (JDict [(py "items",
                     JList [JStr (py "vip@other" ++ SEP :: py "soon")])]) /\
  split SEP (py "vip@other" ++ SEP :: py "soon")
  = [py "vip@other"; py "soon"] /\
  decimal_float (py "soon") = None /\
  _update decimal_float 0
          (JDict [(py "items",
                   JList [JStr (py "vip@other" ++ SEP :: py "soon")])])
  = Raise ValueError.
Proof.
  assert (Hh : holds_str (py "vip@other" ++ SEP :: py "soon")
                 (JDict [(py "items",
                          JList [JStr (py "vip@other" ++ SEP :: py "soon")])])).
  { eapply holds_value; [left; reflexivity|].
    eapply holds_elem; [left; reflexivity | constructor]. }
  assert (Hs : split SEP (py "vip@other" ++ SEP :: py "soon")
               = [py "vip@other"; py "soon"]) by reflexivity.
  assert (Hf : decimal_float (py "soon") = None) by reflexivity.
  exact (conj Hh (conj Hs (conj Hf
           (proj1 (malformed_deadline_raises decimal_float 0 _ _ _ _ _
                                             Hh Hs Hf))))).
Defined.

Lemma load_absent_witness :
  let D := JDict [(py "en", JDict [(py "hello", JStr (py "Hello"))])] in
  let fs := write (fun _ => None) (py "glang") D in
  fs (py "glang") = Some D /\
  _update decimal_float 0 D = Ret D /\
  missing_key D [py "en"; py "bye"] /\
  fs (py "gshop") = None /\
  load decimal_float 0 fs (py "gshop") [py "x"] true = (Ret JNull, fs) /\
  load decimal_float 0 fs (py "glang") [py "en"; py "bye"] true
  = (Ret JNull, write fs (py "glang") D).
Proof.
  intros D fs.
  assert (H1 : fs (py "glang") = Some D) by reflexivity.
  assert (H2 : (if true then _update decimal_float 0 D else Ret D) = Ret D)
    by reflexivity.
  assert (H3 : missing_key D [py "en"; py "bye"]).
  { eapply missing_below; [reflexivity|]. apply missing_here; reflexivity. }
  assert (H4 : fs (py "gshop") = None) by reflexivity.
  exact (conj H1 (conj H2 (conj H3 (conj H4 (conj
           (proj1 (load_absent_is_None decimal_float 0 fs (py "gshop")
                                       [py "x"] true) H4)
           (proj2 (load_absent_is_None decimal_float 0 fs (py "glang")
                                       [py "en"; py "bye"] true)
                  D D H1 H2 H3)))))).
Defined.

(** C8 as stated fails where the key is requested of a value that is not a
    dict: in [{"a": 5}] the key [b] of the sequence [a, b] is missing, and
    [load] raises [TypeError] instead of answering [None], with and without
    normalization; only [KeyError] is caught. *)
Lemma load_missing_key_not_in_dict_raises :
  let D := JDict [(py "a", JInt 5)] in
  let fs := write (fun _ => None) (py "ginfo") D in
  key_absent D [py "a"; py "b"] /\
  load decimal_float 0 fs (py "ginfo") [py "a"; py "b"] false
  = (Raise TypeError, fs) /\
  fst (load decimal_float 0 fs (py "ginfo") [py "a"; py "b"] true)
  = Raise TypeError.
Proof.
  intros D fs. refine (conj _ (conj _ _)).
  - eapply absent_below; [reflexivity|]. apply absent_here; exact I.
  - reflexivity.
  - reflexivity.
Qed.

(* ================================================================= *)
(** ** The dispatcher: refused categories, alliance leave and create *)

Section DispatcherFacts.
Variable isalnum : pystr -> bool.
Variable lower : pystr -> pystr.
Variable randint : nat -> N.
Variable alliances : pystr -> option alliance.

Local Notation "'command'" :=
  (server_command isalnum lower randint alliances).

(** C10. An [/equip <category> <item>] line whose category is [other],
    [emote] or [powerup] is answered with the [unknownItemStatusE]
    warning and returns before anything is moved or written, whether or
    not the player owns the item. *)
Theorem equip_refuses_other_emote_powerup
        (msg spid : pystr) (p : plrdata) (nlist : list pystr) (fuel : nat)
        (scat item : pystr) (rest : list pystr) :
  startswith_slash msg = true ->
  split_command msg = py "equip" :: scat :: item :: rest ->
  In scat [py "other"; py "emote"; py "powerup"] ->
  (truthy (allianceidref p) = false \/
   exists ref a, allianceidref p = Some ref /\ alliances ref = Some a) ->
  command msg spid p nlist fuel =
  Returned (inform (py "unknownItemStatusE") warning (lang p)
                   [identity item scat]).
Proof.
  intros Hslash Hsplit Hcat Hal.
  assert (Hbr : forall ad,
             equip_branch (py "equip" :: scat :: item :: rest) p ad =
             Returned (inform (py "unknownItemStatusE") warning (lang p)
                              [identity item scat])).
  { intros ad; unfold equip_branch.
    change (length (py "equip" :: scat :: item :: rest) =? 1)%nat with false.
    cbn [nth_error].
    destruct (find _ _) as [te|]; [|reflexivity].
    apply str_in_In in Hcat; rewrite Hcat, orb_true_r; reflexivity. }
  unfold server_command; rewrite Hslash, Hsplit; cbn [negb].
  change (pystr_eqb (py "equip") (py "equip")) with true; cbv iota.
  destruct Hal as [Hno|(ref & a & Href & Ha)].
  - rewrite Hno; apply Hbr.
  - rewrite Href, Ha. destruct (truthy (Some ref)); apply Hbr.
Qed.

(** C7. When the sender's alliance lists the sender as [owner] and has
    exactly one owner, [/alliance leave] is answered with the
    [allianceOwnerCantLeave] error and returns before the member is
    removed, the reference cleared, or any document written. *)
Theorem sole_owner_cannot_leave
        (msg spid : pystr) (p : plrdata) (nlist : list pystr) (fuel : nat)
        (ref : pystr) (a : alliance) (rest : list pystr) :
  startswith_slash msg = true ->
  split_command msg = py "alliance" :: py "leave" :: rest ->
  allianceidref p = Some ref -> truthy (Some ref) = true ->
  alliances ref = Some a ->
  dict_get (members a) spid = Some (py "owner") ->
  ownercount (members a) = 1%nat ->
  command msg spid p nlist fuel =
  Returned (inform (py "allianceOwnerCantLeave") error (lang p) []).
Proof.
  intros Hslash Hsplit Href Htr Ha Hme Hone.
  unfold server_command; rewrite Hslash, Hsplit, Href, Htr, Ha; cbn [negb].
  change (pystr_eqb (py "alliance") (py "equip")) with false.
  change (pystr_eqb (py "alliance") (py "alliance")) with true; cbv iota.
  unfold alliance_branch.
  change (length (py "alliance" :: py "leave" :: rest) =? 1)%nat with false.
  cbn [nth_error]; cbv iota.
  change (pystr_eqb (py "leave") (py "create")) with false.
  change (pystr_eqb (py "leave") (py "leave")) with true; cbv iota.
  unfold alliance_leave; rewrite Hme, Hone; reflexivity.
Qed.

Lemma free_id_first n : forall k fuel,
  alliances (drawn_id randint (k + n)) = None ->
  (forall m, (m < n)%nat -> alliances (drawn_id randint (k + m)) <> None) ->
  (n < fuel)%nat ->
  free_id randint alliances fuel k = Some (drawn_id randint (k + n)).
Proof.
  induction n as [|n IH]; intros k fuel Hfree Htaken Hfuel;
    destruct fuel as [|fuel]; try lia; simpl.
  - rewrite Nat.add_0_r in Hfree; rewrite Hfree, Nat.add_0_r; reflexivity.
  - specialize (Htaken 0%nat) as H0; rewrite Nat.add_0_r in H0.
    destruct (alliances (drawn_id randint k)); [|exfalso; apply H0; [lia|reflexivity]].
    replace (k + S n)%nat with (S k + n)%nat in * by lia.
    apply IH; [exact Hfree | | lia].
    intros m Hm; replace (S k + m)%nat with (k + S m)%nat by lia.
    apply Htaken; lia.
Qed.

(** C3, amended. [/alliance create <name>] by a player outside any
    alliance, holding at least 1000 points, with an alphanumeric name of
    fewer than 20 characters that is not reserved in lower case, and with
    the n-th drawn id the first unused one: the command succeeds, 1000
    points are deducted, the new alliance has the sender as its only
    member, ranked owner, and the lower-cased name is reserved. *)
Theorem alliance_create_succeeds
        (msg spid : pystr) (p : plrdata) (nlist : list pystr)
        (name : pystr) (n fuel : nat) :
  startswith_slash msg = true ->
  split_command msg = [py "alliance"; py "create"; name] ->
  truthy (allianceidref p) = false ->
  (1000 <= spoints p)%Z ->
  isalnum name = true ->
  (length name < 20)%nat ->
  str_in (lower name) nlist = false ->
  alliances (drawn_id randint n) = None ->
  (forall m, (m < n)%nat -> alliances (drawn_id randint m) <> None) ->
  (n < fuel)%nat ->
  command msg spid p nlist fuel =
  Saved (inform (py "allianceCreateSuccess") success (lang p) [])
        (Plr (spoints p - 1000) (items p) (equipped p) (lang p)
             (Some (drawn_id randint n)) (pother p))
        (Some (drawn_id randint n,
               Alliance name [(spid, py "owner")] None false))
        (Some (nlist ++ [lower name])).
Proof.
  intros Hslash Hsplit Hno Hpts Halnum Hlen Hfresh Hfree Htaken Hfuel.
  unfold server_command; rewrite Hslash, Hsplit, Hno; cbn [negb].
  change (pystr_eqb (py "alliance") (py "equip")) with false.
  change (pystr_eqb (py "alliance") (py "alliance")) with true; cbv iota.
  unfold alliance_branch.
  change (length [py "alliance"; py "create"; name] =? 1)%nat with false.
  cbn [nth_error]; cbv iota.
  change (pystr_eqb (py "create") (py "create")) with true; cbv iota.
  unfold alliance_create.
  destruct (spoints p <? 1000)%Z eqn:E; [apply Z.ltb_lt in E; lia|].
  cbn [nth_error length]; rewrite Halnum; cbn [negb orb].
  change (3 <? 3)%nat with false; cbv iota.
  destruct (20 <=? length name)%nat eqn:E20; [apply Nat.leb_le in E20; lia|].
  rewrite Hfresh.
  rewrite (free_id_first n 0 fuel Hfree Htaken Hfuel); reflexivity.
Qed.
End DispatcherFacts.

(** *** Concrete runs of the dispatcher *)

Lemma equip_refuses_witness :
  let p := Plr 40 [py "wave@emote"] [] (Some (py "en")) None [] in
  startswith_slash (py "/equip emote wave") = true /\
  split_command (py "/equip emote wave")
  = py "equip" :: py "emote" :: py "wave" :: [] /\
  In (py "emote") [py "other"; py "emote"; py "powerup"] /\
  server_command ascii_isalnum ascii_lower zeros no_alliances
                 (py "/equip emote wave") (py "pb-1") p [] 1
  = Returned (inform (py "unknownItemStatusE") warning (Some (py "en"))
                     [py "wave@emote"]).
Proof.
  intros p.
  assert (H1 : startswith_slash (py "/equip emote wave") = true)
    by reflexivity.
  assert (H2 : split_command (py "/equip emote wave")
               = py "equip" :: py "emote" :: py "wave" :: []) by reflexivity.
  assert (H3 : In (py "emote") [py "other"; py "emote"; py "powerup"])
    by (right; left; reflexivity).
  exact (conj H1 (conj H2 (conj H3
    (equip_refuses_other_emote_powerup
       ascii_isalnum ascii_lower zeros no_alliances
       (py "/equip emote wave") (py "pb-1") p [] 1
       (py "emote") (py "wave") [] H1 H2 H3 (or_introl eq_refl))))).
Defined.

Lemma sole_owner_witness :
  let a := Alliance (py "Foo")
                    [(py "pb-1", py "owner"); (py "pb-2", py "member")]
                    None false in
  let p := Plr 0 [] [] (Some (py "en")) (Some (py "12345")) [] in
  dict_get (members a) (py "pb-1") = Some (py "owner") /\
  ownercount (members a) = 1%nat /\
  server_command ascii_isalnum ascii_lower zeros
                 (one_alliance (py "12345") a)
                 (py "/alliance leave") (py "pb-1") p [py "foo"] 1
  = Returned (inform (py "allianceOwnerCantLeave") error (Some (py "en")) []).
Proof.
  intros a p.
  assert (H1 : dict_get (members a) (py "pb-1") = Some (py "owner"))
    by reflexivity.
  assert (H2 : ownercount (members a) = 1%nat) by reflexivity.
  exact (conj H1 (conj H2
    (sole_owner_cannot_leave
       ascii_isalnum ascii_lower zeros (one_alliance (py "12345") a)
       (py "/alliance leave") (py "pb-1") p [py "foo"] 1
       (py "12345") a [] eq_refl eq_refl eq_refl eq_refl eq_refl H1 H2))).
Defined.

Lemma alliance_create_witness :
  let p := Plr 1500 [] [] (Some (py "en")) None [] in
  ascii_isalnum (py "Foo") = true /\
  (length (py "Foo") < 20)%nat /\
  str_in (ascii_lower (py "Foo")) [py "bar"] = false /\
  server_command ascii_isalnum ascii_lower zeros no_alliances
                 (py "/alliance create Foo") (py "pb-1") p [py "bar"] 1
  = Saved (inform (py "allianceCreateSuccess") success (Some (py "en")) [])
          (Plr 500 [] [] (Some (py "en")) (Some (py "00000")) [])
          (Some (py "00000",
                 Alliance (py "Foo") [(py "pb-1", py "owner")] None false))
          (Some [py "bar"; py "foo"]).
Proof.
  intros p.
  assert (H1 : ascii_isalnum (py "Foo") = true) by reflexivity.
  assert (H2 : (length (py "Foo") < 20)%nat) by (cbv; lia).
  assert (H3 : str_in (ascii_lower (py "Foo")) [py "bar"] = false)
    by reflexivity.
  assert (H4 : (1000 <= spoints p)%Z) by (cbv; discriminate).
  assert (H5 : forall m, (m < 0)%nat ->
                         no_alliances (drawn_id zeros m) <> None)
    by (intros m Hm; lia).
  exact (conj H1 (conj H2 (conj H3
    (alliance_create_succeeds
       ascii_isalnum ascii_lower zeros no_alliances
       (py "/alliance create Foo") (py "pb-1") p [py "bar"] (py "Foo") 0 1
       eq_refl eq_refl eq_refl H4 H1 H2 H3 eq_refl H5 (Nat.lt_0_succ 0))))).
Defined.

(** C3 as stated fails at twenty characters: every premise of the claim
    holds for this 20-letter name, and the line is answered with the
    [tooLong] warning; no alliance is created and no point deducted. *)
Lemma alliance_create_rejects_twenty_chars :
  let name := py "abcdefghijklmnopqrst" in
  let p := Plr 1500 [] [] (Some (py "en")) None [] in
  (length name <= 20)%nat /\
  ascii_isalnum name = true /\
  str_in (ascii_lower name) [] = false /\
  truthy (allianceidref p) = false /\
  (1000 <= spoints p)%Z /\
  server_command ascii_isalnum ascii_lower zeros no_alliances
                 (py "/alliance create abcdefghijklmnopqrst")
                 (py "pb-1") p [] 1
  = Returned (inform (py "tooLong") warning (Some (py "en")) [py "20"]).
Proof.
  intros name p.
  refine (conj _ (conj eq_refl (conj eq_refl (conj eq_refl (conj _ eq_refl))))).
  - cbv; lia.
  - cbv; discriminate.
Qed.

(* ================================================================= *)
(** ** equip: one entry per category, and the toggle *)


Lemma filter_nothing {A} (f : A -> bool) l :
  (forall i, In i l -> f i = false) -> filter f l = [].
Proof.
  induction l as [|y l IH]; simpl; intros H; [reflexivity|].
  rewrite (H y (or_introl eq_refl)); apply IH; intros i Hi; apply H; now right.
Qed.

Lemma filter_everything {A} (f : A -> bool) l :
  (forall i, In i l -> f i = true) -> filter f l = l.
Proof.
  induction l as [|y l IH]; simpl; intros H; [reflexivity|].
  rewrite (H y (or_introl eq_refl)); f_equal; apply IH; intros i Hi; apply H;
    now right.
Qed.

Lemma filter_empty_false {A} (f : A -> bool) l :
  length (filter f l) = 0%nat -> forall i, In i l -> f i = false.
Proof.
  intros H i Hi. destruct (f i) eqn:E; [|reflexivity].
  assert (Hin : In i (filter f l)) by (apply filter_In; split; assumption).
  destruct (filter f l); [destruct Hin | discriminate].
Qed.

Lemma filter_length_weaken {A} (f g : A -> bool) l :
  (forall i, f i = true -> g i = true) ->
  (length (filter f l) <= length (filter g l))%nat.
Proof.
  intros H; induction l as [|y l IH]; simpl; [lia|].
  destruct (f y) eqn:E; [rewrite (H y E); simpl; lia|].
  destruct (g y); simpl; lia.
Qed.

Lemma list_remove_In x l :
  In x l -> exists l', list_remove x l = Ret l' /\ Permutation l (x :: l').
Proof.
  induction l as [|y l IH]; intros Hin; [destruct Hin|]; simpl.
  destruct (pystr_eqb y x) eqn:E.
  - apply pystr_eqb_eq in E; subst y; exists l; split; [reflexivity|].
    apply Permutation_refl.
  - destruct Hin as [->|Hin]; [rewrite pystr_eqb_refl in E; discriminate|].
    destruct (IH Hin) as (l' & Hl' & Hp); exists (y :: l'); rewrite Hl'; simpl.
    split; [reflexivity|].
    eapply perm_trans; [apply perm_skip; exact Hp | apply perm_swap].
Qed.

Lemma list_remove_subset x l l' :
  list_remove x l = Ret l' -> forall i, In i l' -> In i l.
Proof.
  revert l'; induction l as [|y l IH]; intros l' H; simpl in H; [discriminate|].
  destruct (pystr_eqb y x).
  - inversion H; subst; intros i Hi; now right.
  - destruct (list_remove x l) as [r|e]; simpl in H; [|discriminate].
    inversion H; subst; intros i [->|Hi]; [now left | right; eapply IH; eauto].
Qed.

Lemma list_remove_filter_le (f : pystr -> bool) x l l' :
  list_remove x l = Ret l' ->
  (length (filter f l') <= length (filter f l))%nat.
Proof.
  revert l'; induction l as [|y l IH]; intros l' H; simpl in H; [discriminate|].
  destruct (pystr_eqb y x).
  - inversion H; subst; simpl; destruct (f y); simpl; lia.
  - destruct (list_remove x l) as [r|e]; simpl in H; [|discriminate].
    inversion H; subst; simpl. specialize (IH r eq_refl).
    destruct (f y); simpl; lia.
Qed.

Lemma list_remove_last x l :
  ~ In x l -> list_remove x (l ++ [x]) = Ret l.
Proof.
  induction l as [|y l IH]; simpl; intros H.
  - rewrite pystr_eqb_refl; reflexivity.
  - destruct (pystr_eqb y x) eqn:E;
      [apply pystr_eqb_eq in E; subst; tauto|].
    rewrite IH by tauto; reflexivity.
Qed.

(** Removing the only displaced entry is filtering it out. *)
Lemma list_remove_only (m : pystr -> bool) i l :
  (length (filter m l) <= 1)%nat -> In i l -> m i = true ->
  list_remove i l = Ret (filter (fun x => negb (m x)) l) /\ filter m l = [i].
Proof.
  induction l as [|y l IH]; intros Hle Hin Hm; [destruct Hin|]; simpl in *.
  destruct (pystr_eqb y i) eqn:E.
  - apply pystr_eqb_eq in E; subst y; rewrite Hm in *; simpl in *.
    assert (H0 : length (filter m l) = 0%nat) by lia.
    pose proof (filter_empty_false m l H0) as Hf.
    rewrite (filter_nothing m l Hf).
    rewrite (filter_everything (fun x => negb (m x)) l)
      by (intros j Hj; rewrite (Hf j Hj); reflexivity).
    split; reflexivity.
  - destruct Hin as [->|Hin]; [rewrite pystr_eqb_refl in E; discriminate|].
    destruct (m y) eqn:Ey; simpl in *.
    + assert (H0 : length (filter m l) = 0%nat) by lia.
      rewrite (filter_empty_false m l H0 i Hin) in Hm; discriminate.
    + destruct (IH Hle Hin Hm) as [-> ->]; simpl; split; reflexivity.
Qed.

Lemma NoDup_map_injective {A B} (f : A -> B) l x y :
  NoDup (map f l) -> In x l -> In y l -> f x = f y -> x = y.
Proof.
  induction l as [|z l IH]; simpl; intros Hnd Hx Hy Hf; [destruct Hx|].
  inversion Hnd as [|? ? Hn Hd]; subst.
  destruct Hx as [->|Hx], Hy as [->|Hy]; auto.
  - exfalso; apply Hn; rewrite Hf; apply in_map; exact Hy.
  - exfalso; apply Hn; rewrite <- Hf; apply in_map; exact Hx.
Qed.

Lemma NoDup_app_filter {A} (f : A -> bool) a b :
  NoDup (a ++ b) -> NoDup (a ++ filter f b).
Proof.
  induction a as [|x a IH]; simpl; intros H.
  - apply NoDup_filter; exact H.
  - inversion H as [|? ? Hn Hd]; subst; constructor; [|apply IH; exact Hd].
    intros Hin; apply Hn; apply in_app_iff; apply in_app_iff in Hin.
    destruct Hin as [Hin|Hin]; [now left | right].
    apply filter_In in Hin; tauto.
Qed.

Lemma find_only {A} (f : A -> bool) l x :
  In x l -> f x = true -> (forall y, In y l -> f y = true -> y = x) ->
  find f l = Some x.
Proof.
  induction l as [|z l IH]; simpl; intros Hin Hx Hu; [destruct Hin|].
  destruct (f z) eqn:Ez; [f_equal; apply Hu; [now left | exact Ez]|].
  destruct Hin as [->|Hin]; [congruence|].
  apply IH; [exact Hin | exact Hx | intros y Hy; apply Hu; now right].
Qed.

Lemma split_two_pieces c x y :
  exists w z ws, split c (x ++ c :: y) = w :: z :: ws.
Proof.
  induction x as [|a x (w & z & ws & IH)]; simpl.
  - rewrite N.eqb_refl. destruct (split c y) as [|z ws] eqn:E;
      [exfalso; exact (split_nonempty c y E) | exists [], z, ws; reflexivity].
  - destruct (N.eqb a c).
    + rewrite IH; exists [], w, (z :: ws); reflexivity.
    + rewrite IH; exists (a :: w), z, ws; reflexivity.
Qed.

Lemma item_base_nonempty o item scat :
  item_base o = identity item scat -> nonempty o = true.
Proof.
  destruct o; [|reflexivity]. unfold item_base, identity; simpl.
  destruct item; discriminate.
Qed.

Lemma entry_has_category te item scat :
  item_base te = identity item scat -> has_category te.
Proof.
  intros H; unfold has_category, item_category; rewrite H; unfold identity.
  destruct (split_two_pieces AT item scat) as (w & z & ws & ->).
  exists z; reflexivity.
Qed.

Section EquipFacts.
Variables te scat : pystr.
Variable lg : option pystr.

Local Notation "'m'" := (displaced te scat).

(** With nothing to displace the loop leaves both lists as they are. *)
Lemma unequip_others_nothing eqd :
  (forall i, In i eqd -> m i = false) ->
  (forall i, In i eqd -> has_category i) ->
  forall fuel idx its notes,
    unequip_others fuel idx te scat lg its eqd notes = (notes, Ret (its, eqd)).
Proof.
  intros Hm Hw; induction fuel as [|fuel IH]; intros idx its notes; simpl;
    [reflexivity|].
  destruct (nth_error eqd idx) as [i|] eqn:En; [|reflexivity].
  pose proof (nth_error_In _ _ En) as Hin.
  pose proof (Hm i Hin) as Hmi; unfold displaced, of_category in Hmi.
  destruct (negb (pystr_eqb te i)); [|apply IH].
  destruct (Hw i Hin) as (c & Hc); rewrite Hc in *; simpl in Hmi.
  rewrite Hmi; apply IH.
Qed.

(** With at most one entry to displace the loop moves exactly that one. *)
Lemma unequip_others_moves eqd :
  (length (filter m eqd) <= 1)%nat ->
  (forall i, In i eqd -> has_category i) ->
  forall fuel idx its notes,
    (length eqd <= idx + fuel)%nat ->
    (forall j i, nth_error eqd j = Some i -> m i = true -> (idx <= j)%nat) ->
    exists notes',
      unequip_others fuel idx te scat lg its eqd notes =
      (notes', Ret (its ++ filter m eqd, filter (fun i => negb (m i)) eqd)).
Proof.
  intros Hle Hw.
  assert (Hend : forall idx its notes fuel,
             (forall j i, nth_error eqd j = Some i -> m i = true ->
                          (idx <= j)%nat) ->
             (length eqd <= idx)%nat ->
             unequip_others fuel idx te scat lg its eqd notes =
             (notes, Ret (its ++ filter m eqd,
                          filter (fun i => negb (m i)) eqd))).
  { intros idx its notes fuel Hpos Hlen.
    assert (Hf : forall i, In i eqd -> m i = false).
    { intros i Hi; destruct (m i) eqn:E; [|reflexivity].
      destruct (In_nth_error _ _ Hi) as (j & Hj).
      pose proof (Hpos j i Hj E).
      assert (j < length eqd)%nat by (apply nth_error_Some; congruence). lia. }
    rewrite (filter_nothing _ _ Hf), app_nil_r.
    rewrite (filter_everything (fun i => negb (m i)) eqd)
      by (intros i Hi; rewrite (Hf i Hi); reflexivity).
    apply unequip_others_nothing; assumption. }
  induction fuel as [|fuel IH]; intros idx its notes Hlen Hpos.
  - exists notes; apply Hend; [exact Hpos | lia].
  - destruct (nth_error eqd idx) as [i|] eqn:En.
    + pose proof (nth_error_In _ _ En) as Hin.
      destruct (m i) eqn:Emi.
      * (* the entry to displace *)
        destruct (list_remove_only _ i eqd Hle Hin Emi) as [Hrm Hfm].
        unfold displaced, of_category in Emi.
        apply andb_true_iff in Emi as [Ene Ec].
        destruct (Hw i Hin) as (c & Hc); rewrite Hc in Ec.
        simpl; rewrite En, Ene, Hc, Ec, Hrm, Hfm.
        eexists; apply unequip_others_nothing.
        -- intros j Hj; apply filter_In in Hj as [_ Hj].
           apply negb_true_iff in Hj; exact Hj.
        -- intros j Hj; apply filter_In in Hj as [Hj _]; apply Hw; exact Hj.
      * (* any other entry: the loop goes on *)
        assert (Hnext : forall j i', nth_error eqd j = Some i' ->
                                     m i' = true -> (S idx <= j)%nat).
        { intros j i' Hj Hm'. pose proof (Hpos j i' Hj Hm') as Hle'.
          destruct (Nat.eq_dec j idx) as [->|Hne]; [|lia].
          rewrite En in Hj; inversion Hj; subst; congruence. }
        destruct (IH (S idx) its notes ltac:(lia) Hnext) as (notes' & Hrun).
        exists notes'; simpl; rewrite En.
        unfold displaced, of_category in Emi.
        destruct (negb (pystr_eqb te i)); [|exact Hrun].
        destruct (Hw i Hin) as (c & Hc); rewrite Hc in *; simpl in Emi.
        rewrite Emi; exact Hrun.
    + exists notes. apply nth_error_None in En. apply Hend; assumption.
Qed.
End EquipFacts.

Lemma entry_for_spec item scat p te :
  entry_for item scat p = Some te ->
  In te (items p ++ equipped p) /\ item_base te = identity item scat.
Proof.
  unfold entry_for; intros H; apply find_some in H as [Hin Hb].
  apply pystr_eqb_eq in Hb; split; assumption.
Qed.

(** The branch once the entry is found, the category is allowed and the
    loop has returned. *)
Lemma equip_branch_after_loop cmd scat item rest p ad te notes its eqd :
  entry_for item scat p = Some te ->
  str_in scat [py "other"; py "emote"; py "powerup"] = false ->
  unequip_others (length (equipped p)) 0 te scat (lang p)
                 (items p) (equipped p) [] = (notes, Ret (its, eqd)) ->
  equip_branch (cmd :: scat :: item :: rest) p ad =
  if str_in te its then
    match list_remove te its with
    | Raise e =>
        Caught e (notes ++ inform (py "genericError") error (lang p)
                                  [py "equip"])
    | Ret its' =>
        Saved (notes ++ inform (py "equipped") success (lang p) [te])
              (Plr (spoints p) its' (eqd ++ [te]) (lang p)
                   (allianceidref p) (pother p)) ad None
    end
  else
    match list_remove te eqd with
    | Raise e =>
        Caught e (notes ++ inform (py "genericError") error (lang p)
                                  [py "equip"])
    | Ret eqd' =>
        Saved (notes ++ inform (py "unequipped") success (lang p) [te])
              (Plr (spoints p) (its ++ [te]) eqd' (lang p)
                   (allianceidref p) (pother p)) ad None
    end.
Proof.
  intros Hte Hcat Hloop.
  destruct (entry_for_spec _ _ _ _ Hte) as [_ Hb].
  unfold equip_branch.
  change (length (cmd :: scat :: item :: rest) =? 1)%nat with false.
  cbn [nth_error]; cbv iota.
  unfold entry_for in Hte; rewrite Hte.
  rewrite (item_base_nonempty _ _ _ Hb), Hcat; cbn [negb orb].
  rewrite Hloop; reflexivity.
Qed.

Lemma ends_with_spec suf s :
  ends_with suf s = true <-> exists pre, s = pre ++ suf.
Proof.
  induction s as [|a s IH]; cbn [ends_with].
  - rewrite orb_false_r, pystr_eqb_eq. split.
    + intros <-; exists []; reflexivity.
    + intros (pre & H). symmetry in H; apply app_eq_nil in H as [_ ->].
      reflexivity.
  - rewrite orb_true_iff, IH, pystr_eqb_eq. split.
    + intros [<-|(pre & ->)]; [exists []; reflexivity|].
      exists (a :: pre); reflexivity.
    + intros ([|x pre] & H); simpl in H; [left; exact H|].
      inversion H; subst; right; exists pre; reflexivity.
Qed.

(** A string with a single [a] is cut at it in one way only. *)
Lemma single_cut (a : N) (c suf : pystr) : forall name pre,
  ~ In a name -> ~ In a c ->
  name ++ a :: c = pre ++ a :: suf -> c = suf.
Proof.
  induction name as [|y name IH]; intros [|x pre] Hn Hc H; simpl in H.
  - inversion H; reflexivity.
  - inversion H; subst. exfalso; apply Hc, in_or_app; right; now left.
  - inversion H; subst. exfalso; apply Hn; now left.
  - inversion H; subst. eapply IH; [|exact Hc|eassumption].
    intros Hin; apply Hn; now right.
Qed.

(** On an identity string with a single ['@'] the test of the loop and the
    ending of the string agree. *)
Lemma one_at_category scat i :
  one_at i -> has_category i /\ of_category scat i = in_category scat i.
Proof.
  intros (name & c & Hb & Hn & Hc).
  assert (Hcat : item_category i = Ret c).
  { unfold item_category; rewrite Hb, split_at_first by exact Hn.
    rewrite split_no_sep by exact Hc; reflexivity. }
  split; [exists c; exact Hcat|].
  unfold of_category, in_category; rewrite Hcat, Hb.
  destruct (pystr_eqb scat c) eqn:E.
  - apply pystr_eqb_eq in E; subst. symmetry; apply ends_with_spec.
    exists name; reflexivity.
  - symmetry; apply not_true_is_false; intros H.
    apply ends_with_spec in H as (pre & H).
    apply (single_cut _ _ _ _ _ Hn Hc) in H.
    apply pystr_eqb_neq in E; congruence.
Qed.

Lemma entry_in_category te item scat :
  item_base te = identity item scat -> in_category scat te = true.
Proof.
  intros H; unfold in_category; rewrite H; apply ends_with_spec.
  exists item; reflexivity.
Qed.

(** C6, amended.  In a player document where no two entries of the items
    and equipped lists share an identity string, the identity string of
    every equipped entry is [name@category] with a single ['@'], and at
    most one equipped entry is of the category of the command (its identity
    string ends in ['@' + scat]): an equip command for an owned entry of an
    equippable category succeeds and leaves at most one entry of that
    category equipped; and when the entry was in the items list, it is
    afterwards the one equipped entry of the category, and the same command
    issued again succeeds and moves it back to the items list. *)
Theorem equip_one_per_category_and_toggle
        (cmd scat item : pystr) (rest : list pystr) (p : plrdata)
        (ad : option (pystr * alliance)) (te : pystr) :
  NoDup (map item_base (items p ++ equipped p)) ->
  (forall i, In i (equipped p) -> one_at i) ->
  (length (filter (in_category scat) (equipped p)) <= 1)%nat ->
  entry_for item scat p = Some te ->
  str_in scat [py "other"; py "emote"; py "powerup"] = false ->
  exists notes p',
    equip_branch (cmd :: scat :: item :: rest) p ad = Saved notes p' ad None /\
    (length (filter (in_category scat) (equipped p')) <= 1)%nat /\
    (In te (items p) ->
     filter (in_category scat) (equipped p') = [te] /\
     exists notes2 p'',
       equip_branch (cmd :: scat :: item :: rest) p' ad
       = Saved notes2 p'' ad None /\
       In te (items p'') /\ ~ In te (equipped p'')).
Proof.
  intros Hu Hone He1 Hte Hcat.
  assert (Hw : forall i, In i (equipped p) -> has_category i)
    by (intros i Hi; exact (proj1 (one_at_category scat i (Hone i Hi)))).
  assert (Hagree : forall i, In i (equipped p) ->
                             of_category scat i = in_category scat i)
    by (intros i Hi; exact (proj2 (one_at_category scat i (Hone i Hi)))).
  assert (He : (length (filter (of_category scat) (equipped p)) <= 1)%nat)
    by (rewrite (filter_ext_in _ _ _ Hagree); exact He1).
  destruct (entry_for_spec _ _ _ _ Hte) as [Hin Hb].
  assert (Hnd : NoDup (items p ++ equipped p))
    by (eapply NoDup_map_inv; exact Hu).
  assert (Hm1 : (length (filter (displaced te scat) (equipped p)) <= 1)%nat).
  { etransitivity; [|exact He]. apply filter_length_weaken.
    intros i Hi; apply andb_true_iff in Hi; tauto. }
  assert (Hmte : displaced te scat te = false)
    by (unfold displaced; rewrite pystr_eqb_refl; reflexivity).
  destruct (unequip_others_moves te scat (lang p) (equipped p) Hm1 Hw
              (length (equipped p)) 0 (items p) []
              ltac:(lia) ltac:(intros; lia))
    as (notes & Hloop).
  pose proof (equip_branch_after_loop cmd scat item rest p ad te _ _ _
                                      Hte Hcat Hloop) as Hrun.
  pose proof (NoDup_app_filter (displaced te scat) _ _ Hnd) as Hnd1.
  remember (items p ++ filter (displaced te scat) (equipped p)) as its1
    eqn:Eits1.
  remember (filter (fun i => negb (displaced te scat i)) (equipped p)) as eqd1
    eqn:Eeqd1.
  assert (Hsub : forall i, In i eqd1 -> In i (equipped p))
    by (subst eqd1; intros i Hi; apply filter_In in Hi; tauto).
  assert (Hcnt : (length (filter (in_category scat) eqd1)
                  <= length (filter (in_category scat) (equipped p)))%nat).
  { subst eqd1. clear. induction (equipped p) as [|y l IH]; simpl; [lia|].
    destruct (negb (displaced te scat y)); simpl;
      destruct (in_category scat y); simpl; lia. }
  assert (Hits : In te its1 <-> In te (items p)).
  { subst its1; rewrite in_app_iff, filter_In; split; [|tauto].
    intros [H|[_ H]]; [exact H | congruence]. }
  assert (Hsplit : In te (items p) -> ~ In te (equipped p)).
  { clear - Hnd. induction (items p) as [|y l IH]; intros Hi H;
      [destruct Hi|]; simpl in Hnd.
    inversion Hnd as [|? ? Hn Hd]; subst.
    destruct Hi as [->|Hl]; [apply Hn; apply in_or_app; now right|].
    apply IH; assumption. }
  destruct (str_in te its1) eqn:Ein.
  - (* the entry is in the items list: it gets equipped *)
    apply str_in_In in Ein. pose proof (proj1 Hits Ein) as Hin_its.
    pose proof (Hsplit Hin_its) as Hnot_eqd.
    destruct (list_remove_In te its1 Ein) as (its2 & Hrm & Hperm).
    rewrite Hrm in Hrun.
    eexists; eexists; split; [exact Hrun|]; cbn [equipped items].
    assert (Hnone : forall i, In i eqd1 -> in_category scat i = false).
    { intros i Hi. pose proof (Hsub i Hi) as Hie.
      rewrite <- (Hagree i Hie).
      subst eqd1; apply filter_In in Hi as [_ Hmi].
      apply negb_true_iff in Hmi; unfold displaced in Hmi.
      apply andb_false_iff in Hmi as [Hmi|Hmi]; [|exact Hmi].
      apply negb_false_iff, pystr_eqb_eq in Hmi; subst i; tauto. }
    assert (Hnow : filter (in_category scat) (eqd1 ++ [te]) = [te]).
    { rewrite filter_app, (filter_nothing _ _ Hnone); simpl.
      rewrite (entry_in_category _ _ _ Hb); reflexivity. }
    split; [|intros _; split; [exact Hnow|]].
    + rewrite Hnow; simpl; lia.
    + (* the same command again *)
      assert (Hnot2 : ~ In te its2).
      { pose proof (Permutation_NoDup Hperm Hnd1) as Hc.
        inversion Hc; assumption. }
      assert (Hnot1 : ~ In te eqd1) by (intros H; apply Hnot_eqd, Hsub, H).
      set (p' := Plr (spoints p) its2 (eqd1 ++ [te]) (lang p)
                     (allianceidref p) (pother p)).
      assert (Hsrc : forall y, In y (its2 ++ eqd1 ++ [te]) ->
                               In y (items p ++ equipped p)).
      { intros y Hy; apply in_app_iff in Hy as [Hy|Hy].
        - apply (list_remove_subset _ _ _ Hrm) in Hy; subst its1.
          apply in_app_iff in Hy as [Hy|Hy]; apply in_app_iff;
            [now left | right; apply filter_In in Hy; tauto].
        - apply in_app_iff in Hy as [Hy|[<-|[]]];
            [apply in_app_iff; right; apply Hsub, Hy | exact Hin]. }
      assert (Hte' : entry_for item scat p' = Some te).
      { unfold entry_for; cbn [items equipped p']. apply find_only.
        - apply in_or_app; right; apply in_or_app; right; now left.
        - apply pystr_eqb_eq; exact Hb.
        - intros y Hy Hby; apply pystr_eqb_eq in Hby.
          apply (NoDup_map_injective item_base _ y te Hu (Hsrc y Hy) Hin).
          congruence. }
      assert (Hloop' :
                unequip_others (length (equipped p')) 0 te scat (lang p')
                               (items p') (equipped p') []
                = ([], Ret (its2, eqd1 ++ [te]))).
      { apply unequip_others_nothing; cbn [equipped p'].
        - intros i Hi; apply in_app_iff in Hi as [Hi|[<-|[]]]; [|exact Hmte].
          subst eqd1; apply filter_In in Hi as [_ Hi].
          apply negb_true_iff in Hi; exact Hi.
        - intros i Hi; apply in_app_iff in Hi as [Hi|[<-|[]]];
            [apply Hw, Hsub, Hi | eapply entry_has_category; exact Hb]. }
      pose proof (equip_branch_after_loop cmd scat item rest p' ad te _ _ _
                                          Hte' Hcat Hloop') as Hrun'.
      rewrite (proj2 (str_in_not_In te its2) Hnot2) in Hrun'.
      rewrite (list_remove_last te eqd1 Hnot1) in Hrun'.
      eexists; eexists; split; [exact Hrun'|]; cbn [items equipped].
      split; [apply in_or_app; right; now left | exact Hnot1].
  - (* the entry is equipped: it goes back to the items list *)
    apply str_in_not_In in Ein.
    assert (Hnot_its : ~ In te (items p)) by (intros H; apply Ein, Hits, H).
    assert (Hin1 : In te eqd1).
    { subst eqd1; apply filter_In; split; [|rewrite Hmte; reflexivity].
      apply in_app_iff in Hin as [H|H]; [tauto | exact H]. }
    destruct (list_remove_In te eqd1 Hin1) as (eqd2 & Hrm & _).
    rewrite Hrm in Hrun.
    eexists; eexists; split; [exact Hrun|]; cbn [equipped items].
    split; [|intros H; tauto].
    pose proof (list_remove_filter_le (in_category scat) _ _ _ Hrm). lia.
Qed.

Lemma equip_toggle_witness :
  let p := Plr 0 [py "c@hat"] [py "a@hat"; py "b@shoes"]
               (Some (py "en")) None [] in
  let msg_splits := py "equip" :: py "hat" :: py "c" :: [] in
  NoDup (map item_base (items p ++ equipped p)) /\
  (forall i, In i (equipped p) -> one_at i) /\
  (length (filter (in_category (py "hat")) (equipped p)) <= 1)%nat /\
  entry_for (py "c") (py "hat") p = Some (py "c@hat") /\
  exists notes p',
    equip_branch msg_splits p None = Saved notes p' None None /\
    (length (filter (in_category (py "hat")) (equipped p')) <= 1)%nat /\
    (In (py "c@hat") (items p) ->
     filter (in_category (py "hat")) (equipped p') = [py "c@hat"] /\
     exists notes2 p'',
       equip_branch msg_splits p' None = Saved notes2 p'' None None /\
       In (py "c@hat") (items p'') /\ ~ In (py "c@hat") (equipped p'')).
Proof.
  intros p msg_splits.
  assert (H1 : NoDup (map item_base (items p ++ equipped p))).
  { cbv; repeat (constructor; [absent|]); constructor. }
  assert (H2 : forall i, In i (equipped p) -> one_at i).
  { intros i [<-|[<-|[]]];
      [exists (py "a"), (py "hat") | exists (py "b"), (py "shoes")];
      (split; [reflexivity | split; absent]). }
  assert (H3 : (length (filter (in_category (py "hat")) (equipped p)) <= 1)%nat)
    by (cbv; lia).
  assert (H4 : entry_for (py "c") (py "hat") p = Some (py "c@hat"))
    by reflexivity.
  exact (conj H1 (conj H2 (conj H3 (conj H4
    (equip_one_per_category_and_toggle
       (py "equip") (py "hat") (py "c") [] p None (py "c@hat")
       H1 H2 H3 H4 eq_refl))))).
Defined.

(** C6 as stated fails on four documents.  With two other hats equipped
    the loop skips the second, and two hats stay equipped.  With the entry
    twice in the items list the second command equips the second copy
    instead of moving the first back.  With an equipped entry that has no
    ['@'] the second command ends in the [except] clause.  With the hat
    [x@y] equipped, whose identity string [x@y@hat] the loop reads as of
    category [y], another hat is equipped next to it. *)
Lemma equip_claim_fails :
  let hat_c := py "equip" :: py "hat" :: py "c" :: [] in
  (exists notes p',
      equip_branch hat_c
        (Plr 0 [py "c@hat"] [py "a@hat"; py "b@hat"] None None []) None
      = Saved notes p' None None /\
      equipped p' = [py "b@hat"; py "c@hat"]) /\
  (exists notes q' notes2 q'',
      equip_branch hat_c
        (Plr 0 [py "c@hat"; py "c@hat"] [] None None []) None
      = Saved notes q' None None /\
      equipped q' = [py "c@hat"] /\
      equip_branch hat_c q' None = Saved notes2 q'' None None /\
      items q'' = [] /\ equipped q'' = [py "c@hat"; py "c@hat"]) /\
  (exists notes r' notes2,
      equip_branch hat_c
        (Plr 0 [py "c@hat"] [py "a@hat"; py "junk"] None None []) None
      = Saved notes r' None None /\
      equipped r' = [py "junk"; py "c@hat"] /\
      equip_branch hat_c r' None = Caught IndexError notes2) /\
  (exists notes s',
      entry_for (py "x@y") (py "hat")
                (Plr 0 [py "c@hat"] [py "x@y@hat"] None None [])
      = Some (py "x@y@hat") /\
      equip_branch hat_c
        (Plr 0 [py "c@hat"] [py "x@y@hat"] None None []) None
      = Saved notes s' None None /\
      equipped s' = [py "x@y@hat"; py "c@hat"]).
Proof.
  intros hat_c. refine (conj _ (conj _ (conj _ _)));
    [| | |eexists; eexists;
          refine (conj _ (conj _ _));
          [reflexivity | vm_compute; reflexivity | reflexivity]].
  - eexists; eexists. refine (conj _ _); [vm_compute; reflexivity|reflexivity].
  - eexists; eexists; eexists; eexists.
    refine (conj _ (conj _ (conj _ (conj _ _))));
      [vm_compute; reflexivity | reflexivity | vm_compute; reflexivity
      | reflexivity | reflexivity].
  - eexists; eexists; eexists.
    refine (conj _ (conj _ _));
      [vm_compute; reflexivity | reflexivity | vm_compute; reflexivity].
Qed.

(* ================================================================= *)
(** ** The leaderboard stays sorted *)



Lemma insert_desc_In (x z : pystr * Q) l :
  In z (insert_desc Qle_bool x l) -> z = x \/ In z l.
Proof.
  induction l as [|y l IH]; simpl; [intuition|].
  destruct (Qle_bool (snd y) (snd x)); simpl; [intuition|].
  intros [->|H]; [right; now left | destruct (IH H); [now left | right; now right]].
Qed.

Lemma insert_desc_sorted x l :
  StronglySorted above l -> StronglySorted above (insert_desc Qle_bool x l).
Proof.
  induction 1 as [|y l Hs IH Hall]; simpl.
  - constructor; constructor.
  - destruct (Qle_bool (snd y) (snd x)) eqn:E.
    + apply Qle_bool_iff in E.
      constructor; [constructor; assumption|].
      constructor; [exact E|].
      eapply Forall_impl; [|exact Hall].
      intros z Hz; unfold above in *; eapply Qle_trans; eassumption.
    + constructor; [exact IH|].
      apply Forall_forall; intros z Hz.
      apply insert_desc_In in Hz as [->|Hz].
      * unfold above; apply Qlt_le_weak, Qnot_le_lt.
        intros H; apply Qle_bool_iff in H; congruence.
      * rewrite Forall_forall in Hall; apply Hall; exact Hz.
Qed.

Lemma sorted_desc_sorted l : StronglySorted above (sorted_desc Qle_bool l).
Proof.
  induction l as [|x l IH]; simpl; [constructor | apply insert_desc_sorted, IH].
Qed.

Lemma sorted_filter (f : pystr * Q -> bool) l :
  StronglySorted above l -> StronglySorted above (filter f l).
Proof.
  induction 1 as [|y l Hs IH Hall]; simpl; [constructor|].
  destruct (f y); [|exact IH].
  constructor; [exact IH|].
  apply Forall_forall; intros z Hz; apply filter_In in Hz as [Hz _].
  rewrite Forall_forall in Hall; apply Hall; exact Hz.
Qed.

Lemma sorted_descending l :
  StronglySorted above l -> descending (map snd l).
Proof.
  induction 1 as [|y l Hs IH Hall]; simpl; [exact I|].
  destruct l as [|z l]; simpl in *; [exact I|].
  split; [inversion Hall; assumption | exact IH].
Qed.

(** C5, amended.  After every points update the entries of the
    top-players document other than [end] are in descending order of
    value, equal values allowed. *)
Theorem tops_update_descending (now : Q) (spoints : Z) (pid : pystr)
        (loaded : list (pystr * Q)) :
  descending (board (fst (tops_update now spoints pid loaded))).
Proof.
  unfold tops_update, board; cbn [fst].
  apply sorted_descending, sorted_filter, sorted_desc_sorted.
Qed.

(** C5 as stated fails on a tie: a second player reaching the score of the
    first leaves two equal values next to each other. *)
Lemma tops_update_not_strict :
  let loaded := [(END, 100); (py "a", 12)] in
  board (fst (tops_update 0 12 (py "b") loaded)) = [12; 12] /\
  ~ strictly_descending (board (fst (tops_update 0 12 (py "b") loaded))).
Proof.
  intros loaded.
  assert (H : board (fst (tops_update 0 12 (py "b") loaded)) = [12; 12])
    by (vm_compute; reflexivity).
  split; [exact H|].
  rewrite H; simpl; intros [Hlt _]; revert Hlt; apply Qlt_irrefl.
Qed.

(* ================================================================= *)
(** ** The weekly league rollover *)

Lemma tier_cons_0 t ls : tier (t :: ls) 0 = keys t.
Proof. reflexivity. Qed.

Lemma tier_cons_S t ls j : tier (t :: ls) (S j) = tier ls j.
Proof. reflexivity. Qed.

Lemma tier_beyond ls j : (length ls <= j)%nat -> tier ls j = [].
Proof. intros H; unfold tier; rewrite nth_overflow by exact H; reflexivity. Qed.

Lemma tier_fresh j : tier (repeat [] 6) j = [].
Proof. do 6 (destruct j as [|j]; [reflexivity|]); destruct j; reflexivity. Qed.

Lemma new_tier_bound l lpi tlp : (l < 6 -> new_tier l lpi tlp < 6)%nat.
Proof.
  intros H; unfold new_tier.
  destruct (negb (l =? 0)%nat && _); [lia|].
  destruct (negb (l =? 5)%nat) eqn:E; simpl; [|lia].
  apply negb_true_iff, Nat.eqb_neq in E.
  destruct (Qltb _ _); lia.
Qed.

Lemma enter_tier_spec n : forall j p,
  (j < length n)%nat ->
  exists n', enter_tier n j p = Ret n' /\ length n' = length n /\
    forall i q, In q (tier n' i) <-> In q (tier n i) \/ (i = j /\ q = p).
Proof.
  induction n as [|t n IH]; intros j p Hj; simpl in Hj; [lia|].
  destruct j as [|j]; simpl.
  - eexists; split; [reflexivity|]; split; [reflexivity|].
    intros [|i] q; [rewrite !tier_cons_0, keys_dict_set | rewrite !tier_cons_S];
      intuition congruence.
  - destruct (IH j p ltac:(lia)) as (n' & -> & Hlen & Hin); simpl.
    eexists; split; [reflexivity|]; split; [simpl; congruence|].
    intros [|i] q; [rewrite !tier_cons_0 | rewrite !tier_cons_S, Hin];
      intuition congruence.
Qed.

Lemma place_players_spec l tlp : (l < 6)%nat ->
  forall lplrs lpi n, length n = 6%nat ->
  exists n', place_players l tlp lpi lplrs n = Ret n' /\ length n' = 6%nat /\
    forall i q, In q (tier n' i) <->
                In q (tier n i) \/
                exists k, nth_error lplrs k = Some q /\
                          new_tier l (lpi + k) tlp = i.
Proof.
  intros Hl; induction lplrs as [|p rest IH]; intros lpi n Hn; simpl.
  - exists n; split; [reflexivity|]; split; [exact Hn|].
    intros i q; split; [now left|].
    intros [H|(k & Hk & _)]; [exact H | destruct k; discriminate].
  - pose proof (new_tier_bound l lpi tlp Hl) as Hb.
    destruct (enter_tier_spec n (new_tier l lpi tlp) p ltac:(lia))
      as (n1 & -> & Hlen1 & Hin1); simpl.
    destruct (IH (S lpi) n1 ltac:(lia)) as (n' & -> & Hlen & Hin).
    exists n'; split; [reflexivity|]; split; [exact Hlen|].
    intros i q; rewrite Hin, Hin1; split.
    + intros [[H|[-> ->]]|(k & Hk & Hd)].
      * now left.
      * right; exists 0%nat; rewrite Nat.add_0_r; split; reflexivity.
      * right; exists (S k); split; [exact Hk|].
        rewrite <- Hd; f_equal; lia.
    + intros [H|(k & Hk & Hd)]; [left; now left|].
      destruct k as [|k]; simpl in Hk.
      * inversion Hk; subst; rewrite Nat.add_0_r; left; right; split; reflexivity.
      * right; exists k; split; [exact Hk|].
        rewrite <- Hd; f_equal; lia.
Qed.

Lemma place_leagues_spec : forall old l n,
  (l + length old <= 6)%nat -> length n = 6%nat ->
  exists n', place_leagues l old n = Ret n' /\ length n' = 6%nat /\
    forall i q, In q (tier n' i) <->
                In q (tier n i) \/
                exists l' k, nth_error (tier old l') k = Some q /\
                             new_tier (l + l') (S k) (length (tier old l')) = i.
Proof.
  induction old as [|lg rest IH]; intros l n Hl Hn; simpl in *.
  - exists n; split; [reflexivity|]; split; [exact Hn|].
    intros i q; split; [now left|].
    intros [H|(l' & k & Hk & _)]; [exact H|].
    rewrite tier_beyond in Hk by (simpl; lia); destruct k; discriminate.
  - destruct (place_players_spec l (length (keys lg)) ltac:(lia)
                                 (keys lg) 1%nat n Hn)
      as (n1 & -> & Hlen1 & Hin1); simpl.
    destruct (IH (S l) n1 ltac:(lia) Hlen1) as (n' & -> & Hlen & Hin).
    exists n'; split; [reflexivity|]; split; [exact Hlen|].
    intros i q; rewrite Hin, Hin1; split.
    + intros [[H|(k & Hk & Hd)]|(l' & k & Hk & Hd)].
      * now left.
      * right; exists 0%nat, k; rewrite tier_cons_0, Nat.add_0_r.
        split; assumption.
      * right; exists (S l'), k; rewrite tier_cons_S; split; [exact Hk|].
        rewrite <- Hd; f_equal; lia.
    + intros [H|(l' & k & Hk & Hd)]; [left; now left|].
      destruct l' as [|l'].
      * rewrite tier_cons_0 in Hk, Hd; rewrite Nat.add_0_r in Hd.
        left; right; exists k; split; assumption.
      * rewrite tier_cons_S in Hk, Hd.
        right; exists l', k; split; [exact Hk|].
        rewrite <- Hd; f_equal; lia.
Qed.

Lemma clear_tier_spec n : forall j,
  (j < length n)%nat ->
  exists n', clear_tier n j = Ret n' /\ length n' = length n /\
    tier n' j = [] /\ forall i, i <> j -> tier n' i = tier n i.
Proof.
  induction n as [|t n IH]; intros j Hj; simpl in Hj; [lia|].
  destruct j as [|j]; simpl.
  - eexists; split; [reflexivity|]; split; [reflexivity|].
    split; [reflexivity|]. intros [|i] Hi; [congruence | reflexivity].
  - destruct (IH j ltac:(lia)) as (n' & -> & Hlen & Hcl & Hoth); simpl.
    eexists; split; [reflexivity|]; split; [simpl; congruence|].
    split; [rewrite tier_cons_S; exact Hcl|].
    intros [|i] Hi; [reflexivity | rewrite !tier_cons_S; apply Hoth; lia].
Qed.

Lemma Qltb_true a b : Qltb a b = true <-> a < b.
Proof. exact (Qgtb_true b a). Qed.

(** The comparison of [lpi / tlp] with one half, in whole numbers. *)
Lemma new_tier_halves l lpi tlp :
  (0 < tlp)%nat ->
  new_tier l lpi tlp =
  if negb (l =? 0)%nat && (2 * lpi <? tlp)%nat then (l - 1)%nat
  else if negb (l =? 5)%nat && (tlp <? 2 * lpi)%nat then (l + 1)%nat
  else l.
Proof.
  intros Hpos; unfold new_tier.
  set (a := inject_Z (Z.of_nat lpi)); set (b := inject_Z (Z.of_nat tlp)).
  assert (Hb : 0 < b) by (unfold b, Qlt; simpl; lia).
  assert (H1 : Qltb (a / b) (1 # 2) = (2 * lpi <? tlp)%nat).
  { destruct (2 * lpi <? tlp)%nat eqn:E.
    - apply Nat.ltb_lt in E; apply Qltb_true, Qlt_shift_div_r; [exact Hb|].
      unfold a, b, Qlt, Qmult, inject_Z; cbn [Qnum Qden]; lia.
    - apply Nat.ltb_ge in E; apply not_true_is_false; intros H.
      apply Qltb_true in H; revert H; apply Qle_not_lt.
      apply Qle_shift_div_l; [exact Hb|].
      unfold a, b, Qle, Qmult, inject_Z; cbn [Qnum Qden]; lia. }
  assert (H2 : Qltb (1 # 2) (a / b) = (tlp <? 2 * lpi)%nat).
  { destruct (tlp <? 2 * lpi)%nat eqn:E.
    - apply Nat.ltb_lt in E; apply Qltb_true, Qlt_shift_div_l; [exact Hb|].
      unfold a, b, Qlt, Qmult, inject_Z; cbn [Qnum Qden]; lia.
    - apply Nat.ltb_ge in E; apply not_true_is_false; intros H.
      apply Qltb_true in H; revert H; apply Qle_not_lt.
      apply Qle_shift_div_r; [exact Hb|].
      unfold a, b, Qle, Qmult, inject_Z; cbn [Qnum Qden]; lia. }
  rewrite H1, H2; reflexivity.
Qed.

(** C4, amended.  For a leagues document of at most six tiers whose [end]
    lies in the past, the update first writes a document of exactly six
    tiers: the player at 1-based position [i] of the [n] players of old
    tier [l] is entered in tier [l - 1] when [l <> 0] and [i / n < 1/2], in
    tier [l + 1] when [l <> 5] and [i / n > 1/2], and in tier [l] otherwise
    (the two comparisons written in whole numbers, [2 * i < n] and
    [n < 2 * i]); tier 5 is then emptied, so tiers 0 to 4 hold exactly the
    players entered there and tier 5 ends empty.  When no id was in two old
    tiers, no id is in two tiers of the result.  The award of the update is
    then made in that document. *)
Theorem leagues_rollover_places (now : Q) (ld : leaguesdata) :
  lend ld < now ->
  (length (leagues ld) <= 6)%nat ->
  exists n,
    leagues_rollover now ld = Ret (Leagues (now + 604800) n) /\
    (forall spoints pid,
        leagues_update now spoints pid ld =
        (ls <- award_tier n (find_league 0 n pid) pid spoints ;;
         Ret (Leagues (now + 604800) ls))) /\
    length n = 6%nat /\
    tier n 5 = [] /\
    (forall j q, (j < 5)%nat ->
        (In q (tier n j) <->
         exists l k, nth_error (tier (leagues ld) l) k = Some q /\
           let i := S k in
           let m := length (tier (leagues ld) l) in
           j = if negb (l =? 0)%nat && (2 * i <? m)%nat then (l - 1)%nat
               else if negb (l =? 5)%nat && (m <? 2 * i)%nat then (l + 1)%nat
               else l)) /\
    ((forall l l' q, In q (tier (leagues ld) l) ->
                     In q (tier (leagues ld) l') -> l = l') ->
     (forall l, NoDup (tier (leagues ld) l)) ->
     forall j j' q, In q (tier n j) -> In q (tier n j') -> j = j').
Proof.
  intros Hend Hsix.
  destruct (place_leagues_spec (leagues ld) 0 (repeat [] 6)
                               ltac:(simpl; lia) eq_refl)
    as (n1 & Hplace & Hlen1 & Hin1).
  destruct (clear_tier_spec n1 5 ltac:(lia)) as (n & Hclear & Hlen & Hfive & Hoth).
  assert (Hroll : leagues_rollover now ld = Ret (Leagues (now + 604800) n))
    by (unfold leagues_rollover; rewrite Hplace; simpl; rewrite Hclear;
        reflexivity).
  assert (Hin : forall j q, (j < 5)%nat ->
             (In q (tier n j) <->
              exists l k, nth_error (tier (leagues ld) l) k = Some q /\
                let i := S k in
                let m := length (tier (leagues ld) l) in
                j = if negb (l =? 0)%nat && (2 * i <? m)%nat then (l - 1)%nat
                    else if negb (l =? 5)%nat && (m <? 2 * i)%nat
                         then (l + 1)%nat
                    else l)).
  { intros j q Hj; rewrite Hoth by lia; rewrite Hin1, tier_fresh; cbv zeta.
    assert (Hpos : forall l k, nth_error (tier (leagues ld) l) k = Some q ->
                               (0 < length (tier (leagues ld) l))%nat).
    { intros l k Hk.
      assert (k < length (tier (leagues ld) l))%nat
        by (apply nth_error_Some; congruence).
      lia. }
    split.
    - intros [[]|(l & k & Hk & Hd)]; exists l, k; split; [exact Hk|].
      rewrite <- Hd; apply new_tier_halves; exact (Hpos l k Hk).
    - intros (l & k & Hk & Hd); right; exists l, k; split; [exact Hk|].
      rewrite Hd; apply new_tier_halves; exact (Hpos l k Hk). }
  exists n; split; [exact Hroll|]; split; [|split; [lia|split; [exact Hfive|]]].
  - intros spoints pid; unfold leagues_update.
    rewrite (proj2 (Qltb_true _ _) Hend), Hroll; reflexivity.
  - split; [exact Hin|].
    intros Hone Hnd j j' q Hj Hj'.
    assert (Hlt : forall i, In q (tier n i) -> (i < 5)%nat).
    { intros i Hi. destruct (Nat.lt_ge_cases i 5) as [H|H]; [exact H|].
      destruct (Nat.eq_dec i 5) as [->|Hne];
        [rewrite Hfive in Hi; destruct Hi|].
      rewrite tier_beyond in Hi by lia; destruct Hi. }
    apply (Hin j q (Hlt j Hj)) in Hj as (l & k & Hk & Hd).
    apply (Hin j' q (Hlt j' Hj')) in Hj' as (l' & k' & Hk' & Hd').
    assert (l = l') by (eapply Hone; eapply nth_error_In; eassumption).
    subst l'.
    assert (k = k').
    { apply (proj1 (NoDup_nth_error _) (Hnd l)); [|congruence].
      apply nth_error_Some; congruence. }
    subst k'; congruence.
Qed.

Lemma leagues_rollover_witness :
  let old := [[]; []; [(py "a", 5%Z); (py "b", 3%Z); (py "c", 1%Z)];
              []; [(py "d", 2%Z)]; []] in
  let new := [[]; [(py "a", 0%Z)]; []; [(py "b", 0%Z); (py "c", 0%Z)];
              []; []] in
  0 < 10 /\ (length old <= 6)%nat /\
  leagues_rollover 10 (Leagues 0 old) = Ret (Leagues (10 + 604800) new) /\
  exists n,
    leagues_rollover 10 (Leagues 0 old) = Ret (Leagues (10 + 604800) n) /\
    (forall spoints pid,
        leagues_update 10 spoints pid (Leagues 0 old) =
        (ls <- award_tier n (find_league 0 n pid) pid spoints ;;
         Ret (Leagues (10 + 604800) ls))) /\
    length n = 6%nat /\
    tier n 5 = [] /\
    (forall j q, (j < 5)%nat ->
        (In q (tier n j) <->
         exists l k, nth_error (tier old l) k = Some q /\
           let i := S k in
           let m := length (tier old l) in
           j = if negb (l =? 0)%nat && (2 * i <? m)%nat then (l - 1)%nat
               else if negb (l =? 5)%nat && (m <? 2 * i)%nat then (l + 1)%nat
               else l)) /\
    ((forall l l' q, In q (tier old l) -> In q (tier old l') -> l = l') ->
     (forall l, NoDup (tier old l)) ->
     forall j j' q, In q (tier n j) -> In q (tier n j') -> j = j').
Proof.
  intros old new.
  assert (H1 : 0 < 10) by reflexivity.
  assert (H2 : (length old <= 6)%nat) by (cbv; lia).
  assert (H3 : leagues_rollover 10 (Leagues 0 old)
               = Ret (Leagues (10 + 604800) new)) by reflexivity.
  exact (conj H1 (conj H2 (conj H3
           (leagues_rollover_places 10 (Leagues 0 old) H1 H2)))).
Defined.

(** C4 as stated fails on a tier of two: the first of the two players of
    tier 2 is in the top half, and stays in tier 2 instead of moving to
    tier 1 (the quotient 1/2 is neither below nor above one half).  Read
    with tier 5 as the top, the claim sends the same player to tier 1 as
    the bottom half of tier 2, and fails alike. *)
Lemma leagues_rollover_not_by_halves :
  let old := [[]; []; [(py "a", 5%Z); (py "b", 3%Z)]; []; []; []] in
  let new := [[]; []; [(py "a", 0%Z)]; [(py "b", 0%Z)]; []; []] in
  leagues_rollover 10 (Leagues 0 old) = Ret (Leagues (10 + 604800) new) /\
  ~ claimed_rollover old new.
Proof.
  intros old new; split; [vm_compute; reflexivity|].
  intros (_ & _ & Htop & _).
  specialize (Htop 2%nat 0%nat (py "a") ltac:(discriminate) eq_refl
                   ltac:(cbv; lia)).
  destruct Htop.
Qed.

(* ================================================================= *)
(** * Further properties of the store *)

Section StoreFacts.
Variable py_float : pystr -> option Q.
Variable now : Q.

Local Notation "'upd'" := (_update py_float now).
Local Notation "'settled'" := (settled py_float now).

Lemma update_str_live s a :
  _update_str py_float now s = Ret a ->
  (a = JStr s /\ live py_float now s) \/ a = JNull.
Proof.
  unfold _update_str, live; intros H.
  destruct (length (split SEP s) =? 1)%nat eqn:El; simpl in H.
  - inversion H; left; split; [reflexivity|]; left; apply Nat.eqb_eq; exact El.
  - destruct (py_float (nth 1 (split SEP s) [])) as [dl|] eqn:Ef; [|discriminate].
    destruct (Qgtb now dl) eqn:Eg; inversion H; [now right|].
    left; split; [reflexivity|]; right; exists dl; split; [reflexivity|].
    apply Qgtb_false; exact Eg.
Qed.

Lemma live_kept s : live py_float now s -> _update_str py_float now s = Ret (JStr s).
Proof.
  unfold _update_str, live; intros [H|(dl & Hf & Hle)].
  - rewrite H; reflexivity.
  - destruct (negb (length (split SEP s) =? 1)%nat); [|reflexivity].
    rewrite Hf, (proj2 (Qgtb_false now dl) Hle); reflexivity.
Qed.

(** X1. What the normalizer returns is clean: at every depth each string
    value is live at [now], no list element or dict value is [None], and
    dict keys are distinct. *)
Theorem update_result_clean (D D' : json) :
  upd D = Ret D' -> clean py_float now D'.
Proof.
  revert D'; induction D as [| | | |s|l IH|d IH] using json_ind;
    intros D' HD; simpl in HD;
    try (inversion HD; subst; apply clean_atomic; reflexivity).
  - destruct (update_str_live _ _ HD) as [[-> Hl]| ->];
      [apply clean_str; exact Hl | apply clean_atomic; reflexivity].
  - destruct (_update_list_loop upd l []) as [r|x] eqn:El; simpl in HD;
      [|discriminate].
    inversion HD; subst D'.
    assert (H : Forall (fun e => clean py_float now e /\ is_null e = false) r).
    { eapply list_loop_result; [|constructor|exact El].
      eapply Forall_impl; [|exact IH].
      intros e He e' He' Hn; split; [apply He; exact He' | exact Hn]. }
    apply clean_list; eapply Forall_impl; try exact H; simpl; tauto.
  - destruct (_update_dict_loop upd d []) as [r|x] eqn:Ed; simpl in HD;
      [|discriminate].
    inversion HD; subst D'.
    assert (H : Forall (fun kv => clean py_float now (snd kv) /\
                                  is_null (snd kv) = false) r /\
                NoDup (keys r)).
    { eapply (dict_loop_result py_float now
                (fun v => clean py_float now v /\ is_null v = false));
        [|constructor|constructor|exact Ed].
      eapply Forall_impl; [|exact IH].
      intros kv He v' Hv' Hn; split; [apply He; exact Hv' | exact Hn]. }
    destruct H as [H Hnd].
    apply clean_dict; [exact Hnd| |]; apply Forall_map;
      (eapply Forall_impl; [|exact H]); simpl; tauto.
Qed.

(** X2. A clean document is a fixed point: the normalizer returns it as it
    is, without raising. *)
Theorem clean_is_fixed_point (D : json) :
  clean py_float now D -> upd D = Ret D.
Proof.
  induction D as [| | | |s|l IH|d IH] using json_ind; intros Hc;
    try reflexivity.
  - inversion Hc as [v Hv| s' Hl| |]; subst; [discriminate|].
    simpl; apply live_kept; exact Hl.
  - inversion Hc as [v Hv| |l' Hcl Hnn|]; subst; [discriminate|].
    assert (Hs : Forall settled l).
    { clear Hc. induction l as [|e l IHl]; constructor;
        inversion IH; inversion Hcl; inversion Hnn; subst.
      - split; [auto | assumption].
      - apply IHl; assumption. }
    simpl; rewrite (list_loop_settled py_float now l [] Hs); reflexivity.
  - inversion Hc as [v Hv| | |d' Hnd Hcl Hnn]; subst; [discriminate|].
    assert (Hs : Forall (fun kv => settled (snd kv)) d).
    { clear Hc Hnd. induction d as [|kv d IHd]; constructor;
        inversion IH; inversion Hcl; inversion Hnn; subst.
      - split; [auto | assumption].
      - apply IHd; assumption. }
    simpl; rewrite (dict_loop_settled py_float now d [] Hs Hnd); reflexivity.
Qed.

(** X3. Write then load: without normalization [load] hands back the
    document written; with normalization it hands back the normalized
    document and leaves it in the file; files at other paths are not
    touched by either. *)
Theorem write_then_load (fs : files) (gorl : pystr) (D : json) :
  load py_float now (write fs gorl D) gorl [] false
  = (Ret D, write fs gorl D) /\
  (forall D', upd D = Ret D' ->
     fst (load py_float now (write fs gorl D) gorl [] true) = Ret D' /\
     snd (load py_float now (write fs gorl D) gorl [] true) gorl = Some D') /\
  (forall q u, q <> gorl ->
     snd (load py_float now (write fs gorl D) gorl [] u) q = fs q).
Proof.
  assert (Hw : write fs gorl D gorl = Some D)
    by (unfold write; rewrite pystr_eqb_refl; reflexivity).
  split; [unfold load; rewrite Hw; reflexivity|]; split.
  - intros D' HD; unfold load; rewrite Hw, HD; simpl; split; [reflexivity|].
    unfold write; rewrite pystr_eqb_refl; reflexivity.
  - intros q u Hq. apply pystr_eqb_neq in Hq.
    unfold load; rewrite Hw. destruct u; simpl.
    + destruct (upd D); simpl; unfold write; rewrite ?Hq; reflexivity.
    + unfold write; rewrite Hq; reflexivity.
Qed.

(** X4. Self-healing settles at once: after one successful normalizing
    [load], a second one at the same clock reading returns the same value
    and leaves every file as the first one left it. *)
Theorem second_load_changes_nothing (fs : files) (gorl : pystr)
        (args : list pystr) (D D' : json) :
  fs gorl = Some D -> upd D = Ret D' ->
  let first := load py_float now fs gorl args true in
  let second := load py_float now (snd first) gorl args true in
  fst second = fst first /\ forall q, snd second q = snd first q.
Proof.
  intros Hfs HD.
  assert (H1 : load py_float now fs gorl args true
               = (drill D' args, write fs gorl D'))
    by (unfold load; rewrite Hfs, HD; reflexivity).
  assert (Hw : write fs gorl D' gorl = Some D')
    by (unfold write; rewrite pystr_eqb_refl; reflexivity).
  assert (H2 : load py_float now (write fs gorl D') gorl args true
               = (drill D' args, write (write fs gorl D') gorl D')).
  { unfold load; rewrite Hw, (update_settles py_float now D D' HD).
    reflexivity. }
  cbv zeta; rewrite H1; cbn [fst snd]; rewrite H2; cbn [fst snd].
  split; [reflexivity|]; intros q; unfold write.
  destruct (pystr_eqb q gorl); reflexivity.
Qed.

Lemma drill_blocked a args : blocked a args -> drill a args = Raise TypeError.
Proof.
  induction 1 as [v x rest Hv|d x v rest Hg _ IH]; simpl.
  - destruct v; try reflexivity. exfalso; eapply Hv; reflexivity.
  - rewrite Hg; exact IH.
Qed.

(** X5. Only a missing dict key is forgiven: when the drill-down reaches a
    value that is not a dict while keys remain, [load] raises [TypeError]
    (after the normalized document was written back, when normalization is
    on). *)
Theorem load_through_non_dict_raises (fs : files) (gorl : pystr)
        (args : list pystr) (update : bool) (D D' : json) :
  fs gorl = Some D ->
  (if update then upd D else Ret D) = Ret D' ->
  blocked D' args ->
  load py_float now fs gorl args update =
  (Raise TypeError, if update then write fs gorl D' else fs).
Proof.
  intros Hfs Hn Hb; unfold load; rewrite Hfs; destruct update.
  - rewrite Hn, (drill_blocked _ _ Hb); reflexivity.
  - inversion Hn; subst; rewrite (drill_blocked _ _ Hb); reflexivity.
Qed.
End StoreFacts.

Lemma update_result_clean_witness :
  let D := JDict [(py "items",
                   JList [JStr (py "vip@other" ++ SEP :: py "10");
                          JStr (py "hat@head"); JNull])] in
  let D' := JDict [(py "items", JList [JStr (py "hat@head")])] in
  _update decimal_float 50 D = Ret D' /\ clean decimal_float 50 D'.
Proof.
  intros D D'.
  assert (H : _update decimal_float 50 D = Ret D') by reflexivity.
  exact (conj H (update_result_clean decimal_float 50 D D' H)).
Defined.

Lemma clean_is_fixed_point_witness :
  let D := JDict [(py "items",
                   JList [JStr (py "vip@other" ++ SEP :: py "100")])] in
  clean decimal_float 50 D /\ _update decimal_float 50 D = Ret D.
Proof.
  intros D.
  assert (H : clean decimal_float 50 D).
  { apply clean_dict; simpl.
    - constructor; [intros [] | constructor].
    - constructor; [|constructor]. apply clean_list.
      + constructor; [|constructor].
        apply clean_str; right; exists 100; split; [reflexivity|].
        unfold Qle; simpl; lia.
      + constructor; [reflexivity | constructor].
    - constructor; [reflexivity | constructor]. }
  exact (conj H (clean_is_fixed_point decimal_float 50 D H)).
Defined.

Lemma second_load_witness :
  let D := JList [JStr (py "a" ++ SEP :: py "10"); JInt 3] in
  let fs := write (fun _ => None) (py "gstats/pb-1") D in
  fs (py "gstats/pb-1") = Some D /\
  _update decimal_float 50 D = Ret (JList [JInt 3]) /\
  fst (load decimal_float 50
            (snd (load decimal_float 50 fs (py "gstats/pb-1") [] true))
            (py "gstats/pb-1") [] true)
  = fst (load decimal_float 50 fs (py "gstats/pb-1") [] true).
Proof.
  intros D fs.
  assert (H1 : fs (py "gstats/pb-1") = Some D) by reflexivity.
  assert (H2 : _update decimal_float 50 D = Ret (JList [JInt 3]))
    by reflexivity.
  exact (conj H1 (conj H2
    (proj1 (second_load_changes_nothing decimal_float 50 fs
              (py "gstats/pb-1") [] D (JList [JInt 3]) H1 H2)))).
Defined.

Lemma load_through_non_dict_witness :
  let D := JDict [(py "lang", JNull)] in
  let fs := write (fun _ => None) (py "gstats/pb-1") D in
  blocked D [py "lang"; py "x"] /\
  load decimal_float 0 fs (py "gstats/pb-1") [py "lang"; py "x"] false
  = (Raise TypeError, fs).
Proof.
  intros D fs.
  assert (H : blocked D [py "lang"; py "x"]).
  { eapply blocked_below; [reflexivity|].
    apply blocked_here; intros d; discriminate. }
  exact (conj H
    (load_through_non_dict_raises decimal_float 0 fs (py "gstats/pb-1")
       [py "lang"; py "x"] false D D eq_refl eq_refl H)).
Defined.

(** ** Normalizing at two clock readings *)

Lemma dict_loop_keys f d : forall acc r,
  _update_dict_loop f d acc = Ret r ->
  forall k, In k (keys r) -> In k (keys acc) \/ In k (keys d).
Proof.
  induction d as [|[k0 v0] d IH]; intros acc r Hr k Hk; simpl in Hr.
  - inversion Hr; subst; now left.
  - destruct (f v0) as [v0'|x]; simpl in Hr; [|discriminate].
    destruct (IH _ _ Hr k Hk) as [H|H]; [|right; now right].
    destruct (is_null v0'); [now left|].
    apply keys_dict_set in H as [H| ->]; [now left | right; now left].
Qed.

(** With keys that are new to the accumulator, the dict loop appends. *)
Lemma dict_loop_fresh f d : forall acc,
  NoDup (keys acc ++ keys d) ->
  _update_dict_loop f d acc =
  (r <- _update_dict_loop f d [] ;; Ret (acc ++ r)).
Proof.
  induction d as [|[k v] d IH]; intros acc Hnd; simpl.
  - rewrite app_nil_r; reflexivity.
  - simpl in Hnd.
    pose proof (NoDup_remove_1 _ _ _ Hnd) as Hnd1.
    pose proof (NoDup_remove_2 _ _ _ Hnd) as Hk.
    destruct (f v) as [v'|x]; simpl; [|reflexivity].
    destruct (is_null v').
    + rewrite (IH acc Hnd1).
      destruct (_update_dict_loop f d []); reflexivity.
    + rewrite dict_set_fresh
        by (intros H; apply Hk; apply in_or_app; now left).
      rewrite (IH (acc ++ [(k, v')])), (IH [(k, v')]).
      * destruct (_update_dict_loop f d []); simpl; [|reflexivity].
        rewrite <- app_assoc; reflexivity.
      * simpl; constructor; [|eapply NoDup_app_remove_l; exact Hnd1].
        intros H; apply Hk; apply in_or_app; now right.
      * unfold keys in *; rewrite map_app, <- app_assoc; exact Hnd.
Qed.

Section TwoReadings.
Variable py_float : pystr -> option Q.
Variables t1 t2 : Q.
Hypothesis Hle : t1 <= t2.

Local Notation "'upd1'" := (_update py_float t1).
Local Notation "'upd2'" := (_update py_float t2).

Lemma update_str_later s a :
  _update_str py_float t1 s = Ret a ->
  upd2 a = _update_str py_float t2 s.
Proof.
  unfold _update_str at 1; intros H.
  destruct (negb (length (split SEP s) =? 1)%nat) eqn:El.
  - destruct (py_float (nth 1 (split SEP s) [])) as [dl|] eqn:Ef;
      [|discriminate].
    destruct (Qgtb t1 dl) eqn:Eg; inversion H; subst a; [|reflexivity].
    simpl; unfold _update_str; rewrite El, Ef.
    apply Qgtb_true in Eg.
    rewrite (proj2 (Qgtb_true t2 dl) (Qlt_le_trans _ _ _ Eg Hle)).
    reflexivity.
  - inversion H; subst a; reflexivity.
Qed.

(** X6. An earlier normalization does not change what a later one returns:
    for a document with distinct keys and clock readings [t1 <= t2],
    normalizing at [t2] the document normalized at [t1] gives what
    normalizing the original at [t2] gives. *)
Theorem update_earlier_then_later (D D1 : json) :
  distinct_keys D -> upd1 D = Ret D1 -> upd2 D1 = upd2 D.
Proof.
  revert D1; induction D as [| | | |s|l IH|d IH] using json_ind;
    intros D1 Hd H1; simpl in H1;
    try (inversion H1; subst; reflexivity).
  - apply update_str_later; exact H1.
  - inversion Hd as [v Hv| |l' Hdl|]; subst; [discriminate|].
    assert (Hl : forall r1, _update_list_loop upd1 l [] = Ret r1 ->
                   _update_list_loop upd2 r1 [] = _update_list_loop upd2 l []).
    { clear H1 Hd. induction l as [|e l IHl]; intros r1 Hr; simpl in Hr.
      - inversion Hr; reflexivity.
      - inversion IH as [|? ? He IH']; inversion Hdl as [|? ? Hde Hdl']; subst.
        destruct (upd1 e) as [e1|x] eqn:E1; simpl in Hr; [|discriminate].
        rewrite list_loop_acc in Hr.
        destruct (_update_list_loop upd1 l []) as [r'|x] eqn:El;
          simpl in Hr; [|discriminate].
        inversion Hr; subst r1; clear Hr.
        pose proof (He e1 Hde eq_refl) as He2.
        pose proof (IHl IH' Hdl' r' eq_refl) as IHr.
        simpl. destruct (is_null e1) eqn:En.
        + destruct e1; try discriminate. simpl in He2.
          rewrite <- He2; simpl. exact IHr.
        + simpl. rewrite He2. destruct (upd2 e) as [e2|x]; simpl; [|reflexivity].
          rewrite (list_loop_acc upd2 r'), (list_loop_acc upd2 l), IHr.
          reflexivity. }
    destruct (_update_list_loop upd1 l []) as [r1|x] eqn:El; simpl in H1;
      [|discriminate].
    inversion H1; subst D1; simpl; rewrite (Hl r1 eq_refl); reflexivity.
  - inversion Hd as [v Hv| | |d' Hnd Hdl]; subst; [discriminate|].
    assert (Hl : forall r1, _update_dict_loop upd1 d [] = Ret r1 ->
                   _update_dict_loop upd2 r1 [] = _update_dict_loop upd2 d []).
    { clear H1 Hd. induction d as [|[k v] d IHd]; intros r1 Hr; simpl in Hr.
      - inversion Hr; reflexivity.
      - inversion IH as [|? ? He IH']; simpl in Hdl, Hnd.
        inversion Hdl as [|? ? Hde Hdl']; inversion Hnd as [|? ? Hk Hnd'];
          subst. simpl in He.
        destruct (upd1 v) as [v1|x] eqn:E1; simpl in Hr; [|discriminate].
        pose proof (He v1 Hde eq_refl) as He2.
        assert (Hacc : NoDup (keys (if is_null v1 then []
                                    else [(k, v1)]) ++ keys d)).
        { destruct (is_null v1); simpl; [exact Hnd'|].
          constructor; assumption. }
        rewrite (dict_loop_fresh upd1 d _ Hacc) in Hr.
        destruct (_update_dict_loop upd1 d []) as [r'|x] eqn:El;
          simpl in Hr; [|discriminate].
        inversion Hr; subst r1; clear Hr.
        pose proof (IHd IH' Hnd' Hdl' r' eq_refl) as IHr.
        assert (Hsub : forall q, In q (keys r') -> In q (keys d)).
        { intros q Hq. destruct (dict_loop_keys upd1 d [] r' El q Hq) as [[]|H].
          exact H. }
        assert (Hndr : NoDup (keys r')).
        { eapply (dict_loop_result py_float t1 (fun _ => True));
            [|constructor|constructor|exact El].
          apply Forall_forall; intros; exact I. }
        simpl. destruct (is_null v1) eqn:En.
        + destruct v1; try discriminate. simpl in He2.
          rewrite <- He2; simpl. exact IHr.
        + simpl. rewrite He2. destruct (upd2 v) as [v2|x]; simpl; [|reflexivity].
          assert (Hf : forall l0 : list (pystr * json), NoDup (keys l0) ->
                         (forall q, In q (keys l0) -> In q (keys d)) ->
                         NoDup (keys (if is_null v2 then []
                                      else [(k, v2)]) ++ keys l0)).
          { intros l0 Hn0 Hs0. destruct (is_null v2); simpl; [exact Hn0|].
            change (NoDup (k :: keys l0)).
            constructor; [intros H; apply Hk, Hs0, H | exact Hn0]. }
          rewrite (dict_loop_fresh upd2 r' _ (Hf r' Hndr Hsub)).
          rewrite (dict_loop_fresh upd2 d _ (Hf d Hnd' (fun q H => H))).
          rewrite IHr; reflexivity. }
    destruct (_update_dict_loop upd1 d []) as [r1|x] eqn:El; simpl in H1;
      [|discriminate].
    inversion H1; subst D1; simpl; rewrite (Hl r1 eq_refl); reflexivity.
Qed.
End TwoReadings.

Lemma write_then_load_witness :
  let D := JList [JStr (py "a" ++ SEP :: py "10"); JInt 3] in
  _update decimal_float 50 D = Ret (JList [JInt 3]) /\
  fst (load decimal_float 50 (write (fun _ => None) (py "stops") D)
            (py "stops") [] true) = Ret (JList [JInt 3]).
Proof.
  intros D.
  assert (H : _update decimal_float 50 D = Ret (JList [JInt 3]))
    by reflexivity.
  exact (conj H
    (proj1 (proj1 (proj2 (write_then_load decimal_float 50 (fun _ => None)
                            (py "stops") D)) (JList [JInt 3]) H))).
Defined.

Lemma update_earlier_then_later_witness :
  let D := JList [JStr (py "a" ++ SEP :: py "10");
                  JStr (py "b" ++ SEP :: py "60")] in
  let D1 := JList [JStr (py "b" ++ SEP :: py "60")] in
  20 <= 50 /\ distinct_keys D /\ _update decimal_float 20 D = Ret D1 /\
  _update decimal_float 50 D1 = _update decimal_float 50 D.
Proof.
  intros D D1.
  assert (H1 : 20 <= 50) by (unfold Qle; simpl; lia).
  assert (H2 : distinct_keys D)
    by (apply distinct_list; repeat constructor).
  assert (H3 : _update decimal_float 20 D = Ret D1) by reflexivity.
  exact (conj H1 (conj H2 (conj H3
    (update_earlier_then_later decimal_float 20 50 H1 D D1 H2 H3)))).
Defined.

(* ================================================================= *)
(** * Ranks: rankint, promote, demote, leave *)

Lemma rankint_of_number z :
  (0 <= z <= 3)%Z ->
  exists s, In s RANKS /\ rankint (RankInt z) = Ret (RankStr s) /\
            rankint (RankStr s) = Ret (RankInt z).
Proof.
  intros Hz.
  assert (H : z = 0%Z \/ z = 1%Z \/ z = 2%Z \/ z = 3%Z) by lia.
  destruct H as [-> | [-> | [-> | ->]]]; eexists;
    (split; [|split; reflexivity]); simpl; tauto.
Qed.

Lemma rankint_of_name s r :
  rankint (RankStr s) = Ret r ->
  exists z, r = RankInt z /\ (0 <= z <= 3)%Z /\ In s RANKS /\
            rankint (RankInt z) = Ret (RankStr s).
Proof.
  intros H; unfold rankint in H.
  destruct (pystr_eqb s (py "owner")) eqn:E3;
    [|destruct (pystr_eqb s (py "co-owner")) eqn:E2;
      [|destruct (pystr_eqb s (py "recruiter")) eqn:E1;
        [|destruct (pystr_eqb s (py "member")) eqn:E0; [|discriminate]]]];
    inversion H; subst r;
    match goal with
    | E : pystr_eqb s _ = true |- _ => apply pystr_eqb_eq in E; subst s
    end;
    eexists; (split; [reflexivity|]); (split; [lia|]);
    (split; [simpl; tauto | reflexivity]).
Qed.

Lemma rankint_other_number z :
  ~ (0 <= z <= 3)%Z -> rankint (RankInt z) = Raise TypeError.
Proof.
  intros Hz; unfold rankint.
  destruct (Z.eqb_spec z 3); [lia|]. destruct (Z.eqb_spec z 2); [lia|].
  destruct (Z.eqb_spec z 1); [lia|]. destruct (Z.eqb_spec z 0); [lia|].
  reflexivity.
Qed.

(** X7. [rankint] is its own inverse on the four ranks: a number from 0 to
    3 goes to a name that goes back to it, and a name that is accepted goes
    to a number from 0 to 3 that goes back to it.  Any other number raises
    [TypeError], any other string [ValueError]. *)
Theorem rankint_round_trip :
  (forall z, (0 <= z <= 3)%Z ->
     exists s, In s RANKS /\ rankint (RankInt z) = Ret (RankStr s) /\
               rankint (RankStr s) = Ret (RankInt z)) /\
  (forall s r, rankint (RankStr s) = Ret r ->
     exists z, r = RankInt z /\ (0 <= z <= 3)%Z /\ In s RANKS /\
               rankint (RankInt z) = Ret (RankStr s)) /\
  (forall z, ~ (0 <= z <= 3)%Z -> rankint (RankInt z) = Raise TypeError) /\
  (forall s, ~ In s RANKS -> rankint (RankStr s) = Raise ValueError).
Proof.
  split; [exact rankint_of_number|].
  split; [exact rankint_of_name|].
  split; [exact rankint_other_number|].
  intros s Hs; unfold rankint, RANKS in *; simpl in Hs.
  rewrite !(proj2 (pystr_eqb_neq _ _)); [reflexivity| | | |];
    intros ->; tauto.
Qed.

Lemma rank_number_spec s z :
  rank_number s = Ret z ->
  (0 <= z <= 3)%Z /\ In s RANKS /\ rank_name z = Ret s /\
  (z = 3%Z <-> s = py "owner") /\ (z = 0%Z <-> s = py "member").
Proof.
  unfold rank_number; intros H.
  destruct (rankint (RankStr s)) as [r|e] eqn:E; simpl in H; [|discriminate].
  destruct (rankint_of_name s r E) as (z' & Hr & Hz & Hin & Hback).
  subst r; inversion H; subst z'.
  split; [exact Hz|]; split; [exact Hin|]; split;
    [unfold rank_name; rewrite Hback; reflexivity|].
  simpl in Hin; destruct Hin as [<-|[<-|[<-|[<-|[]]]]];
    vm_compute in E; inversion E; subst; split; split;
      intros; try reflexivity; try discriminate.
Qed.

Lemma rank_name_spec z s :
  rank_name z = Ret s -> rank_number s = Ret z.
Proof.
  unfold rank_name; intros H.
  destruct (rankint (RankInt z)) as [r|e] eqn:E; simpl in H; [|discriminate].
  destruct r as [|s']; [discriminate|]; inversion H; subst s'.
  destruct (Z_le_dec 0 z) as [H0|H0]; [destruct (Z_le_dec z 3) as [H3|H3]|].
  - destruct (rankint_of_number z (conj H0 H3)) as (s' & _ & Hs & Hb).
    rewrite E in Hs; inversion Hs; subst s'.
    unfold rank_number; rewrite Hb; reflexivity.
  - rewrite (rankint_other_number z) in E by lia.
    discriminate.
  - rewrite (rankint_other_number z) in E by lia.
    discriminate.
Qed.

Lemma keys_dict_set_present V (d : list (pystr * V)) k v old :
  dict_get d k = Some old -> keys (dict_set d k v) = keys d.
Proof.
  induction d as [|[k0 v0] d IH]; simpl; [discriminate|].
  destruct (pystr_eqb k k0) eqn:E; intros H; simpl; [reflexivity|].
  f_equal; apply IH; exact H.
Qed.

Lemma ownercount_cons k r m :
  ownercount ((k, r) :: m) = (is_owner r + ownercount m)%nat.
Proof.
  unfold ownercount, is_owner; simpl.
  destruct (pystr_eqb r (py "owner")); reflexivity.
Qed.

Lemma ownercount_dict_set m k v old :
  dict_get m k = Some old ->
  (ownercount (dict_set m k v) + is_owner old
   = ownercount m + is_owner v)%nat.
Proof.
  induction m as [|[k0 v0] m IH]; simpl; [discriminate|].
  destruct (pystr_eqb k k0) eqn:E; intros H.
  - inversion H; subst v0; rewrite !ownercount_cons; lia.
  - rewrite !ownercount_cons; specialize (IH H); lia.
Qed.

Lemma dict_pop_absent {V} (m : list (pystr * V)) k :
  ~ In k (keys m) -> dict_pop m k = m.
Proof.
  induction m as [|[k0 v0] m IH]; simpl; intros H; [reflexivity|].
  destruct (pystr_eqb k0 k) eqn:E;
    [apply pystr_eqb_eq in E; subst; tauto|].
  simpl; f_equal; apply IH; tauto.
Qed.

Lemma ownercount_dict_pop m k old :
  NoDup (keys m) -> dict_get m k = Some old ->
  (ownercount (dict_pop m k) + is_owner old = ownercount m)%nat.
Proof.
  induction m as [|[k0 v0] m IH]; simpl; intros Hnd H; [discriminate|].
  inversion Hnd as [|? ? Hn Hd]; subst.
  rewrite (pystr_eqb_sym k0 k).
  destruct (pystr_eqb k k0) eqn:E; simpl.
  - apply pystr_eqb_eq in E; subst k0; inversion H; subst v0.
    change (filter _ m) with (dict_pop m k).
    rewrite (dict_pop_absent m k Hn), ownercount_cons; lia.
  - change (filter _ m) with (dict_pop m k).
    rewrite !ownercount_cons; specialize (IH Hd H); lia.
Qed.

Section RankFacts.
Variable py_int : pystr -> option Z.

Ltac stage H x Hx :=
  match type of H with
  | context [bind ?m _] =>
      let e := fresh "e" in
      destruct m as [x|e] eqn:Hx; cbn [bind] in H;
      [|destruct e; discriminate]
  end.

Lemma member_rank_Some m pid theirs :
  member_rank m pid = Ret theirs ->
  exists k, pid = Some k /\ dict_get m k = Some theirs.
Proof.
  unfold member_rank; destruct pid as [k|]; [|discriminate].
  destruct (dict_get m k) as [r|] eqn:E; [|discriminate].
  intros H; inversion H; subst; exists k; split; [reflexivity | exact E].
Qed.

Lemma promote_saved
      (msg_splits : list pystr) (spid : pystr) (p : plrdata)
      (aid : pystr) (a : alliance) (nlist : list pystr)
      (notes : list note) (p' : plrdata)
      (w : option (pystr * alliance)) (names : option (list pystr)) :
  alliance_promote py_int msg_splits spid p (Some (aid, a)) nlist
  = Saved notes p' w names ->
  exists k mine theirs new rme rt,
    dict_get (members a) spid = Some mine /\ rank_number mine = Ret rme /\
    dict_get (members a) k = Some theirs /\ rank_number theirs = Ret rt /\
    (rt < rme)%Z /\ rank_name (rt + 1) = Ret new /\ p' = p /\
    w = Some (aid, Alliance (aname a) (dict_set (members a) k new)
                            (invref a) (public a)).
Proof.
  intros H; unfold alliance_promote in H.
  destruct (dict_get (members a) spid) as [mine|] eqn:Hme; [|discriminate].
  destruct (pystr_eqb mine (py "member")); [discriminate|].
  stage H pid Hpid. stage H rme Hrme. stage H theirs Hth. stage H rt Hrt.
  destruct (rme <=? rt)%Z eqn:Hcmp in H; [discriminate|].
  stage H new Hnew. inversion H; subst; clear H.
  destruct (member_rank_Some _ _ _ Hth) as (k & -> & Hk).
  apply Z.leb_gt in Hcmp.
  exists k, mine, theirs, new, rme, rt.
  repeat match goal with |- _ /\ _ => split end;
    try reflexivity; assumption.
Qed.

Lemma demote_saved
      (msg_splits : list pystr) (spid : pystr) (p : plrdata)
      (aid : pystr) (a : alliance) (nlist : list pystr)
      (notes : list note) (p' : plrdata)
      (w : option (pystr * alliance)) (names : option (list pystr)) :
  alliance_demote py_int msg_splits spid p (Some (aid, a)) nlist
  = Saved notes p' w names ->
  exists k mine theirs new rme rt,
    dict_get (members a) spid = Some mine /\ rank_number mine = Ret rme /\
    dict_get (members a) k = Some theirs /\ rank_number theirs = Ret rt /\
    ((rt < rme)%Z \/ k = spid) /\
    theirs <> py "member" /\
    (theirs = py "owner" -> ownercount (members a) <> 1%nat) /\
    rank_name (rt - 1) = Ret new /\ p' = p /\
    w = Some (aid, Alliance (aname a) (dict_set (members a) k new)
                            (invref a) (public a)).
Proof.
  intros H; unfold alliance_demote in H.
  destruct (dict_get (members a) spid) as [mine|] eqn:Hme; [|discriminate].
  destruct (pystr_eqb mine (py "member")); [discriminate|].
  stage H pid Hpid. stage H rme Hrme. stage H theirs Hth. stage H rt Hrt.
  destruct (member_rank_Some _ _ _ Hth) as (k & -> & Hk).
  destruct ((rme <=? rt)%Z && _) eqn:Hcmp in H; [discriminate|].
  destruct (pystr_eqb theirs (py "owner") && _) eqn:Hown in H; [discriminate|].
  destruct (pystr_eqb theirs (py "member")) eqn:Hlow in H; [discriminate|].
  stage H new Hnew. inversion H; subst; clear H.
  exists k, mine, theirs, new, rme, rt.
  repeat match goal with |- _ /\ _ => split end;
    try reflexivity; try assumption.
  - apply andb_false_iff in Hcmp as [Hcmp|Hcmp].
    + left; apply Z.leb_gt; exact Hcmp.
    + right; apply negb_false_iff, pystr_eqb_eq in Hcmp; congruence.
  - apply pystr_eqb_neq; exact Hlow.
  - intros ->. rewrite pystr_eqb_refl in Hown; simpl in Hown.
    apply Nat.eqb_neq; exact Hown.
Qed.

(** X8. A promotion that goes through moves exactly one member exactly one
    rank up: the target ranked strictly below the sender before, ends no
    higher than the sender, every other member keeps their rank, the order
    of the member list is kept and the sender's document is unchanged. *)
Theorem promote_moves_one_rank_up
        (msg_splits : list pystr) (spid : pystr) (p : plrdata)
        (aid : pystr) (a : alliance) (nlist : list pystr)
        (notes : list note) (p' : plrdata)
        (w : option (pystr * alliance)) (names : option (list pystr)) :
  alliance_promote py_int msg_splits spid p (Some (aid, a)) nlist
  = Saved notes p' w names ->
  exists pid mine theirs new rme rt a',
    w = Some (aid, a') /\ p' = p /\
    dict_get (members a) spid = Some mine /\ rank_number mine = Ret rme /\
    dict_get (members a) pid = Some theirs /\ rank_number theirs = Ret rt /\
    (rt < rme)%Z /\
    dict_get (members a') pid = Some new /\
    rank_number new = Ret (rt + 1)%Z /\
    (forall k, k <> pid -> dict_get (members a') k = dict_get (members a) k) /\
    keys (members a') = keys (members a) /\
    members a' = dict_set (members a) pid new.
Proof.
  intros H.
  destruct (promote_saved _ _ _ _ _ _ _ _ _ _ H)
    as (k & mine & theirs & new & rme & rt & Hme & Hrme & Hk & Hrt & Hlt
        & Hnew & Hp & Hw).
  exists k, mine, theirs, new, rme, rt; eexists.
  split; [exact Hw|].
  repeat match goal with |- _ /\ _ => split end;
    try assumption; cbn [members].
  - rewrite dict_get_set, pystr_eqb_refl; reflexivity.
  - apply rank_name_spec; assumption.
  - intros k' Hk'; rewrite dict_get_set.
    rewrite (proj2 (pystr_eqb_neq k' k) Hk'); reflexivity.
  - eapply keys_dict_set_present; exact Hk.
  - reflexivity.
Qed.

(** X9. A demotion that goes through moves exactly one member exactly one
    rank down: the target ranked strictly below the sender or is the
    sender, was above [member], was not the only owner, and every other
    member keeps their rank. *)
Theorem demote_moves_one_rank_down
        (msg_splits : list pystr) (spid : pystr) (p : plrdata)
        (aid : pystr) (a : alliance) (nlist : list pystr)
        (notes : list note) (p' : plrdata)
        (w : option (pystr * alliance)) (names : option (list pystr)) :
  alliance_demote py_int msg_splits spid p (Some (aid, a)) nlist
  = Saved notes p' w names ->
  exists pid mine theirs new rme rt a',
    w = Some (aid, a') /\ p' = p /\
    dict_get (members a) spid = Some mine /\ rank_number mine = Ret rme /\
    dict_get (members a) pid = Some theirs /\ rank_number theirs = Ret rt /\
    ((rt < rme)%Z \/ pid = spid) /\
    (1 <= rt)%Z /\
    (theirs = py "owner" -> ownercount (members a) <> 1%nat) /\
    dict_get (members a') pid = Some new /\
    rank_number new = Ret (rt - 1)%Z /\
    (forall k, k <> pid -> dict_get (members a') k = dict_get (members a) k) /\
    keys (members a') = keys (members a) /\
    members a' = dict_set (members a) pid new.
Proof.
  intros H.
  destruct (demote_saved _ _ _ _ _ _ _ _ _ _ H)
    as (k & mine & theirs & new & rme & rt & Hme & Hrme & Hk & Hrt & Hlt
        & Hlow & Hsole & Hnew & Hp & Hw).
  destruct (rank_number_spec _ _ Hrt) as (Hrange & _ & _ & _ & Hzero).
  exists k, mine, theirs, new, rme, rt; eexists.
  split; [exact Hw|].
  repeat match goal with |- _ /\ _ => split end;
    try assumption; cbn [members].
  - destruct (Z.eq_dec rt 0) as [E|E]; [apply Hzero in E; contradiction | lia].
  - rewrite dict_get_set, pystr_eqb_refl; reflexivity.
  - apply rank_name_spec; assumption.
  - intros k' Hk'; rewrite dict_get_set.
    rewrite (proj2 (pystr_eqb_neq k' k) Hk'); reflexivity.
  - eapply keys_dict_set_present; exact Hk.
  - reflexivity.
Qed.
End RankFacts.

(** X10. An alliance never loses its last owner: when the member list has
    distinct ids and at least one owner, a leave, a promotion or a demotion
    that goes through leaves at least one owner. *)
Theorem owners_remain
        (py_int : pystr -> option Z) (msg_splits : list pystr)
        (spid : pystr) (p : plrdata) (aid : pystr) (a : alliance)
        (nlist : list pystr) (notes : list note) (p' : plrdata)
        (aid' : pystr) (a' : alliance) (names : option (list pystr)) :
  NoDup (keys (members a)) ->
  (1 <= ownercount (members a))%nat ->
  alliance_leave spid p (Some (aid, a)) nlist
  = Saved notes p' (Some (aid', a')) names \/
  alliance_promote py_int msg_splits spid p (Some (aid, a)) nlist
  = Saved notes p' (Some (aid', a')) names \/
  alliance_demote py_int msg_splits spid p (Some (aid, a)) nlist
  = Saved notes p' (Some (aid', a')) names ->
  (1 <= ownercount (members a'))%nat.
Proof.
  intros Hnd Hone [H|[H|H]].
  - unfold alliance_leave in H.
    destruct (dict_get (members a) spid) as [rank|] eqn:Hme; [|discriminate].
    destruct (pystr_eqb rank (py "owner") && _) eqn:Hc in H; [discriminate|].
    inversion H; subst; clear H; cbn [members].
    pose proof (ownercount_dict_pop _ _ _ Hnd Hme) as Hcount.
    unfold is_owner in Hcount.
    destruct (pystr_eqb rank (py "owner")); simpl in Hc; [|lia].
    apply Nat.eqb_neq in Hc; lia.
  - destruct (promote_saved _ _ _ _ _ _ _ _ _ _ _ H)
      as (pid & mine & theirs & new & rme & rt & _ & Hrme & Hk
          & Hrt & Hlt & _ & _ & Hw).
    inversion Hw; subst; cbn [members].
    pose proof (ownercount_dict_set _ _ new _ Hk) as Hcount.
    destruct (rank_number_spec _ _ Hrme) as (Hr1 & _).
    destruct (rank_number_spec _ _ Hrt) as (_ & _ & _ & Hthree & _).
    unfold is_owner in Hcount at 1.
    destruct (pystr_eqb theirs (py "owner")) eqn:E; [|lia].
    apply pystr_eqb_eq, Hthree in E; lia.
  - destruct (demote_saved _ _ _ _ _ _ _ _ _ _ _ H)
      as (pid & mine & theirs & new & rme & rt & _ & Hrme & Hk
          & Hrt & _ & _ & Hsole & _ & _ & Hw).
    inversion Hw; subst; cbn [members].
    pose proof (ownercount_dict_set _ _ new _ Hk) as Hcount.
    unfold is_owner in Hcount.
    destruct (pystr_eqb theirs (py "owner")) eqn:E.
    + apply pystr_eqb_eq in E; specialize (Hsole E).
      destruct (pystr_eqb new (py "owner")); lia.
    + destruct (pystr_eqb new (py "owner")); lia.
Qed.

Lemma promote_witness :
  let a := Alliance (py "Foo")
                    [(py "pb-1", py "owner"); (py "pb-2", py "member")]
                    None false in
  let p := Plr 0 [] [] (Some (py "en")) (Some (py "12345")) [] in
  alliance_promote decimal_int [py "alliance"; py "promote"; py "1"]
                   (py "pb-1") p (Some (py "12345", a)) []
  = Saved (inform (py "alliancePromoteSuccess") success (Some (py "en")) [])
          p
          (Some (py "12345",
                 Alliance (py "Foo")
                   [(py "pb-1", py "owner"); (py "pb-2", py "recruiter")]
                   None false))
          (Some []) /\
  exists pid mine theirs new rme rt a',
    Some (py "12345",
          Alliance (py "Foo")
            [(py "pb-1", py "owner"); (py "pb-2", py "recruiter")]
            None false) = Some (py "12345", a') /\ p = p /\
    dict_get (members a) (py "pb-1") = Some mine /\
    rank_number mine = Ret rme /\
    dict_get (members a) pid = Some theirs /\ rank_number theirs = Ret rt /\
    (rt < rme)%Z /\
    dict_get (members a') pid = Some new /\
    rank_number new = Ret (rt + 1)%Z /\
    (forall k, k <> pid -> dict_get (members a') k = dict_get (members a) k) /\
    keys (members a') = keys (members a) /\
    members a' = dict_set (members a) pid new.
Proof.
  intros a p.
  assert (H : alliance_promote decimal_int
                [py "alliance"; py "promote"; py "1"]
                (py "pb-1") p (Some (py "12345", a)) []
              = Saved (inform (py "alliancePromoteSuccess") success
                              (Some (py "en")) [])
                      p
                      (Some (py "12345",
                             Alliance (py "Foo")
                               [(py "pb-1", py "owner");
                                (py "pb-2", py "recruiter")]
                               None false))
                      (Some [])) by reflexivity.
  exact (conj H (promote_moves_one_rank_up decimal_int _ _ _ _ _ _ _ _ _ _ H)).
Defined.

Lemma demote_witness :
  let a := Alliance (py "Foo")
                    [(py "pb-1", py "owner"); (py "pb-2", py "co-owner")]
                    None false in
  let a' := Alliance (py "Foo")
                     [(py "pb-1", py "owner"); (py "pb-2", py "recruiter")]
                     None false in
  let p := Plr 0 [] [] (Some (py "en")) (Some (py "12345")) [] in
  alliance_demote decimal_int [py "alliance"; py "demote"; py "pb-2"]
                  (py "pb-2") p (Some (py "12345", a)) []
  = Saved (inform (py "allianceDemoteSuccess") success (Some (py "en")) [])
          p (Some (py "12345", a')) (Some []) /\
  exists theirs rt,
    dict_get (members a) (py "pb-2") = Some theirs /\
    rank_number theirs = Ret rt /\ (1 <= rt)%Z.
Proof.
  intros a a' p.
  assert (H : alliance_demote decimal_int
                [py "alliance"; py "demote"; py "pb-2"]
                (py "pb-2") p (Some (py "12345", a)) []
              = Saved (inform (py "allianceDemoteSuccess") success
                              (Some (py "en")) [])
                      p (Some (py "12345", a')) (Some [])) by reflexivity.
  destruct (demote_moves_one_rank_down decimal_int _ _ _ _ _ _ _ _ _ _ H)
    as (pid & mine & theirs & new & rme & rt & a2 & Hw & _ & _ & _ & Hk
        & Hrt & _ & Hge & _ & _ & _ & Hoth & _).
  split; [exact H|]. exists theirs, rt.
  assert (Hpid : pid = py "pb-2").
  { destruct (pystr_eqb pid (py "pb-2")) eqn:E;
      [apply pystr_eqb_eq; exact E|].
    apply pystr_eqb_neq in E.
    inversion Hw; subst a2.
    specialize (Hoth (py "pb-2") (fun X => E (eq_sym X))).
    vm_compute in Hoth; discriminate. }
  subst pid. exact (conj Hk (conj Hrt Hge)).
Defined.

Lemma owners_remain_witness :
  let a := Alliance (py "Foo")
                    [(py "pb-1", py "owner"); (py "pb-2", py "owner")]
                    None false in
  let a' := Alliance (py "Foo") [(py "pb-2", py "owner")] None false in
  let p := Plr 0 [] [] (Some (py "en")) (Some (py "12345")) [] in
  NoDup (keys (members a)) /\ (1 <= ownercount (members a))%nat /\
  alliance_leave (py "pb-1") p (Some (py "12345", a)) []
  = Saved (inform (py "allianceLeaveSuccessful") success (Some (py "en")) [])
          (Plr 0 [] [] (Some (py "en")) None [])
          (Some (py "12345", a')) (Some []) /\
  (1 <= ownercount (members a'))%nat.
Proof.
  intros a a' p.
  assert (H1 : NoDup (keys (members a)))
    by (cbv; repeat (constructor; [absent|]); constructor).
  assert (H2 : (1 <= ownercount (members a))%nat) by (cbv; lia).
  assert (H3 : alliance_leave (py "pb-1") p (Some (py "12345", a)) []
               = Saved (inform (py "allianceLeaveSuccessful") success
                               (Some (py "en")) [])
                       (Plr 0 [] [] (Some (py "en")) None [])
                       (Some (py "12345", a')) (Some [])) by reflexivity.
  exact (conj H1 (conj H2 (conj H3
    (owners_remain decimal_int [] (py "pb-1") p (py "12345") a [] _ _ _ a' _
                   H1 H2 (or_introl H3))))).
Defined.

(* ================================================================= *)
(** * Inventory: equip only moves entries *)

Lemma list_remove_perm x l l' :
  list_remove x l = Ret l' -> Permutation l (x :: l').
Proof.
  revert l'; induction l as [|y l IH]; intros l' H; simpl in H; [discriminate|].
  destruct (pystr_eqb y x) eqn:E.
  - apply pystr_eqb_eq in E; inversion H; subst; apply Permutation_refl.
  - destruct (list_remove x l) as [r|e]; simpl in H; [|discriminate].
    inversion H; subst.
    eapply perm_trans; [apply perm_skip, IH; reflexivity | apply perm_swap].
Qed.

Lemma unequip_others_perm te scat lg : forall fuel idx its eqd notes notes' its' eqd',
  unequip_others fuel idx te scat lg its eqd notes = (notes', Ret (its', eqd')) ->
  Permutation (its' ++ eqd') (its ++ eqd).
Proof.
  induction fuel as [|fuel IH]; intros idx its eqd notes notes' its' eqd' H;
    simpl in H.
  - inversion H; subst; apply Permutation_refl.
  - destruct (nth_error eqd idx) as [i|];
      [|inversion H; subst; apply Permutation_refl].
    destruct (negb (pystr_eqb te i)); [|eapply IH; exact H].
    destruct (item_category i) as [c|e]; [|discriminate].
    destruct (pystr_eqb scat c); [|eapply IH; exact H].
    destruct (list_remove i eqd) as [eqd2|e] eqn:Hrm; [|discriminate].
    eapply perm_trans; [eapply IH; exact H|].
    rewrite <- app_assoc; simpl.
    apply Permutation_app_head, Permutation_sym, list_remove_perm; exact Hrm.
Qed.

(** X11. An equip command that goes through only moves entries between
    the two lists: the items and equipped lists together hold the same
    entries as before, nothing is lost, duplicated or invented, whatever
    state the document was in; the balance, language and alliance
    reference are untouched.  In particular identity strings that were
    distinct stay distinct. *)
Theorem equip_only_moves_entries
        (msg_splits : list pystr) (p : plrdata)
        (ad : option (pystr * alliance)) (notes : list note)
        (p' : plrdata) (ad' : option (pystr * alliance))
        (names : option (list pystr)) :
  equip_branch msg_splits p ad = Saved notes p' ad' names ->
  Permutation (items p' ++ equipped p') (items p ++ equipped p) /\
  spoints p' = spoints p /\ lang p' = lang p /\
  allianceidref p' = allianceidref p /\ pother p' = pother p /\
  ad' = ad /\ names = None /\
  (NoDup (map item_base (items p ++ equipped p)) ->
   NoDup (map item_base (items p' ++ equipped p'))).
Proof.
  intros H.
  assert (Hmain : Permutation (items p' ++ equipped p')
                              (items p ++ equipped p) /\
                  spoints p' = spoints p /\ lang p' = lang p /\
                  allianceidref p' = allianceidref p /\
                  pother p' = pother p /\ ad' = ad /\ names = None).
  { unfold equip_branch in H.
    destruct (length msg_splits =? 1)%nat; [discriminate|].
    destruct (nth_error msg_splits 1) as [scat|]; [|discriminate].
    destruct (nth_error msg_splits 2) as [item|]; [|discriminate].
    destruct (find _ _) as [te|]; [|discriminate].
    destruct (negb (nonempty te) || _); [discriminate|].
    destruct (unequip_others _ _ _ _ _ _ _ _) as [notes0 [[its eqd]|e]] eqn:Hloop;
      [|discriminate].
    apply unequip_others_perm in Hloop.
    destruct (str_in te its).
    - destruct (list_remove te its) as [its2|e] eqn:Hrm; [|discriminate].
      inversion H; subst; clear H; cbn [items equipped spoints lang
                                            allianceidref pother].
      repeat split.
      eapply perm_trans; [|exact Hloop].
      apply list_remove_perm in Hrm.
      rewrite app_assoc.
      eapply perm_trans; [apply Permutation_app_comm|]; simpl.
      change (Permutation ((te :: its2) ++ eqd) (its ++ eqd)).
      apply Permutation_app_tail, Permutation_sym; exact Hrm.
    - destruct (list_remove te eqd) as [eqd2|e] eqn:Hrm; [|discriminate].
      inversion H; subst; clear H; cbn [items equipped spoints lang
                                            allianceidref pother].
      repeat split.
      eapply perm_trans; [|exact Hloop].
      apply list_remove_perm in Hrm.
      rewrite <- app_assoc; simpl.
      apply Permutation_app_head, Permutation_sym; exact Hrm. }
  destruct Hmain as (Hp & H1 & H2 & H3 & H4 & H5 & H6).
  repeat (split; [assumption|]).
  intros Hnd. eapply Permutation_NoDup; [|exact Hnd].
  apply Permutation_map, Permutation_sym; exact Hp.
Qed.

Lemma equip_only_moves_witness :
  let p := Plr 7 [py "c@hat"] [py "a@hat"; py "b@hat"] None None [] in
  let p' := Plr 7 [py "a@hat"] [py "b@hat"; py "c@hat"] None None [] in
  equip_branch [py "equip"; py "hat"; py "c"] p None
  = Saved (inform (py "unequipped") success None [py "a@hat"]
           ++ inform (py "equipped") success None [py "c@hat"])
          p' None None /\
  Permutation (items p' ++ equipped p') (items p ++ equipped p).
Proof.
  intros p p'.
  assert (H : equip_branch [py "equip"; py "hat"; py "c"] p None
              = Saved (inform (py "unequipped") success None [py "a@hat"]
                       ++ inform (py "equipped") success None [py "c@hat"])
                      p' None None) by reflexivity.
  exact (conj H (proj1 (equip_only_moves_entries _ _ _ _ _ _ _ H))).
Defined.

(* ================================================================= *)
(** * Shop *)

Section ShopFacts.
Variable py_float : pystr -> option Q.
Variable now : Q.
Variable fs : files.

(** What a shop command that reaches the epilogue did: nothing, or one
    purchase. *)
Lemma shop_saved (msg_splits : list pystr) (p : plrdata)
      (ad : option (pystr * alliance)) (notes : list note) (p' : plrdata)
      (ad' : option (pystr * alliance)) (names : option (list pystr)) :
  shop_branch py_float now fs msg_splits p ad = Saved notes p' ad' names ->
  ad' = ad /\ names = None /\
  (p' = p \/
   exists scat item d price,
     nth_error msg_splits 1 = Some scat /\
     nth_error msg_splits 2 = Some item /\
     fst (load py_float now fs GSHOP [scat] false) = Ret (JDict d) /\
     member_price d item = Ret (Some price) /\
     (price <= spoints p)%Z /\
     ~ In (identity item scat) (map item_base (items p ++ equipped p)) /\
     p' = Plr (spoints p - price) (items p ++ [identity item scat])
              (equipped p) (lang p) (allianceidref p) (pother p)).
Proof.
  unfold shop_branch; intros H.
  destruct (length msg_splits =? 1)%nat.
  { destruct (fst (load py_float now fs GSHOP [] false)) as [v|e];
      [destruct v; discriminate | destruct e; discriminate]. }
  destruct (nth_error msg_splits 1) as [scat|]; [|discriminate].
  destruct (fst (load py_float now fs GSHOP [scat] false)) as [nlist|e] eqn:Hl;
    [|destruct e; discriminate].
  destruct (negb (json_truthy nlist)); [discriminate|].
  destruct (length msg_splits =? 2)%nat; [discriminate|].
  destruct (length msg_splits =? 3)%nat;
    [|inversion H; subst; repeat split; now left].
  destruct nlist as [| | | | | |d]; try discriminate.
  destruct (nth_error msg_splits 2) as [item|]; [|discriminate].
  destruct (negb (dict_has d item)); [discriminate|].
  destruct (str_in (identity item scat) _) eqn:Hown; cbn [negb] in H;
    [inversion H; subst; repeat split; now left|].
  destruct (member_price d item) as [[price|]|e] eqn:Hp;
    [| discriminate | destruct e; discriminate].
  destruct (spoints p <? price)%Z eqn:Hlt;
    inversion H; subst; clear H; (split; [reflexivity|]);
      (split; [reflexivity|]); [now left|].
  right; exists scat, item, d, price.
  apply Z.ltb_ge in Hlt; apply str_in_not_In in Hown.
  repeat split; assumption || reflexivity.
Qed.


(** X13. The shop keeps identity strings distinct: when no two entries of
    the items and equipped lists share an identity string and the words of
    the command carry no separator, the same holds after any shop command
    that reaches the epilogue. *)
Theorem shop_keeps_identities_distinct
        (msg_splits : list pystr) (p : plrdata)
        (ad : option (pystr * alliance)) (notes : list note) (p' : plrdata)
        (ad' : option (pystr * alliance)) (names : option (list pystr)) :
  NoDup (map item_base (items p ++ equipped p)) ->
  (forall w, In w msg_splits -> ~ In SEP w) ->
  shop_branch py_float now fs msg_splits p ad = Saved notes p' ad' names ->
  NoDup (map item_base (items p' ++ equipped p')).
Proof.
  intros Hnd Hsep H; destruct (shop_saved _ _ _ _ _ _ _ H) as (_ & _ & [->|Hbuy]);
    [exact Hnd|].
  destruct Hbuy as (scat & item & d & price & Hs & Hi & _ & _ & _ & Hnew & ->).
  cbn [items equipped].
  assert (Hbase : item_base (identity item scat) = identity item scat).
  { unfold item_base; rewrite split_no_sep; [reflexivity|].
    unfold identity; intros Hin; apply in_app_iff in Hin.
    destruct Hin as [Hin|[Hin|Hin]].
    - apply (Hsep item (nth_error_In _ _ Hi)); exact Hin.
    - discriminate.
    - apply (Hsep scat (nth_error_In _ _ Hs)); exact Hin. }
  eapply Permutation_NoDup with (l := map item_base
            (identity item scat :: items p ++ equipped p)).
  - apply Permutation_map. rewrite <- app_assoc.
    apply Permutation_middle.
  - simpl; rewrite Hbase; constructor; assumption.
Qed.
End ShopFacts.


Lemma shop_keeps_identities_witness :
  let p := Plr 80 [py "wave@emote"] [py "horn@hat"] (Some (py "en")) None [] in
  let p' := Plr 30 [py "wave@emote"; py "cap@hat"] [py "horn@hat"]
                (Some (py "en")) None [] in
  NoDup (map item_base (items p ++ equipped p)) /\
  NoDup (map item_base (items p' ++ equipped p')).
Proof.
  intros p p'.
  assert (H1 : NoDup (map item_base (items p ++ equipped p)))
    by (cbv; repeat (constructor; [absent|]); constructor).
  assert (H2 : forall w, In w [py "shop"; py "hat"; py "cap"] -> ~ In SEP w)
    by (intros w [<-|[<-|[<-|[]]]]; absent).
  assert (H3 : shop_branch decimal_float 0 sample_shop
                 [py "shop"; py "hat"; py "cap"] p None
               = Saved (inform (py "successfulPurchase") success
                               (Some (py "en")) [py "cap@hat"]
                        ++ inform (py "howToUse") normal (Some (py "en"))
                                  [py "/equip hat cap"])
                       p' None None) by reflexivity.
  exact (conj H1
    (shop_keeps_identities_distinct decimal_float 0 sample_shop _ _ _ _ _ _ _
                                    H1 H2 H3)).
Defined.

(* ================================================================= *)
(** * Defaults of a player document *)

Lemma dict_get_app V (d e : list (pystr * V)) k :
  dict_get (d ++ e) k =
  match dict_get d k with Some v => Some v | None => dict_get e k end.
Proof.
  induction d as [|[k0 v0] d IH]; simpl; [reflexivity|].
  destruct (pystr_eqb k k0); [reflexivity | exact IH].
Qed.

Lemma dict_get_setdefault V (d : list (pystr * V)) k v k' :
  dict_get (setdefault d k v) k' =
  match dict_get d k' with
  | Some x => Some x
  | None => if pystr_eqb k' k then Some v else None
  end.
Proof.
  unfold setdefault. destruct (dict_get d k) as [x|] eqn:E.
  - destruct (dict_get d k') as [y|] eqn:E'; [reflexivity|].
    destruct (pystr_eqb k' k) eqn:Ek; [|reflexivity].
    apply pystr_eqb_eq in Ek; subst; congruence.
  - rewrite dict_get_app; simpl. destruct (dict_get d k'); reflexivity.
Qed.

Lemma setdefaults_get V (defs : list (pystr * V)) : forall d k,
  dict_get (fold_left (fun d kv => setdefault d (fst kv) (snd kv)) defs d) k =
  match dict_get d k with Some x => Some x | None => dict_get defs k end.
Proof.
  induction defs as [|[k0 v0] defs IH]; intros d k; simpl.
  - destruct (dict_get d k); reflexivity.
  - rewrite IH, dict_get_setdefault. simpl.
    destruct (dict_get d k); [reflexivity|].
    destruct (pystr_eqb k k0); reflexivity.
Qed.

Lemma setdefaults_present V (defs : list (pystr * V)) : forall d,
  (forall kv, In kv defs -> dict_get d (fst kv) <> None) ->
  fold_left (fun d kv => setdefault d (fst kv) (snd kv)) defs d = d.
Proof.
  induction defs as [|[k0 v0] defs IH]; intros d H; simpl; [reflexivity|].
  assert (Hs : setdefault d k0 v0 = d).
  { unfold setdefault. specialize (H (k0, v0) (or_introl eq_refl)); simpl in H.
    destruct (dict_get d k0); [reflexivity | contradiction]. }
  rewrite Hs; apply IH; intros kv Hkv; apply H; now right.
Qed.

Lemma setdefault_keys_NoDup V (d : list (pystr * V)) k v :
  NoDup (keys d) -> NoDup (keys (setdefault d k v)).
Proof.
  unfold setdefault; intros H. destruct (dict_get d k) eqn:E; [exact H|].
  apply dict_get_None in E.
  rewrite <- (dict_set_fresh V d k v E). apply keys_dict_set_NoDup; exact H.
Qed.

(** X14. [sdpd] only fills gaps: a key the document already has keeps its
    value (even [None]); each of the thirteen default keys is present
    afterwards, with its default when it was missing; keys outside the
    defaults are neither added nor removed; distinct keys stay distinct;
    and applying [sdpd] again changes nothing. *)
Theorem sdpd_fills_gaps_only (d : list (pystr * json)) :
  (forall k v, dict_get d k = Some v -> dict_get (sdpd d) k = Some v) /\
  (forall k v, In (k, v) sdpd_defaults -> dict_get d k = None ->
               dict_get (sdpd d) k = Some v) /\
  (forall k, ~ In k (keys sdpd_defaults) -> dict_get (sdpd d) k = dict_get d k) /\
  (NoDup (keys d) -> NoDup (keys (sdpd d))) /\
  sdpd (sdpd d) = sdpd d.
Proof.
  assert (Hget : forall k, dict_get (sdpd d) k =
                           match dict_get d k with
                           | Some x => Some x
                           | None => dict_get sdpd_defaults k
                           end) by (intros k; apply setdefaults_get).
  assert (Hdef : forall k v, In (k, v) sdpd_defaults ->
                             dict_get sdpd_defaults k = Some v).
  { intros k v H; simpl in H.
    repeat (destruct H as [H|H]; [inversion H; subst; reflexivity|]).
    destruct H. }
  split; [intros k v H; rewrite Hget, H; reflexivity|].
  split; [intros k v Hin H; rewrite Hget, H; apply Hdef; exact Hin|].
  split.
  { intros k Hk; rewrite Hget. destruct (dict_get d k); [reflexivity|].
    apply dict_get_None; exact Hk. }
  split.
  { unfold sdpd. generalize sdpd_defaults as defs. intros defs; revert d Hget.
    induction defs as [|[k0 v0] defs IH]; intros d _ H; simpl; [exact H|].
    apply IH; [intros; apply setdefaults_get|].
    apply setdefault_keys_NoDup; exact H. }
  apply setdefaults_present; intros [k v] Hin; simpl.
  rewrite Hget, (Hdef k v Hin). destruct (dict_get d k); discriminate.
Qed.

Lemma sdpd_witness :
  let d := [(py "spoints", JInt 40); (py "lang", JNull); (py "un", JStr (py "Ann"))] in
  dict_get d (py "spoints") = Some (JInt 40) /\
  dict_get (sdpd d) (py "spoints") = Some (JInt 40) /\
  dict_get (sdpd d) (py "charge") = Some (JInt 1).
Proof.
  intros d.
  assert (H1 : dict_get d (py "spoints") = Some (JInt 40)) by reflexivity.
  assert (H2 : In (py "charge", JInt 1) sdpd_defaults)
    by (simpl; do 8 right; left; reflexivity).
  exact (conj H1 (conj
    (proj1 (sdpd_fills_gaps_only d) _ _ H1)
    (proj1 (proj2 (sdpd_fills_gaps_only d)) _ _ H2 eq_refl))).
Defined.

(* ================================================================= *)
(** * Leaderboard: the sort, the open window and the reset *)

Section SortFacts.
Variable V : Type.
Variable leb : V -> V -> bool.

Lemma insert_desc_perm (x : pystr * V) l :
  Permutation (insert_desc leb x l) (x :: l).
Proof.
  induction l as [|y l IH]; simpl; [apply Permutation_refl|].
  destruct (leb (snd y) (snd x)); [apply Permutation_refl|].
  eapply perm_trans; [apply perm_skip, IH | apply perm_swap].
Qed.

Lemma sorted_desc_perm (l : list (pystr * V)) :
  Permutation (sorted_desc leb l) l.
Proof.
  induction l as [|x l IH]; simpl; [apply Permutation_refl|].
  eapply perm_trans; [apply insert_desc_perm | apply perm_skip, IH].
Qed.

Lemma dict_get_In (d : list (pystr * V)) k v :
  NoDup (keys d) -> (dict_get d k = Some v <-> In (k, v) d).
Proof.
  induction d as [|[k0 v0] d IH]; simpl; intros Hnd.
  - split; [discriminate | intros []].
  - inversion Hnd as [|? ? Hn Hd]; subst.
    destruct (pystr_eqb k k0) eqn:E.
    + apply pystr_eqb_eq in E; subst k0; split.
      * intros H; inversion H; now left.
      * intros [H|H]; [inversion H; reflexivity|].
        exfalso; apply Hn; change k with (fst (k, v)); apply in_map; exact H.
    + apply pystr_eqb_neq in E. rewrite (IH Hd); split; [now right|].
      intros [H|H]; [inversion H; congruence | exact H].
Qed.

Lemma dict_get_perm (d d' : list (pystr * V)) k :
  NoDup (keys d) -> Permutation d' d -> dict_get d' k = dict_get d k.
Proof.
  intros Hnd Hp.
  assert (Hnd' : NoDup (keys d'))
    by (eapply Permutation_NoDup;
        [apply Permutation_map, Permutation_sym; exact Hp | exact Hnd]).
  destruct (dict_get d k) as [v|] eqn:E.
  - apply (dict_get_In d' k v Hnd').
    eapply Permutation_in; [apply Permutation_sym; exact Hp|].
    apply (dict_get_In d k v Hnd); exact E.
  - apply dict_get_None; apply dict_get_None in E; intros H; apply E.
    eapply Permutation_in; [apply Permutation_map; exact Hp | exact H].
Qed.
End SortFacts.

Lemma insert_desc_ties (v : Q) (x : pystr * Q) l :
  filter (fun kv => Qeq_bool (snd kv) v) (insert_desc Qle_bool x l) =
  filter (fun kv => Qeq_bool (snd kv) v) (x :: l).
Proof.
  induction l as [|y l IH]; [reflexivity|].
  cbn [insert_desc]. destruct (Qle_bool (snd y) (snd x)) eqn:E; [reflexivity|].
  cbn [filter] in *. rewrite IH.
  destruct (Qeq_bool (snd y) v) eqn:Ey; [|reflexivity].
  destruct (Qeq_bool (snd x) v) eqn:Ex; [|reflexivity].
  exfalso. apply Qeq_bool_iff in Ey, Ex.
  assert (H : Qle_bool (snd y) (snd x) = true).
  { apply Qle_bool_iff. rewrite Ey, Ex. apply Qle_refl. }
  congruence.
Qed.

(** X15. The leaderboard sort is a stable permutation: it keeps every
    entry, and entries with equal values stay in the order they had (a
    player who reached a score first stays ahead of one who ties later). *)
Theorem sorted_desc_stable (l : list (pystr * Q)) :
  Permutation (sorted_desc Qle_bool l) l /\
  forall v, filter (fun kv => Qeq_bool (snd kv) v) (sorted_desc Qle_bool l)
            = filter (fun kv => Qeq_bool (snd kv) v) l.
Proof.
  split; [apply sorted_desc_perm|].
  intros v; induction l as [|x l IH]; [reflexivity|].
  cbn [sorted_desc fold_right].
  change (fold_right (insert_desc Qle_bool) [] l) with (sorted_desc Qle_bool l).
  rewrite insert_desc_ties; cbn [filter]; rewrite IH; reflexivity.
Qed.

Lemma list_remove_distinct x l :
  NoDup l -> In x l ->
  list_remove x l = Ret (filter (fun y => negb (pystr_eqb y x)) l).
Proof.
  induction l as [|y l IH]; intros Hnd Hin; [destruct Hin|]; simpl.
  inversion Hnd as [|? ? Hn Hd]; subst.
  destruct (pystr_eqb y x) eqn:E; simpl.
  - apply pystr_eqb_eq in E; subst y.
    rewrite filter_everything; [reflexivity|].
    intros i Hi; apply negb_true_iff, pystr_eqb_neq; intros ->; tauto.
  - destruct Hin as [->|Hin]; [rewrite pystr_eqb_refl in E; discriminate|].
    rewrite (IH Hd Hin); reflexivity.
Qed.

Lemma top_awards_fst tl : forall y, map fst (top_awards y tl) = tl.
Proof.
  induction tl as [|t tl IH]; intros y; simpl; [reflexivity|].
  rewrite IH; reflexivity.
Qed.

Lemma dict_set_last V (d : list (pystr * V)) k old v :
  ~ In k (keys d) -> dict_set (d ++ [(k, old)]) k v = d ++ [(k, v)].
Proof.
  induction d as [|[k0 v0] d IH]; simpl; intros H.
  - rewrite pystr_eqb_refl; reflexivity.
  - destruct (pystr_eqb k k0) eqn:E;
      [apply pystr_eqb_eq in E; subst; tauto|].
    rewrite IH by tauto; reflexivity.
Qed.

(** X16. While the window is open an award changes one total only: the
    awarded id gains exactly the award (starting from 0 when new), every
    other entry and [end] keep their values, no bonus is paid, and keys
    stay distinct. *)
Theorem tops_update_open (now : Q) (spoints : Z) (pid : pystr)
        (loaded : list (pystr * Q)) (e : Q) :
  NoDup (keys loaded) ->
  dict_get (setdefault loaded END 0) END = Some e ->
  now <= e ->
  let base := setdefault loaded END 0 in
  let r := fst (tops_update now spoints pid loaded) in
  snd (tops_update now spoints pid loaded) = [] /\
  dict_get r pid =
    Some (match dict_get base pid with Some v => v | None => 0 end
          + inject_Z spoints) /\
  (forall k, k <> pid -> dict_get r k = dict_get base k) /\
  NoDup (keys r).
Proof.
  intros Hnd He Hle base r.
  change (dict_get base END = Some e) in He.
  assert (Hopen : Qltb e now = false) by (apply Qgtb_false; exact Hle).
  assert (Hnb : NoDup (keys base)) by (apply setdefault_keys_NoDup; exact Hnd).
  set (t1 := setdefault base pid 0).
  assert (Hn1 : NoDup (keys t1)) by (apply setdefault_keys_NoDup; exact Hnb).
  set (old := match dict_get base pid with Some v => v | None => 0 end).
  assert (H1 : dict_get t1 pid = Some old).
  { unfold t1, old; rewrite dict_get_setdefault, pystr_eqb_refl.
    destruct (dict_get base pid); reflexivity. }
  set (t2 := dict_set t1 pid (old + inject_Z spoints)).
  assert (Hn2 : NoDup (keys t2)) by (apply keys_dict_set_NoDup; exact Hn1).
  assert (Hr : tops_update now spoints pid loaded
               = (sorted_desc Qle_bool t2, [])).
  { unfold tops_update. fold base. rewrite He, Hopen. fold t1.
    rewrite H1. reflexivity. }
  unfold r; rewrite Hr; cbn [fst snd].
  split; [reflexivity|].
  assert (Hget : forall k, dict_get (sorted_desc Qle_bool t2) k = dict_get t2 k)
    by (intros k; apply dict_get_perm; [exact Hn2 | apply sorted_desc_perm]).
  split; [|split].
  - rewrite Hget; unfold t2; rewrite dict_get_set, pystr_eqb_refl; reflexivity.
  - intros k Hk; rewrite Hget; unfold t2, t1.
    rewrite dict_get_set, (proj2 (pystr_eqb_neq k pid) Hk).
    rewrite dict_get_setdefault, (proj2 (pystr_eqb_neq k pid) Hk).
    destruct (dict_get base k); reflexivity.
  - eapply Permutation_NoDup; [|exact Hn2].
    apply Permutation_map, Permutation_sym, sorted_desc_perm.
Qed.

(** X17. When the window has closed the board starts over: the new
    document holds only the new [end] (30 days on) and the awarded id with
    exactly its award; all earlier totals are dropped; and the bonuses
    10000, 5000, 2500 go, in that order, to the first three ids of the old
    document other than [end]. *)
Theorem tops_update_closed (now : Q) (spoints : Z) (pid : pystr)
        (loaded : list (pystr * Q)) (e : Q) :
  NoDup (keys loaded) ->
  dict_get (setdefault loaded END 0) END = Some e ->
  e < now -> pid <> END ->
  let base := setdefault loaded END 0 in
  let r := fst (tops_update now spoints pid loaded) in
  let awards := snd (tops_update now spoints pid loaded) in
  Permutation r [(END, now + 2592000); (pid, 0 + inject_Z spoints)] /\
  map fst awards
  = firstn 3 (filter (fun k => negb (pystr_eqb k END)) (keys base)) /\
  map snd awards = firstn (length awards) [10000; 5000; 2500]%Z.
Proof.
  intros Hnd He Hlt Hpid base r awards.
  change (dict_get base END = Some e) in He.
  assert (Hclosed : Qltb e now = true) by (apply Qltb_true; exact Hlt).
  assert (Hnb : NoDup (keys base)) by (apply setdefault_keys_NoDup; exact Hnd).
  assert (Hin : In END (keys base)).
  { destruct (in_dec (list_eq_dec N.eq_dec) END (keys base)) as [H|H];
      [exact H|].
    apply dict_get_None in H; congruence. }
  assert (Htop : top_three base
                 = firstn 3 (filter (fun k => negb (pystr_eqb k END))
                                    (keys base))).
  { unfold top_three; rewrite (list_remove_distinct END _ Hnb Hin).
    reflexivity. }
  assert (Hr : tops_update now spoints pid loaded
               = (sorted_desc Qle_bool
                    [(END, now + 2592000); (pid, 0 + inject_Z spoints)],
                  top_awards 0 (top_three base))).
  { assert (Hnone : dict_get [(END, now + 2592000)] pid = None)
      by (apply dict_get_None; simpl; intros [H|[]]; congruence).
    assert (Hs : setdefault [(END, now + 2592000)] pid 0
                 = [(END, now + 2592000)] ++ [(pid, 0)])
      by (unfold setdefault; rewrite Hnone; reflexivity).
    unfold tops_update. fold base. rewrite He, Hclosed, Hs.
    rewrite dict_get_app, Hnone; cbn [dict_get].
    rewrite pystr_eqb_refl, dict_set_last
      by (simpl; intros [H|[]]; congruence).
    reflexivity. }
  unfold r, awards; rewrite Hr; cbn [fst snd].
  split; [apply sorted_desc_perm|].
  split; [rewrite top_awards_fst; exact Htop|].
  rewrite Htop.
  destruct (filter _ (keys base)) as [|a [|b [|c l]]]; reflexivity.
Qed.

Lemma tops_update_open_witness :
  let loaded := [(END, 100); (py "a", 30); (py "b", 12)] in
  NoDup (keys loaded) /\ 50 <= 100 /\
  dict_get (fst (tops_update 50 12 (py "b") loaded)) (py "b")
  = Some (12 + inject_Z 12).
Proof.
  intros loaded.
  assert (H1 : NoDup (keys loaded))
    by (cbv; repeat (constructor; [absent|]); constructor).
  assert (H2 : 50 <= 100) by (unfold Qle; simpl; lia).
  exact (conj H1 (conj H2
    (proj1 (proj2 (tops_update_open 50 12 (py "b") loaded 100
                                    H1 eq_refl H2))))).
Defined.

Lemma tops_update_closed_witness :
  let loaded := [(END, 100); (py "a", 30); (py "b", 12); (py "c", 5);
                 (py "d", 1)] in
  NoDup (keys loaded) /\ 100 < 200 /\
  map fst (snd (tops_update 200 12 (py "d") loaded))
  = [py "a"; py "b"; py "c"] /\
  map snd (snd (tops_update 200 12 (py "d") loaded))
  = [10000; 5000; 2500]%Z.
Proof.
  intros loaded.
  assert (H1 : NoDup (keys loaded))
    by (cbv; repeat (constructor; [absent|]); constructor).
  assert (H2 : 100 < 200) by reflexivity.
  assert (H3 : py "d" <> END) by (intros H; discriminate).
  exact (conj H1 (conj H2
    (proj2 (tops_update_closed 200 12 (py "d") loaded 100
                               H1 eq_refl H2 H3)))).
Defined.

(* ================================================================= *)
(** * Leagues: the ladder stays well-formed *)

Section TierwiseFacts.
(** A property of a tier that entering a player and emptying keep. *)
Variable P : league -> Prop.
Hypothesis P_enter : forall t q, P t -> P (dict_set t q 0%Z).
Hypothesis P_empty : P [].

Lemma enter_tier_all n : forall j q n',
  enter_tier n j q = Ret n' -> Forall P n -> Forall P n'.
Proof.
  induction n as [|t n IH]; intros j q n' H Hall; simpl in H; [discriminate|].
  inversion Hall as [|? ? Ht Hn]; subst.
  destruct j as [|j].
  - inversion H; subst; constructor; [apply P_enter; exact Ht | exact Hn].
  - destruct (enter_tier n j q) as [r|e] eqn:E; simpl in H; [|discriminate].
    inversion H; subst; constructor; [exact Ht | eapply IH; eauto].
Qed.

Lemma place_players_all l tlp : forall lplrs lpi n n',
  place_players l tlp lpi lplrs n = Ret n' -> Forall P n -> Forall P n'.
Proof.
  induction lplrs as [|q rest IH]; intros lpi n n' H Hall; simpl in H.
  - inversion H; subst; exact Hall.
  - destruct (enter_tier n _ q) as [n1|e] eqn:E; simpl in H; [|discriminate].
    eapply IH; [exact H | eapply enter_tier_all; eauto].
Qed.

Lemma place_leagues_all : forall old l n n',
  place_leagues l old n = Ret n' -> Forall P n -> Forall P n'.
Proof.
  induction old as [|lg rest IH]; intros l n n' H Hall; simpl in H.
  - inversion H; subst; exact Hall.
  - destruct (place_players l _ 1 _ n) as [n1|e] eqn:E; simpl in H;
      [|discriminate].
    eapply IH; [exact H | eapply place_players_all; eauto].
Qed.

Lemma clear_tier_all n : forall j n',
  clear_tier n j = Ret n' -> Forall P n -> Forall P n'.
Proof.
  induction n as [|t n IH]; intros j n' H Hall; simpl in H; [discriminate|].
  inversion Hall as [|? ? Ht Hn]; subst.
  destruct j as [|j].
  - inversion H; subst; constructor; [exact P_empty | exact Hn].
  - destruct (clear_tier n j) as [r|e] eqn:E; simpl in H; [|discriminate].
    inversion H; subst; constructor; [exact Ht | eapply IH; eauto].
Qed.

Lemma rollover_all now ld ld' :
  leagues_rollover now ld = Ret ld' -> Forall P (leagues ld').
Proof.
  unfold leagues_rollover; intros H.
  destruct (place_leagues 0 (leagues ld) (repeat [] 6)) as [n|e] eqn:E1;
    simpl in H; [|discriminate].
  destruct (clear_tier n 5) as [n'|e] eqn:E2; simpl in H; [|discriminate].
  inversion H; subst; cbn [leagues].
  eapply clear_tier_all; [exact E2|].
  eapply place_leagues_all; [exact E1|].
  repeat constructor; exact P_empty.
Qed.
End TierwiseFacts.

Lemma tiers_NoDup ls :
  Forall (fun t : league => NoDup (keys t)) ls <-> forall l, NoDup (tier ls l).
Proof.
  split.
  - intros H l. destruct (Nat.lt_ge_cases l (length ls)) as [Hl|Hl].
    + rewrite Forall_forall in H; apply H. apply nth_In; exact Hl.
    + rewrite tier_beyond by exact Hl; constructor.
  - intros H; induction ls as [|t ls IH]; constructor.
    + exact (H 0%nat).
    + apply IH; intros l; exact (H (S l)).
Qed.

Lemma rollover_ladder now ld :
  (length (leagues ld) <= 6)%nat ->
  (forall l, NoDup (tier (leagues ld) l)) ->
  (forall l l' q, In q (tier (leagues ld) l) ->
                  In q (tier (leagues ld) l') -> l = l') ->
  exists n, leagues_rollover now ld = Ret (Leagues (now + 604800) n) /\
            ladder n.
Proof.
  intros Hsix Hnd Hone.
  destruct (place_leagues_spec (leagues ld) 0 (repeat [] 6)
                               ltac:(simpl; lia) eq_refl)
    as (n1 & Hplace & Hlen1 & Hin1).
  destruct (clear_tier_spec n1 5 ltac:(lia)) as (n & Hclear & Hlen & Hfive & Hoth).
  assert (Hroll : leagues_rollover now ld = Ret (Leagues (now + 604800) n))
    by (unfold leagues_rollover; rewrite Hplace; simpl; rewrite Hclear;
        reflexivity).
  exists n; split; [exact Hroll|]; split; [lia|]; split.
  - apply tiers_NoDup.
    apply (rollover_all (fun t => NoDup (keys t))
             (fun t q H => keys_dict_set_NoDup _ t q _ H)
             (NoDup_nil _) now ld _ Hroll).
  - assert (Hin : forall j q, In q (tier n j) ->
               (j < 5)%nat /\
               exists l k, nth_error (tier (leagues ld) l) k = Some q /\
                           new_tier l (S k) (length (tier (leagues ld) l)) = j).
    { intros j q Hj.
      assert (Hlt : (j < 5)%nat).
      { destruct (Nat.lt_ge_cases j 5) as [H|H]; [exact H|].
        destruct (Nat.eq_dec j 5) as [->|Hne];
          [rewrite Hfive in Hj; destruct Hj|].
        rewrite tier_beyond in Hj by lia; destruct Hj. }
      split; [exact Hlt|].
      rewrite Hoth in Hj by lia. apply Hin1 in Hj.
      rewrite tier_fresh in Hj; destruct Hj as [[]|Hj]; exact Hj. }
    intros j j' q Hj Hj'.
    destruct (Hin j q Hj) as (_ & l & k & Hk & Hd).
    destruct (Hin j' q Hj') as (_ & l' & k' & Hk' & Hd').
    assert (l = l') by (eapply Hone; eapply nth_error_In; eassumption).
    subst l'.
    assert (k = k').
    { apply (proj1 (NoDup_nth_error _) (Hnd l)); [|congruence].
      apply nth_error_Some; congruence. }
    subst k'; congruence.
Qed.

Lemma find_league_none ls pid : forall lei,
  (forall j, ~ In pid (tier ls j)) -> find_league lei ls pid = 5%nat.
Proof.
  induction ls as [|t ls IH]; intros lei H; simpl; [reflexivity|].
  rewrite (proj2 (str_in_not_In pid (keys t)) (H 0%nat)).
  apply IH; intros j; exact (H (S j)).
Qed.

Lemma find_league_found ls pid : forall lei,
  (exists j, In pid (tier ls j)) ->
  exists j, find_league lei ls pid = (lei + j)%nat /\
            (j < length ls)%nat /\ In pid (tier ls j).
Proof.
  induction ls as [|t ls IH]; intros lei [j Hj].
  - rewrite tier_beyond in Hj by (simpl; lia); destruct Hj.
  - simpl. destruct (str_in pid (keys t)) eqn:E.
    + exists 0%nat; split; [lia|]; split; [simpl; lia|].
      apply str_in_In; exact E.
    + destruct j as [|j];
        [apply str_in_not_In in E; rewrite tier_cons_0 in Hj; contradiction|].
      destruct (IH (S lei) (ex_intro _ j Hj)) as (j' & Hf & Hlt & Hin).
      exists (S j'); split; [lia|]; split; [simpl; lia | exact Hin].
Qed.

Lemma award_tier_spec ls : forall le pid spoints,
  (le < length ls)%nat ->
  exists t', award_tier ls le pid spoints
             = Ret (firstn le ls ++ t' :: skipn (S le) ls) /\
    Permutation t'
      (dict_set (setdefault (nth le ls []) pid 0%Z) pid
         (match dict_get (nth le ls []) pid with
          | Some v => v
          | None => 0
          end + spoints)%Z).
Proof.
  induction ls as [|t ls IH]; intros le pid spoints Hle; simpl in Hle; [lia|].
  destruct le as [|le]; simpl.
  - eexists; split; [reflexivity|].
    rewrite dict_get_setdefault, pystr_eqb_refl.
    destruct (dict_get t pid); apply sorted_desc_perm.
  - destruct (IH le pid spoints ltac:(lia)) as (t' & -> & Hp).
    exists t'; split; [reflexivity | exact Hp].
Qed.

Lemma award_tier_beyond ls : forall le pid spoints,
  (length ls <= le)%nat -> award_tier ls le pid spoints = Raise IndexError.
Proof.
  induction ls as [|t ls IH]; intros le pid spoints Hle; simpl in *;
    [destruct le; reflexivity|].
  destruct le as [|le]; [lia|]. rewrite IH by lia; reflexivity.
Qed.

Lemma nth_replaced {A} (ls : list A) le t' d i :
  (le < length ls)%nat ->
  nth i (firstn le ls ++ t' :: skipn (S le) ls) d =
  if Nat.eqb i le then t' else nth i ls d.
Proof.
  revert le i; induction ls as [|t ls IH]; intros le i Hle; simpl in Hle;
    [lia|].
  destruct le as [|le]; destruct i as [|i]; simpl; try reflexivity.
  apply IH; lia.
Qed.

Lemma keys_setdefault V (d : list (pystr * V)) k v q :
  In q (keys (setdefault d k v)) <-> In q (keys d) \/ q = k.
Proof.
  unfold setdefault. destruct (dict_get d k) as [x|] eqn:E.
  - split; [now left|]. intros [H| ->]; [exact H|].
    destruct (in_dec (list_eq_dec N.eq_dec) k (keys d)) as [Hi|Hi];
      [exact Hi|].
    apply dict_get_None in Hi; congruence.
  - unfold keys; rewrite map_app, in_app_iff; simpl; intuition congruence.
Qed.

Lemma dict_get_Some_In V (d : list (pystr * V)) k v :
  dict_get d k = Some v -> In (k, v) d.
Proof.
  induction d as [|[k0 v0] d IH]; simpl; [discriminate|].
  destruct (pystr_eqb k k0) eqn:E; intros H.
  - apply pystr_eqb_eq in E; inversion H; subst; now left.
  - right; apply IH; exact H.
Qed.

Lemma classic_tier_search (ls : list league) (pid : pystr) :
  (exists j, In pid (tier ls j)) \/ (forall j, ~ In pid (tier ls j)).
Proof.
  induction ls as [|t ls IH].
  - right; intros j; rewrite tier_beyond by (simpl; lia); intros [].
  - destruct (in_dec (list_eq_dec N.eq_dec) pid (keys t)) as [H|H].
    + left; exists 0%nat; exact H.
    + destruct IH as [[j Hj]|Hno]; [left; exists (S j); exact Hj|].
      right; intros [|j]; [exact H | exact (Hno j)].
Qed.

(** The award in a well-formed ladder. *)
Lemma award_in_ladder (ls : list league) (pid : pystr) (spoints : Z) :
  ladder ls ->
  let le := find_league 0 ls pid in
  exists ls',
    award_tier ls le pid spoints = Ret ls' /\ ladder ls' /\
    In pid (tier ls' le) /\
    (le = 5%nat \/ In pid (tier ls le)) /\
    (forall i, In pid (tier ls i) -> i = le) /\
    points_in ls' le pid
    = Some (match points_in ls le pid with Some v => v | None => 0 end
            + spoints)%Z /\
    (forall i q, q <> pid -> points_in ls' i q = points_in ls i q).
Proof.
  intros (Hlen & Hnd & Hone) le.
  assert (Hle : (le < 6)%nat /\ (le = 5%nat \/ In pid (tier ls le)) /\
                (forall i, In pid (tier ls i) -> i = le)).
  { destruct (classic_tier_search ls pid) as [Hex|Hno].
    - destruct (find_league_found ls pid 0 Hex) as (j & Hf & Hlt & Hin).
      simpl in Hf; unfold le; rewrite Hf.
      split; [lia|]; split; [now right|].
      intros i Hi; eapply Hone; eassumption.
    - unfold le; rewrite (find_league_none ls pid 0 Hno).
      split; [lia|]; split; [now left|].
      intros i Hi; exfalso; exact (Hno i Hi). }
  destruct Hle as (Hlt & Hwhere & Honly).
  destruct (award_tier_spec ls le pid spoints ltac:(lia)) as (t' & Haw & Hp).
  set (t := nth le ls []) in *.
  set (old := match dict_get t pid with Some v => v | None => 0%Z end) in *.
  set (T := dict_set (setdefault t pid 0%Z) pid (old + spoints)%Z) in *.
  set (ls' := firstn le ls ++ t' :: skipn (S le) ls) in *.
  assert (Hnth : forall i, nth i ls' [] = if Nat.eqb i le then t' else nth i ls [])
    by (intros i; apply nth_replaced; lia).
  assert (HndT : NoDup (keys T)).
  { apply keys_dict_set_NoDup, setdefault_keys_NoDup. exact (Hnd le). }
  assert (Hget : forall q, dict_get t' q = dict_get T q)
    by (intros q; apply dict_get_perm; assumption).
  assert (Hkeys : forall i q, In q (tier ls' i) <->
                              In q (tier ls i) \/ (i = le /\ q = pid)).
  { intros i q; unfold tier; rewrite Hnth.
    destruct (Nat.eqb_spec i le) as [->|Hne]; [|intuition congruence].
    fold t. split.
    - intros H. apply (Permutation_in _ (Permutation_map fst Hp)) in H.
      apply keys_dict_set in H as [H| ->]; [|now right].
      apply keys_setdefault in H as [H| ->]; [now left | now right].
    - intros H.
      apply (Permutation_in _ (Permutation_sym (Permutation_map fst Hp))).
      apply keys_dict_set. destruct H as [H|[_ ->]]; [left | now right].
      apply keys_setdefault; now left. }
  exists ls'; split; [exact Haw|]; split;
    [|split; [|split; [exact Hwhere|split; [exact Honly|split]]]].
  - split; [|split].
    + unfold ls'; rewrite length_app, length_firstn.
      change (length (t' :: skipn (S le) ls))
        with (S (length (skipn (S le) ls))).
      rewrite length_skipn; lia.
    + intros i; unfold tier; rewrite Hnth.
      destruct (Nat.eqb i le); [|exact (Hnd i)].
      eapply Permutation_NoDup;
        [apply Permutation_map, Permutation_sym; exact Hp | exact HndT].
    + intros i i' q Hi Hi'. apply Hkeys in Hi, Hi'.
      destruct Hi as [Hi|[-> ->]], Hi' as [Hi'|[-> Hq]].
      * eapply Hone; eassumption.
      * subst q; apply Honly; exact Hi.
      * symmetry; apply Honly; exact Hi'.
      * reflexivity.
  - apply Hkeys; right; split; reflexivity.
  - unfold points_in; rewrite Hnth, Nat.eqb_refl, Hget.
    unfold T; rewrite dict_get_set, pystr_eqb_refl. reflexivity.
  - intros i q Hq; unfold points_in; rewrite Hnth.
    destruct (Nat.eqb_spec i le) as [->|Hne]; [|reflexivity].
    rewrite Hget; unfold T.
    rewrite dict_get_set, (proj2 (pystr_eqb_neq q pid) Hq).
    rewrite dict_get_setdefault, (proj2 (pystr_eqb_neq q pid) Hq).
    fold t; destruct (dict_get t q); reflexivity.
Qed.

Lemma dict_set_zeros (t : league) q :
  Forall (fun kv => snd kv = 0%Z) t ->
  Forall (fun kv => snd kv = 0%Z) (dict_set t q 0%Z).
Proof.
  induction t as [|[k v] t IH]; simpl; intros H.
  - repeat constructor.
  - inversion H; subst. destruct (pystr_eqb q k); constructor; auto.
Qed.

Lemma zeros_points (n : list league) :
  Forall (fun t : league => Forall (fun kv => snd kv = 0%Z) t) n ->
  forall i q v, points_in n i q = Some v -> v = 0%Z.
Proof.
  intros H i q v Hv; unfold points_in in Hv.
  destruct (Nat.lt_ge_cases i (length n)) as [Hi|Hi].
  - rewrite Forall_forall in H. specialize (H _ (nth_In n [] Hi)).
    rewrite Forall_forall in H.
    exact (H _ (dict_get_Some_In _ _ _ _ Hv)).
  - rewrite nth_overflow in Hv by exact Hi; discriminate.
Qed.

Lemma window_open now ld : ~ lend ld < now -> Qltb (lend ld) now = false.
Proof.
  intros H; destruct (Qltb (lend ld) now) eqn:E; [|reflexivity].
  apply Qltb_true in E; contradiction.
Qed.

Lemma sample_ladder_ok : ladder sample_ladder.
Proof.
  split; [reflexivity|]; split.
  - intros l. do 6 (destruct l as [|l];
      [repeat constructor; simpl; intuition discriminate|]).
    destruct l; constructor.
  - intros l l' q Hq Hq'.
    do 6 (destruct l as [|l];
      [do 6 (destruct l' as [|l'];
         [first [reflexivity
                | exfalso; simpl in Hq, Hq';
                  intuition (subst; discriminate)]|]);
       destruct l'; destruct Hq'|]).
    destruct l; destruct Hq.
Qed.

(** X18. Whatever the state of the weekly window, the award of league
    points to a player turns a well-formed ladder (six tiers, no id twice in
    a tier, no id in two tiers) into a well-formed ladder, returns without
    an exception, and leaves the player listed in one of the six tiers. *)
Theorem leagues_update_keeps_ladder (now : Q) (spoints : Z) (pid : pystr)
        (ld : leaguesdata) :
  ladder (leagues ld) ->
  exists ld',
    leagues_update now spoints pid ld = Ret ld' /\
    ladder (leagues ld') /\
    exists le, (le < 6)%nat /\ In pid (tier (leagues ld') le).
Proof.
  intros Hl. unfold leagues_update.
  assert (Hfin : forall e ls, ladder ls ->
            exists ld', (ls' <- award_tier ls (find_league 0 ls pid) pid spoints ;;
                         Ret (Leagues e ls')) = Ret ld' /\
                        ladder (leagues ld') /\
                        exists le, (le < 6)%nat /\ In pid (tier (leagues ld') le)).
  { intros e ls Hls.
    destruct (award_in_ladder ls pid spoints Hls)
      as (ls' & Haw & Hl' & Hin & _).
    exists (Leagues e ls'); rewrite Haw; simpl.
    split; [reflexivity|]; split; [exact Hl'|].
    exists (find_league 0 ls pid); split; [|exact Hin].
    destruct (Nat.lt_ge_cases (find_league 0 ls pid) 6) as [H|H];
      [exact H|].
    destruct Hl' as (Hlen & _). rewrite tier_beyond in Hin by lia.
    destruct Hin. }
  destruct (Qltb (lend ld) now).
  - destruct Hl as (Hlen & Hnd & Hone).
    destruct (rollover_ladder now ld ltac:(lia) Hnd Hone) as (n & Hr & Hn).
    rewrite Hr; simpl. exact (Hfin _ n Hn).
  - simpl. exact (Hfin _ _ Hl).
Qed.

Lemma leagues_update_ladder_witness :
  ladder sample_ladder /\
  exists ld',
    leagues_update 10 6 (py "d") (Leagues 20 sample_ladder) = Ret ld' /\
    ladder (leagues ld') /\
    exists le, (le < 6)%nat /\ In (py "d") (tier (leagues ld') le).
Proof.
  exact (conj sample_ladder_ok
           (leagues_update_keeps_ladder 10 6 (py "d")
              (Leagues 20 sample_ladder) sample_ladder_ok)).
Defined.

(** X19. While the weekly window is open, the award on a well-formed ladder
    keeps the deadline, adds exactly [spoints] to the player's total in the
    tier that lists them, enters an unlisted player in tier 5 with [spoints],
    and changes the total of nobody else in any tier. *)
Theorem leagues_update_open_adds (now : Q) (spoints : Z) (pid : pystr)
        (ld : leaguesdata) :
  ladder (leagues ld) ->
  ~ lend ld < now ->
  exists ld',
    leagues_update now spoints pid ld = Ret ld' /\
    lend ld' = lend ld /\
    (forall i v, points_in (leagues ld) i pid = Some v ->
                 points_in (leagues ld') i pid = Some (v + spoints)%Z) /\
    ((forall i, points_in (leagues ld) i pid = None) ->
     points_in (leagues ld') 5 pid = Some spoints) /\
    (forall i q, q <> pid ->
                 points_in (leagues ld') i q = points_in (leagues ld) i q).
Proof.
  intros Hl Hopen. unfold leagues_update.
  rewrite (window_open now ld Hopen); simpl.
  destruct (award_in_ladder (leagues ld) pid spoints Hl)
    as (ls' & Haw & _ & _ & Hwhere & Honly & Hpid & Hoth).
  rewrite Haw; simpl. exists (Leagues (lend ld) ls'); cbn [lend leagues].
  split; [reflexivity|]; split; [reflexivity|]; split; [|split].
  - intros i v Hv.
    assert (Hi : In pid (tier (leagues ld) i)).
    { destruct (in_dec (list_eq_dec N.eq_dec) pid (tier (leagues ld) i))
        as [H|H]; [exact H|].
      apply dict_get_None in H. unfold points_in in Hv; congruence. }
    rewrite <- (Honly i Hi) in Hpid. rewrite Hpid, Hv; reflexivity.
  - intros Hnone.
    destruct Hwhere as [Hfive|Hin].
    + rewrite Hfive in Hpid. rewrite Hpid, Hnone; reflexivity.
    + exfalso. revert Hin. apply dict_get_None. apply Hnone.
  - exact Hoth.
Qed.

Lemma leagues_update_open_witness :
  ladder sample_ladder /\ ~ (20 < 10) /\
  exists ld',
    leagues_update 10 6 (py "c") (Leagues 20 sample_ladder) = Ret ld' /\
    lend ld' = 20 /\
    (forall i v, points_in sample_ladder i (py "c") = Some v ->
                 points_in (leagues ld') i (py "c") = Some (v + 6)%Z) /\
    ((forall i, points_in sample_ladder i (py "c") = None) ->
     points_in (leagues ld') 5 (py "c") = Some 6%Z) /\
    (forall i q, q <> py "c" ->
                 points_in (leagues ld') i q = points_in sample_ladder i q).
Proof.
  assert (H : ~ (20 < 10)) by (intros H; discriminate H).
  exact (conj sample_ladder_ok
           (conj H (leagues_update_open_adds 10 6 (py "c")
                      (Leagues 20 sample_ladder) sample_ladder_ok H))).
Defined.

(** X20. When the weekly window has closed, the award on a well-formed
    ladder starts the next week: the deadline becomes [now + 604800], the
    awarded player holds exactly [spoints] in the tier that lists them, and
    every other listed player holds zero. *)
Theorem leagues_update_closed_resets (now : Q) (spoints : Z) (pid : pystr)
        (ld : leaguesdata) :
  ladder (leagues ld) ->
  lend ld < now ->
  exists ld',
    leagues_update now spoints pid ld = Ret ld' /\
    lend ld' = now + 604800 /\
    (exists le, (le < 6)%nat /\
                points_in (leagues ld') le pid = Some spoints) /\
    (forall i q v, q <> pid ->
                   points_in (leagues ld') i q = Some v -> v = 0%Z).
Proof.
  intros (Hlen & Hnd & Hone) Hclosed. unfold leagues_update.
  rewrite (proj2 (Qltb_true _ _) Hclosed).
  destruct (rollover_ladder now ld ltac:(lia) Hnd Hone) as (n & Hr & Hn).
  rewrite Hr; simpl.
  pose proof (zeros_points n
                (rollover_all (fun t => Forall (fun kv => snd kv = 0%Z) t)
                   dict_set_zeros (Forall_nil _) now ld _ Hr)) as Hz.
  destruct (award_in_ladder n pid spoints Hn)
    as (ls' & Haw & Hl' & Hin & _ & _ & Hpid & Hoth).
  rewrite Haw; simpl. exists (Leagues (now + 604800) ls'); cbn [lend leagues].
  split; [reflexivity|]; split; [reflexivity|]; split.
  - exists (find_league 0 n pid); split.
    + destruct (Nat.lt_ge_cases (find_league 0 n pid) 6) as [H|H];
        [exact H|].
      destruct Hl' as (Hl6 & _). rewrite tier_beyond in Hin by lia.
      destruct Hin.
    + rewrite Hpid.
      destruct (points_in n (find_league 0 n pid) pid) as [v|] eqn:E;
        [rewrite (Hz _ _ _ E)|]; reflexivity.
  - intros i q v Hq Hv. rewrite (Hoth i q Hq) in Hv. exact (Hz _ _ _ Hv).
Qed.

Lemma leagues_update_closed_witness :
  ladder sample_ladder /\ 20 < 30 /\
  exists ld',
    leagues_update 30 6 (py "c") (Leagues 20 sample_ladder) = Ret ld' /\
    lend ld' = 30 + 604800 /\
    (exists le, (le < 6)%nat /\
                points_in (leagues ld') le (py "c") = Some 6%Z) /\
    (forall i q v, q <> py "c" ->
                   points_in (leagues ld') i q = Some v -> v = 0%Z).
Proof.
  assert (H : 20 < 30) by reflexivity.
  exact (conj sample_ladder_ok
           (conj H (leagues_update_closed_resets 30 6 (py "c")
                      (Leagues 20 sample_ladder) sample_ladder_ok H))).
Defined.

(** X21. A stored ladder of fewer than six tiers is not repaired while the
    weekly window is open: the award to a player whom no tier lists raises
    [IndexError]. *)
Theorem short_ladder_raises (now : Q) (spoints : Z) (pid : pystr)
        (ld : leaguesdata) :
  (length (leagues ld) < 6)%nat ->
  ~ lend ld < now ->
  (forall j, ~ In pid (tier (leagues ld) j)) ->
  leagues_update now spoints pid ld = Raise IndexError.
Proof.
  intros Hshort Hopen Hnone. unfold leagues_update.
  rewrite (window_open now ld Hopen); simpl.
  rewrite (find_league_none _ pid 0%nat Hnone).
  rewrite award_tier_beyond by lia. reflexivity.
Qed.

Lemma short_ladder_witness :
  (length (leagues (Leagues 20 [[(py "a", 9%Z)]; []])) < 6)%nat /\
  ~ (20 < 10) /\
  (forall j, ~ In (py "d") (tier [[(py "a", 9%Z)]; []] j)) /\
  leagues_update 10 6 (py "d") (Leagues 20 [[(py "a", 9%Z)]; []])
  = Raise IndexError.
Proof.
  assert (H1 : (length (leagues (Leagues 20 [[(py "a", 9%Z)]; []])) < 6)%nat)
    by (simpl; lia).
  assert (H2 : ~ (20 < 10)) by (intros H; discriminate H).
  assert (H3 : forall j, ~ In (py "d") (tier [[(py "a", 9%Z)]; []] j)).
  { intros [|[|[|j]]]; simpl; intuition discriminate. }
  exact (conj H1 (conj H2 (conj H3
           (short_ladder_raises 10 6 (py "d") (Leagues 20 _) H1 H2 H3)))).
Defined.

Lemma first_piece_no_sep c s : ~ In c (nth 0 (split c s) []).
Proof.
  induction s as [|a s IH]; simpl; [tauto|].
  destruct (N.eqb_spec a c) as [->|Hne]; simpl; [tauto|].
  destruct (split c s) as [|w ws]; simpl in *; intuition congruence.
Qed.

(** A separator-free string survives the list loop of the normalizer. *)
Lemma list_loop_keeps (py_float : pystr -> option Q) (now : Q) (s : pystr) :
  ~ In SEP s ->
  forall l acc r,
    _update_list_loop (_update py_float now) l acc = Ret r ->
    In (JStr s) l \/ In (JStr s) acc -> In (JStr s) r.
Proof.
  intros Hs. induction l as [|e l IH]; intros acc r H Hin; simpl in H.
  - inversion H; subst. destruct Hin as [[]|Hin]; exact Hin.
  - destruct (_update py_float now e) as [e'|x] eqn:E; simpl in H;
      [|discriminate].
    apply (IH _ _ H). destruct Hin as [[->|Hin]|Hin]; [|now left|].
    + simpl in E; unfold _update_str in E.
      rewrite (split_no_sep _ _ Hs) in E; simpl in E.
      inversion E; subst; simpl. right; apply in_or_app; right; now left.
    + right. destruct (is_null e'); [exact Hin|].
      apply in_or_app; now left.
Qed.

Lemma json_is_str_In pcode l :
  existsb (json_is_str pcode) l = true <-> In (JStr pcode) l.
Proof.
  rewrite existsb_exists; split.
  - intros (x & Hx & E). destruct x; try discriminate.
    apply pystr_eqb_eq in E; subst; exact Hx.
  - intros H; exists (JStr pcode); split; [exact H|].
    apply pystr_eqb_refl.
Qed.

Lemma dict_get_filter_key V (f : pystr * V -> bool) (d : list (pystr * V)) k :
  (forall v, f (k, v) = true) ->
  dict_get (filter f d) k = dict_get d k.
Proof.
  intros Hf; induction d as [|[k0 v0] d IH]; simpl; [reflexivity|].
  destruct (pystr_eqb k k0) eqn:E.
  - apply pystr_eqb_eq in E; subst k0. rewrite Hf; simpl.
    rewrite pystr_eqb_refl; reflexivity.
  - destruct (f (k0, v0)); simpl; [rewrite E|]; exact IH.
Qed.

Lemma doc_plr_pother d p :
  doc_plr d = Some p ->
  pother p = filter (fun kv => negb (str_in (fst kv) PLR_FIELDS)) d.
Proof.
  unfold doc_plr; intros H.
  repeat match type of H with
         | context [match ?x with _ => _ end] => destruct x; try discriminate
         end.
  inversion H; reflexivity.
Qed.

(** The prologue of the next command keeps a separator-free promo code in
    the list of used codes. *)
Lemma prologue_keeps_code (py_float : pystr -> option Q) (now : Q)
      (fs : files) (path pcode : pystr) (p p2 : plrdata) (ups : list json) :
  ~ In SEP pcode ->
  NoDup (keys (plr_doc p)) ->
  dict_get (pother p) (py "upcodes") = Some (JList ups) ->
  In (JStr pcode) ups ->
  fs path = Some (JDict (plr_doc p)) ->
  fst (player_prologue py_float now fs path) = Ret (Some p2) ->
  exists ups2, dict_get (pother p2) (py "upcodes") = Some (JList ups2) /\
               In (JStr pcode) ups2.
Proof.
  intros Hsep Hnd Hu Hin Hfs H.
  unfold player_prologue, load in *. rewrite Hfs in *.
  cbn [_update] in *.
  destruct (_update_dict_loop (_update py_float now) (plr_doc p) [])
    as [d1|e] eqn:Hloop; [|discriminate H].
  cbn [bind drill fst snd] in *.
  assert (Hd1 : exists ups2, dict_get d1 (py "upcodes") = Some (JList ups2) /\
                             In (JStr pcode) ups2).
  { assert (Hmem : In (py "upcodes", JList ups) (plr_doc p)).
    { unfold plr_doc; apply in_or_app; right.
      apply dict_get_Some_In; exact Hu. }
    destruct (proj2 (dict_loop_get py_float (_update py_float now)
                                   (plr_doc p) [] d1
                                   Hnd Hloop (py "upcodes"))
                    _ Hmem) as (v' & Hv' & Hg).
    cbn [_update] in Hv'.
    destruct (_update_list_loop (_update py_float now) ups [])
      as [ups2|e] eqn:Hl; [|discriminate Hv'].
    inversion Hv'; subst v'. cbn [is_null] in Hg.
    exists ups2; split; [exact Hg|].
    apply (list_loop_keeps py_float now pcode Hsep ups [] ups2 Hl).
    left; exact Hin. }
  destruct Hd1 as (ups2 & Hg & Hin2).
  assert (Htruthy : json_truthy (JDict d1) = true)
    by (destruct d1; [discriminate Hg | reflexivity]).
  rewrite Htruthy in *. cbn [fst snd] in *.
  exists ups2; split; [|exact Hin2].
  inversion H as [Hp2].
  rewrite (doc_plr_pother _ _ Hp2).
  rewrite dict_get_filter_key by (intros v; reflexivity).
  unfold sdpd; rewrite setdefaults_get, Hg; reflexivity.
Qed.

Lemma load_plain_same (py_float : pystr -> option Q) (n1 n2 : Q)
      (fs1 fs2 : files) (gorl : pystr) (args : list pystr) :
  fs1 gorl = fs2 gorl ->
  fst (load py_float n1 fs1 gorl args false)
  = fst (load py_float n2 fs2 gorl args false).
Proof.
  intros H; unfold load; rewrite H. destruct (fs2 gorl); reflexivity.
Qed.

(** The prologue rewrites the player's file only. *)
Lemma prologue_writes_player_only (py_float : pystr -> option Q) (now : Q)
      (fs : files) (path other : pystr) :
  other <> path ->
  snd (player_prologue py_float now fs path) other = fs other.
Proof.
  intros Hne. unfold player_prologue, load.
  destruct (fs path) as [D|]; [|reflexivity].
  destruct (_update py_float now D) as [D1|e]; [|reflexivity].
  cbn [drill]. 
  assert (Hw : write fs path D1 other = fs other)
    by (unfold write; rewrite (proj2 (pystr_eqb_neq other path) Hne);
        reflexivity).
  destruct (json_truthy D1); [destruct D1|]; exact Hw.
Qed.

Section CodeFacts.
Variable py_float : pystr -> option Q.
Variable str_of_float : Q -> pystr.
Variable now : Q.
Variable fs : files.

Lemma reward_keeps r p notes notes' p' :
  reward py_float str_of_float now r p notes = (notes', Ret p') ->
  pother p' = pother p /\ lang p' = lang p /\ equipped p' = equipped p /\
  (exists added, items p' = items p ++ added) /\
  (NoDup (map item_base (items p ++ equipped p)) ->
   NoDup (map item_base (items p' ++ equipped p'))).
Proof.
  assert (Hsame : forall z, let q := Plr (spoints p + z) (items p) (equipped p)
                                         (lang p) (allianceidref p) (pother p) in
            pother q = pother p /\ lang q = lang p /\
            equipped q = equipped p /\
            (exists added, items q = items p ++ added) /\
            (NoDup (map item_base (items p ++ equipped p)) ->
             NoDup (map item_base (items q ++ equipped q)))).
  { intros z; cbn; repeat split; try tauto.
    exists []; rewrite app_nil_r; reflexivity. }
  destruct r as [|[|]|z|f|s|l|d]; simpl; try discriminate;
    unfold points_reward; intros H; try (inversion H; subst; apply Hsame).
  set (base := nth 0 (split SEP s) []) in *.
  destruct (str_in base (map item_base (items p ++ equipped p))) eqn:Hown.
  - inversion H; subst. repeat split; try tauto.
    exists []; rewrite app_nil_r; reflexivity.
  - assert (Hnr : forall nr, item_base nr = base ->
              let q := Plr (spoints p) (items p ++ [nr]) (equipped p)
                           (lang p) (allianceidref p) (pother p) in
              NoDup (map item_base (items p ++ equipped p)) ->
              NoDup (map item_base (items q ++ equipped q))).
    { intros nr Hb q Hnd; cbn [items equipped q].
      eapply Permutation_NoDup with
        (l := map item_base (nr :: items p ++ equipped p)).
      - apply Permutation_map. rewrite <- app_assoc.
        apply Permutation_middle.
      - simpl; rewrite Hb; constructor; [|exact Hnd].
        apply str_in_not_In; exact Hown. }
    assert (Hbase : ~ In SEP base) by apply first_piece_no_sep.
    destruct (Nat.eqb (length (split SEP s)) 2).
    + destruct (py_float (nth 1 (split SEP s) [])) as [f|]; [|discriminate].
      inversion H; subst; cbn [pother lang equipped items].
      repeat split; [eexists; reflexivity|].
      apply Hnr. unfold item_base; rewrite split_at_first by exact Hbase.
      reflexivity.
    + inversion H; subst; cbn [pother lang equipped items].
      repeat split; [eexists; reflexivity|].
      apply Hnr. unfold item_base; rewrite split_no_sep by exact Hbase.
      reflexivity.
Qed.

Lemma rewards_keeps rs : forall p notes notes' p',
  rewards py_float str_of_float now rs p notes = (notes', Ret p') ->
  pother p' = pother p /\ lang p' = lang p /\ equipped p' = equipped p /\
  (exists added, items p' = items p ++ added) /\
  (NoDup (map item_base (items p ++ equipped p)) ->
   NoDup (map item_base (items p' ++ equipped p'))).
Proof.
  induction rs as [|r rs IH]; intros p notes notes' p' H; simpl in H.
  - inversion H; subst. repeat split; try tauto.
    exists []; rewrite app_nil_r; reflexivity.
  - destruct (reward py_float str_of_float now r p notes) as [n1 [p1|e]] eqn:E;
      [|discriminate].
    destruct (reward_keeps _ _ _ _ _ E) as (Ho & Hl & He & (a1 & Hi) & Hn).
    destruct (IH _ _ _ _ H) as (Ho' & Hl' & He' & (a2 & Hi') & Hn').
    repeat split; try congruence; [|tauto].
    exists (a1 ++ a2); rewrite Hi', Hi, app_assoc; reflexivity.
Qed.

(** What a promo command that reached the epilogue did. *)
Lemma code_saved (msg_splits : list pystr) (p : plrdata)
      (ad : option (pystr * alliance)) (notes : list note) (p' : plrdata)
      (ad' : option (pystr * alliance)) (names : option (list pystr)) :
  nth_error msg_splits 1 = Some (py "promo") ->
  code_branch py_float str_of_float now fs msg_splits p ad
  = Saved notes p' ad' names ->
  Nat.eqb (length msg_splits) 1 = false /\ ad' = ad /\ names = None /\
  exists pcode pval,
    nth_error msg_splits 2 = Some pcode /\
    fst (load py_float now fs GINFO [py "pcodes"; pcode] false) = Ret pval /\
    ((p' = p /\ notes = inform (py "usedCode") error (lang p) [] /\
      (json_truthy pval = false \/
       json_truthy pval = true /\
       exists ups, dict_get (pother p) (py "upcodes") = Some (JList ups) /\
                   existsb (json_is_str pcode) ups = true)) \/
     exists ups rs,
       json_truthy pval = true /\
       dict_get (pother p) (py "upcodes") = Some (JList ups) /\
       existsb (json_is_str pcode) ups = false /\
       iterate pval = Some rs /\
       rewards py_float str_of_float now rs
         (Plr (spoints p) (items p) (equipped p) (lang p) (allianceidref p)
              (dict_set (pother p) (py "upcodes")
                        (JList (ups ++ [JStr pcode])))) []
       = (notes, Ret p')).
Proof.
  unfold code_branch; intros Hpromo H. rewrite Hpromo in H.
  destruct (Nat.eqb (length msg_splits) 1); [discriminate|].
  split; [reflexivity|].
  rewrite pystr_eqb_refl in H.
  destruct (nth_error msg_splits 2) as [pcode|]; [|discriminate].
  destruct (fst (load py_float now fs GINFO [py "pcodes"; pcode] false))
    as [pval|e] eqn:Hl; [|destruct e; discriminate].
  destruct (json_truthy pval) eqn:Ht.
  2:{ inversion H; subst. split; [reflexivity|]; split; [reflexivity|].
      exists pcode, pval; split; [reflexivity|]; split; [assumption || reflexivity|].
      left; split; [reflexivity|]; split; [reflexivity|]; now left. }
  destruct (dict_get (pother p) (py "upcodes")) as [[| | | | |ups|]|] eqn:Hu;
    try discriminate.
  destruct (existsb (json_is_str pcode) ups) eqn:Hin; cbn [negb] in H.
  { inversion H; subst. split; [reflexivity|]; split; [reflexivity|].
    exists pcode, pval; split; [reflexivity|]; split; [assumption || reflexivity|].
    left; split; [reflexivity|]; split; [reflexivity|]; right.
    split; [assumption || reflexivity|].
    exists ups; split; assumption || reflexivity. }
  destruct (iterate pval) as [rs|] eqn:Hit; [|discriminate].
  destruct (rewards _ _ _ rs _ []) as [n1 [p1|e]] eqn:Hr;
    [|destruct e; discriminate].
  inversion H; subst. split; [reflexivity|]; split; [reflexivity|].
  exists pcode, pval; split; [reflexivity|]; split; [assumption || reflexivity|].
  right; exists ups, rs. repeat split; assumption || reflexivity.
Qed.

(** X22. A promo code without the separator is honoured at most once per
    player.  After a [/code promo <code>] command that reached the epilogue
    and wrote the player document, let the next command load it: the
    prologue normalizes the file at any clock reading and fills in the
    defaults, the promo file being what it was.  The same command on the
    loaded document is then refused with [usedCode] and leaves that
    document as it is. *)
Theorem promo_code_once (msg_splits : list pystr) (pcode path : pystr)
        (p : plrdata) (ad : option (pystr * alliance)) (notes : list note)
        (p' : plrdata) (ad' : option (pystr * alliance))
        (names : option (list pystr)) (fs1 : files) (now2 : Q)
        (p2 : plrdata) (ad2 : option (pystr * alliance)) :
  nth_error msg_splits 1 = Some (py "promo") ->
  nth_error msg_splits 2 = Some pcode ->
  ~ In SEP pcode ->
  NoDup (keys (plr_doc p)) ->
  code_branch py_float str_of_float now fs msg_splits p ad
  = Saved notes p' ad' names ->
  path <> GINFO ->
  fs1 path = Some (JDict (plr_doc p')) ->
  fs1 GINFO = fs GINFO ->
  fst (player_prologue py_float now2 fs1 path) = Ret (Some p2) ->
  code_branch py_float str_of_float now2
              (snd (player_prologue py_float now2 fs1 path)) msg_splits p2 ad2
  = Saved (inform (py "usedCode") error (lang p2) []) p2 ad2 None.
Proof.
  intros Hpromo Hcode Hsep Hnd H Hpath Hfs1 Hginfo Hp2.
  destruct (code_saved _ _ _ _ _ _ _ Hpromo H)
    as (Hlen & _ & _ & pcode' & pval & Hc & Hl & Hcases).
  rewrite Hcode in Hc; inversion Hc; subst pcode'; clear Hc.
  set (fs2 := snd (player_prologue py_float now2 fs1 path)).
  assert (Hl2 : fst (load py_float now2 fs2 GINFO [py "pcodes"; pcode] false)
                = Ret pval).
  { rewrite <- Hl. apply load_plain_same. unfold fs2.
    rewrite prologue_writes_player_only by (intros E; apply Hpath; congruence).
    exact Hginfo. }
  assert (Hused : forall q ups,
            NoDup (keys (plr_doc q)) ->
            fs1 path = Some (JDict (plr_doc q)) ->
            dict_get (pother q) (py "upcodes") = Some (JList ups) ->
            In (JStr pcode) ups ->
            json_truthy pval = true ->
            code_branch py_float str_of_float now2 fs2 msg_splits p2 ad2
            = Saved (inform (py "usedCode") error (lang p2) []) p2 ad2 None).
  { intros q ups Hndq Hfsq Hu Hin Ht.
    destruct (prologue_keeps_code py_float now2 fs1 path pcode q p2 ups
                Hsep Hndq Hu Hin Hfsq Hp2) as (ups2 & Hu2 & Hin2).
    unfold code_branch.
    rewrite Hlen, Hpromo, pystr_eqb_refl, Hcode, Hl2, Ht, Hu2.
    rewrite (proj2 (json_is_str_In pcode ups2) Hin2); reflexivity. }
  destruct Hcases as [(-> & _ & [Ht|(Ht & ups & Hu & Hin)])
                     |(ups & rs & Ht & Hu & _ & _ & Hr)].
  - unfold code_branch.
    rewrite Hlen, Hpromo, pystr_eqb_refl, Hcode, Hl2, Ht; reflexivity.
  - apply (Hused p ups Hnd Hfs1 Hu); [|exact Ht].
    apply json_is_str_In; exact Hin.
  - destruct (rewards_keeps _ _ _ _ _ Hr) as (Ho & _).
    cbn [pother] in Ho.
    apply (Hused p' (ups ++ [JStr pcode])); [|exact Hfs1| | |exact Ht].
    + revert Hnd; unfold plr_doc, keys; rewrite !map_app.
      fold (keys (pother p')); fold (keys (pother p)).
      rewrite Ho, (keys_dict_set_present _ _ _ _ _ Hu); cbn [map fst].
      intros Hnd; exact Hnd.
    + rewrite Ho, dict_get_set, pystr_eqb_refl; reflexivity.
    + apply in_or_app; right; now left.
Qed.

(** X23. A promo code only adds: after a [/code promo] command that reached
    the epilogue the equipped list is the same, the items list is the old
    one with entries appended, and when no two entries of the two lists
    shared an identity string before, none do afterwards. *)
Theorem promo_code_only_adds (msg_splits : list pystr) (p : plrdata)
        (ad : option (pystr * alliance)) (notes : list note) (p' : plrdata)
        (ad' : option (pystr * alliance)) (names : option (list pystr)) :
  nth_error msg_splits 1 = Some (py "promo") ->
  code_branch py_float str_of_float now fs msg_splits p ad
  = Saved notes p' ad' names ->
  equipped p' = equipped p /\
  (exists added, items p' = items p ++ added) /\
  (NoDup (map item_base (items p ++ equipped p)) ->
   NoDup (map item_base (items p' ++ equipped p'))).
Proof.
  intros Hpromo H.
  destruct (code_saved _ _ _ _ _ _ _ Hpromo H)
    as (_ & _ & _ & pcode & pval & _ & _ & [[-> _]|Hred]).
  - split; [reflexivity|]; split; [|tauto].
    exists []; rewrite app_nil_r; reflexivity.
  - destruct Hred as (ups & rs & _ & _ & _ & _ & Hr).
    destruct (rewards_keeps _ _ _ _ _ Hr) as (_ & _ & He & Hi & Hn).
    exact (conj He (conj Hi Hn)).
Qed.
End CodeFacts.

Lemma promo_code_once_witness :
  let ms := [py "code"; py "promo"; py "WELCOME"] in
  let path := py "gstats/pb-1" in
  let p := Plr 5 [] [] (Some (py "en")) None [(py "upcodes", JList [])] in
  let p' := Plr 55 [py "cap@hat"] [] (Some (py "en")) None
                [(py "upcodes", JList [JStr (py "WELCOME")])] in
  let notes := inform (py "successfulCodeRegister") success (Some (py "en"))
                      [py "50 SPoints"]
               ++ inform (py "successfulCodeRegister") success
                         (Some (py "en")) [py "cap@hat"] in
  let fs1 := write sample_ginfo path (JDict (plr_doc p')) in
  let p2 := Plr 55 [py "cap@hat"] [] (Some (py "en")) None
                [(py "upcodes", JList [JStr (py "WELCOME")]);
                 (py "tag", JNull); (py "chaos", JInt 0);
                 (py "luck", JInt 0); (py "charge", JInt 1);
                 (py "alliancetag", JNull); (py "toptag", JNull);
                 (py "leaguetag", JNull)] in
  ~ In SEP (py "WELCOME") /\
  NoDup (keys (plr_doc p)) /\
  code_branch decimal_float whole_float_str 0 sample_ginfo ms p None
  = Saved notes p' None None /\
  fst (player_prologue decimal_float 10 fs1 path) = Ret (Some p2) /\
  code_branch decimal_float whole_float_str 10
              (snd (player_prologue decimal_float 10 fs1 path)) ms p2 None
  = Saved (inform (py "usedCode") error (lang p2) []) p2 None None.
Proof.
  intros ms path p p' notes fs1 p2.
  assert (H1 : ~ In SEP (py "WELCOME")) by absent.
  assert (H2 : NoDup (keys (plr_doc p))).
  { cbv; repeat (constructor; [absent|]); constructor. }
  assert (H3 : code_branch decimal_float whole_float_str 0 sample_ginfo ms p
                           None = Saved notes p' None None) by reflexivity.
  assert (H4 : path <> GINFO) by discriminate.
  assert (H5 : fst (player_prologue decimal_float 10 fs1 path)
               = Ret (Some p2)) by reflexivity.
  exact (conj H1 (conj H2 (conj H3 (conj H5
    (promo_code_once decimal_float whole_float_str 0 sample_ginfo
       ms (py "WELCOME") path p None notes p' None None fs1 10 p2 None
       eq_refl eq_refl H1 H2 H3 H4 eq_refl eq_refl H5))))).
Defined.

Lemma promo_code_only_adds_witness :
  let ms := [py "code"; py "promo"; py "WELCOME"] in
  let p := Plr 5 [py "wig@hat"] [py "red@skin"] (Some (py "en")) None
               [(py "upcodes", JList [])] in
  let p' := Plr 55 [py "wig@hat"; py "cap@hat"] [py "red@skin"]
                (Some (py "en")) None
                [(py "upcodes", JList [JStr (py "WELCOME")])] in
  let notes := inform (py "successfulCodeRegister") success (Some (py "en"))
                      [py "50 SPoints"]
               ++ inform (py "successfulCodeRegister") success
                         (Some (py "en")) [py "cap@hat"] in
  nth_error ms 1 = Some (py "promo") /\
  code_branch decimal_float whole_float_str 0 sample_ginfo ms p None
  = Saved notes p' None None /\
  equipped p' = equipped p /\
  (exists added, items p' = items p ++ added) /\
  (NoDup (map item_base (items p ++ equipped p)) ->
   NoDup (map item_base (items p' ++ equipped p'))).
Proof.
  intros ms p p' notes.
  assert (H : code_branch decimal_float whole_float_str 0 sample_ginfo ms p
                          None = Saved notes p' None None) by reflexivity.
  exact (conj eq_refl (conj H
    (promo_code_only_adds decimal_float whole_float_str 0 sample_ginfo
       ms p None notes p' None None eq_refl H))).
Defined.

(** What an upgrade that reached the epilogue did. *)
Lemma wheel_upgrade_saved key raised maxed p ad notes p' ad' names :
  wheel_upgrade key raised maxed p ad = Saved notes p' ad' names ->
  p' = p \/
  exists lvl, dict_get (pother p) key = Some (JInt lvl) /\
              (lvl < 3)%Z /\ (5 <= spoints p)%Z /\
              p' = Plr (spoints p - 5) (items p) (equipped p) (lang p)
                       (allianceidref p)
                       (dict_set (pother p) key (JInt (lvl + 1))).
Proof.
  unfold wheel_upgrade; intros H.
  destruct (dict_get (pother p) key) as [[| | lvl | | | |]|] eqn:Hk;
    try discriminate.
  destruct (lvl <? 3)%Z eqn:Hl; [|inversion H; now left].
  destruct (5 <=? spoints p)%Z eqn:Hs; inversion H; [|now left].
  right; exists lvl. apply Z.ltb_lt in Hl; apply Z.leb_le in Hs.
  repeat split; assumption.
Qed.

Lemma wheel_branch_saved allow ms p ad notes p' ad' names :
  wheel_branch allow ms p ad = Saved notes p' ad' names ->
  p' = p \/
  exists key lvl,
    In key [py "luck"; py "chaos"; py "charge"] /\
    dict_get (pother p) key = Some (JInt lvl) /\
    (lvl < 3)%Z /\ (5 <= spoints p)%Z /\
    p' = Plr (spoints p - 5) (items p) (equipped p) (lang p)
             (allianceidref p) (dict_set (pother p) key (JInt (lvl + 1))).
Proof.
  unfold wheel_branch; intros H.
  destruct (Nat.eqb (length ms) 1); [discriminate|].
  destruct (negb allow); [discriminate|].
  destruct (negb (str_in _ _)); [discriminate|].
  destruct (nth_error ms 1) as [action|]; [|discriminate].
  destruct (pystr_eqb action (py "luck"));
    [|destruct (pystr_eqb action (py "chaos"));
      [|destruct (pystr_eqb action (py "charge"));
        [|destruct (pystr_eqb action (py "spin"));
          [discriminate | inversion H; now left]]]];
    (destruct (wheel_upgrade_saved _ _ _ _ _ _ _ _ _ H)
       as [->|(lvl & Hk & Hl & Hs & ->)]; [now left|]);
    right; eexists _, lvl;
    (split; [|repeat split; eassumption || reflexivity]);
    simpl; tauto.
Qed.

(** X24. Wheel upgrades are capped and paid for: after a wheel command
    other than the spin that reached the epilogue ([luck], [chaos],
    [charge], or an unknown action), a level that was at most three is at
    most three, a non-negative balance is non-negative, and the balance plus
    five points per stored level is what it was, so every level gained cost
    exactly five points.  The spin, which resets the three levels without
    refund and uses up the wheel, is not covered. *)
Theorem wheel_upgrades_paid (allow_chaotic_commands : bool)
        (msg_splits : list pystr) (p : plrdata)
        (ad : option (pystr * alliance)) (notes : list note) (p' : plrdata)
        (ad' : option (pystr * alliance)) (names : option (list pystr)) :
  nth_error msg_splits 1 <> Some (py "spin") ->
  wheel_branch allow_chaotic_commands msg_splits p ad
  = Saved notes p' ad' names ->
  (forall key, (wheel_level p key <= 3)%Z -> (wheel_level p' key <= 3)%Z) /\
  ((0 <= spoints p)%Z -> (0 <= spoints p')%Z) /\
  (spoints p' + 5 * wheel_levels p' = spoints p + 5 * wheel_levels p)%Z /\
  items p' = items p /\ equipped p' = equipped p.
Proof.
  intros _ H.
  destruct (wheel_branch_saved _ _ _ _ _ _ _ _ H)
    as [->|(key & lvl & Hkey & Hk & Hl & Hs & ->)];
    [repeat split; tauto|].
  assert (Hlev : forall k,
            wheel_level (Plr (spoints p - 5) (items p) (equipped p) (lang p)
                             (allianceidref p)
                             (dict_set (pother p) key (JInt (lvl + 1)))) k
            = if pystr_eqb k key then (lvl + 1)%Z else wheel_level p k).
  { intros k; unfold wheel_level; cbn [pother].
    rewrite dict_get_set. destruct (pystr_eqb k key); reflexivity. }
  assert (Hold : wheel_level p key = lvl)
    by (unfold wheel_level; rewrite Hk; reflexivity).
  split; [|split; [|split; [|split; reflexivity]]].
  - intros k Hle; rewrite Hlev. destruct (pystr_eqb k key); [lia | exact Hle].
  - cbn [spoints]; lia.
  - unfold wheel_levels; rewrite !Hlev; cbn [spoints].
    destruct Hkey as [<-|[<-|[<-|[]]]];
      repeat match goal with
             | |- context [pystr_eqb ?a ?b] =>
                 let v := eval vm_compute in (pystr_eqb a b) in
                 change (pystr_eqb a b) with v
             end;
      cbv iota; rewrite <- Hold; lia.
Qed.

Lemma wheel_upgrades_paid_witness :
  let p := Plr 12 [py "wheel@other"] [] (Some (py "en")) None
               [(py "chaos", JInt 0); (py "luck", JInt 2);
                (py "charge", JInt 1)] in
  let p' := Plr 7 [py "wheel@other"] [] (Some (py "en")) None
                [(py "chaos", JInt 0); (py "luck", JInt 3);
                 (py "charge", JInt 1)] in
  nth_error [py "wheel"; py "luck"] 1 <> Some (py "spin") /\
  wheel_branch true [py "wheel"; py "luck"] p None
  = Saved (inform (py "wheelLuckIncrease") success (Some (py "en"))
                  [py "0"]) p' None None /\
  (forall key, (wheel_level p key <= 3)%Z -> (wheel_level p' key <= 3)%Z) /\
  ((0 <= spoints p)%Z -> (0 <= spoints p')%Z) /\
  (spoints p' + 5 * wheel_levels p' = spoints p + 5 * wheel_levels p)%Z /\
  items p' = items p /\ equipped p' = equipped p.
Proof.
  intros p p'.
  assert (H : wheel_branch true [py "wheel"; py "luck"] p None
              = Saved (inform (py "wheelLuckIncrease") success
                              (Some (py "en")) [py "0"]) p' None None)
    by reflexivity.
  assert (H0 : nth_error [py "wheel"; py "luck"] 1 <> Some (py "spin"))
    by discriminate.
  exact (conj H0 (conj H
           (wheel_upgrades_paid true _ p None _ p' None None H0 H))).
Defined.



Lemma leading_spaces_dropped k s :
  filter nonempty (split SPACE (repeat SPACE k ++ s))
  = filter nonempty (split SPACE s).
Proof.
  induction k as [|k IH]; [reflexivity|].
  cbn [repeat app split]. rewrite N.eqb_refl. exact IH.
Qed.

Lemma spaced_words ws :
  Forall (fun w => w <> [] /\ ~ In SPACE w) (map fst ws) ->
  filter nonempty (split SPACE (spaced ws)) = map fst ws.
Proof.
  induction ws as [|[w k] rest IH]; intros H; [reflexivity|].
  inversion H as [|? ? [Hw Hs] Hrest]; subst.
  assert (Hne : nonempty w = true) by (destruct w; [congruence | reflexivity]).
  cbn [spaced map fst]. destruct rest as [|r rest'].
  - rewrite split_no_sep by exact Hs. simpl; rewrite Hne; reflexivity.
  - rewrite split_at_first by exact Hs.
    cbn [filter]; rewrite Hne. f_equal.
    rewrite leading_spaces_dropped. exact (IH Hrest).
Qed.

(** X26. The words of a command are read back whatever the spacing: a
    slash followed by non-empty, space-free words, separated by one space or
    more, splits into exactly those words. *)
Theorem split_command_reads_words (ws : list (pystr * nat)) :
  Forall (fun w => w <> [] /\ ~ In SPACE w) (map fst ws) ->
  split_command (SLASH :: spaced ws) = map fst ws.
Proof.
  intros H; unfold split_command; cbn [tl]. exact (spaced_words ws H).
Qed.

Lemma split_command_witness :
  Forall (fun w => w <> [] /\ ~ In SPACE w)
         (map fst [(py "equip", 2%nat); (py "hat", 0%nat); (py "cap", 0%nat)])
  /\ split_command (py "/equip   hat cap") = [py "equip"; py "hat"; py "cap"].
Proof.
  assert (H : Forall (fun w => w <> [] /\ ~ In SPACE w)
                (map fst [(py "equip", 2%nat); (py "hat", 0%nat);
                          (py "cap", 0%nat)])).
  { repeat constructor; try discriminate;
      simpl; unfold SPACE; intuition discriminate. }
  exact (conj H (split_command_reads_words _ H)).
Defined.
